(** * School Co-Pilot: retrieval and class-isolation core

    A shallow embedding of the services of [backend/services]:

    - [embedding_service.py]: [EmbeddingService] and [VectorDatabase]
    - [class_isolation_service.py]: [ClassIsolationService]
    - [rag_service.py]: [RAGService]
    - [document_processor.py]: the text side of [DocumentProcessor],
      from the extracted text to the chunks

    Python dictionaries are finite maps, relational tables are finite maps
    from their primary key, the association table [class_documents] is a
    finite set of pairs.  Methods that mutate [self] take the state and
    return the new state next to their result.  A [try ... except] that
    turns an exception into [False] or [[]] is written out at each place
    where the body can raise inside the model (a missing dictionary key,
    a failing model call, an index past the end of a list, a field that
    a response schema rejects).  Floating-point similarity scores are
    read as rationals, and a NaN as the absence of a score.  Embeddings
    are numpy arrays whose rows have the dimension of the index they
    are given to.  Texts are lists of characters with code points below
    256.

    The services come first without the files of the vector database,
    [save_index] leaving only its result; the module [Persistent] then
    threads the directory of these files through the methods that save
    or load.

    Outside the model: exceptions raised by the database session, the
    parsers of PDF, DOCX and PPTX files (their output is an argument),
    the random ids of new chunks (the sequence drawn is an argument),
    logging, and the clock (the elapsed time of a query is an
    argument). *)

From Stdlib Require Import QArith Qminmax Lqa.
From Stdlib Require Import Ascii String DecimalString DecimalNat.
From Stdlib Require Import Sorting.Sorted Sorting.Permutation.
From stdpp Require Import base option list gmap strings fin_maps fin_sets.

Local Open Scope string_scope.
Local Open Scope list_scope.
Local Open Scope nat_scope.

(** ** External collaborators

    The sentence-transformer model and the arithmetic of the FAISS index
    are not code of the repository.  They are the fields of a class, so
    that every definition below is the repository's own code over them. *)

Class Backend := {
  (** a float32 embedding vector *)
  Vec : Type;
  (** [x / np.linalg.norm(x)]; numpy divides a vector of norm zero by
      zero without raising, and every component becomes NaN *)
  l2_normalize : Vec → Vec;
  (** the inner product of a query and a stored vector as [IndexFlatIP]
      computes it; [None] when it is NaN *)
  inner_product : Vec → Vec → option Q;
  (** [SentenceTransformer.encode(batch, normalize_embeddings=True)], one
      row per text; [None] when the call raises *)
  encode : list string → option (list Vec);
}.

(** ** Python helpers *)

Module Py.

(** [l.sort(key=score, reverse=True)]: a stable sort by descending key;
    elements with equal keys keep their order. *)
Fixpoint insert_desc {A} (score : A → Q) (x : A) (l : list A) : list A :=
  match l with
  | [] => [x]
  | y :: l' =>
      if Qle_bool (score y) (score x) then x :: y :: l'
      else y :: insert_desc score x l'
  end.

Definition sort_desc {A} (score : A → Q) (l : list A) : list A :=
  foldr (insert_desc score) [] l.

(** [range(0, n, step)] for a positive step. *)
Definition range_step (n step : nat) : list nat :=
  (λ j, j * step) <$> seq 0 ((n + step - 1) `div` step).

(** [l[i:j]] for [0 <= i <= j]. *)
Definition slice {A} (l : list A) (i j : nat) : list A :=
  take (j - i) (drop i l).

(** [l[i]] for an integer [i]: a negative index counts from the end of
    the list; [None] is [IndexError]. *)
Definition getitem {A} (l : list A) (i : Z) : option A :=
  if decide (0 ≤ i)%Z then l !! Z.to_nat i
  else if decide (0 ≤ Z.of_nat (length l) + i)%Z
       then l !! Z.to_nat (Z.of_nat (length l) + i)
       else None.

End Py.

(** ** [faiss.IndexFlatIP]

    A flat index keeps the vectors it was given in insertion order.  A
    search for [k] neighbours fills [k] slots, each holding the lowest
    float32 and the label [-1] at first.  The stored vectors are offered
    in order of position; one enters when its inner product with the
    query compares greater than the score of the worst slot, which it
    then replaces, and a NaN never compares greater.  The slots are
    ranked by score, and among equal scores by label; they come back
    best first as (score, label) pairs, the label of a vector being its
    position, and a slot no vector entered keeps the label [-1]. *)

Module Faiss.
Abbreviation IndexFlatIP := (list Vec) (only parsing).

(** The lowest float32, [-3.4028235e38]. *)
Definition lowest : Q := inject_Z (-340282346638528859811704183484516925440).

(** A slot that no vector entered. *)
Definition unfilled : Q * Z := (lowest, (-1)%Z).

(** [a] ranks above [b]: by the greater score, and among equal scores
    by the greater label. *)
Definition above (a b : Q * Z) : bool :=
  negb (Qle_bool a.1 b.1) || (Qeq_bool a.1 b.1 && (b.2 <? a.2)%Z).

(** The slots are kept worst first; [place] puts a pair where it
    ranks. *)
Fixpoint place (x : Q * Z) (slots : list (Q * Z)) : list (Q * Z) :=
  match slots with
  | [] => [x]
  | y :: slots' => if above y x then x :: slots else y :: place x slots'
  end.

Section Faiss.
Context `{Backend}.

Definition new : IndexFlatIP := [].

Definition ntotal (index : IndexFlatIP) : nat := length index.

Definition add (index : IndexFlatIP) (xs : list Vec) : IndexFlatIP :=
  index ++ xs.

(** One stored vector, with its position, offered to the slots. *)
Definition offer (q : Vec) (slots : list (Q * Z)) (entry : nat * Vec)
  : list (Q * Z) :=
  match inner_product q entry.2, slots with
  | Some score, worst :: slots' =>
      if Qle_bool score worst.1 then slots
      else place (score, Z.of_nat entry.1) slots'
  | _, _ => slots
  end.

Definition search (index : IndexFlatIP) (q : Vec) (k : nat) : list (Q * Z) :=
  rev (foldl (offer q) (replicate k unfilled) (imap pair index)).
End Faiss.
End Faiss.

(** ** [embedding_service.py] *)

Section EmbeddingService.
Context `{Backend}.

(** [EmbeddingService.__init__] loads the model and encodes a probe
    text; it raises when the model does. *)
Definition EmbeddingService_init : option unit :=
  _ ← encode ["test"]; Some ().

(** [generate_embeddings]: the texts are encoded in batches of 32 and
    the batches stacked. *)
Definition generate_embeddings (texts : list string) : option (list Vec) :=
  match texts with
  | [] => Some []
  | _ =>
      let batch_size := 32 in
      embeddings ← mapM (λ i, encode (Py.slice texts i (i + batch_size)))
                        (Py.range_step (length texts) batch_size);
      Some (concat embeddings)
  end.

(** [generate_single_embedding]: [embedding[0]] of a one-text batch. *)
Definition generate_single_embedding (text : string) : option Vec :=
  embedding ← encode [text]; head embedding.

(** The in-memory state of a [VectorDatabase]: the two dictionaries
    keyed by class id. *)
Record VectorDatabase := mkVectorDatabase {
  indexes : gmap string Faiss.IndexFlatIP;
  chunk_mappings : gmap string (list string);
}.

(** [VectorDatabase.__init__] *)
Definition VectorDatabase_init : VectorDatabase :=
  {| indexes := ∅; chunk_mappings := ∅ |}.

Definition create_class_index (vdb : VectorDatabase) (class_id : string)
  : VectorDatabase * bool :=
  ({| indexes := <[class_id := Faiss.new]> (indexes vdb);
      chunk_mappings := <[class_id := []]> (chunk_mappings vdb) |}, true).

(** [add_embeddings].  An empty batch is the one-dimensional
    [np.array([])], on which the norm along axis 1 raises; a missing
    mapping entry raises at [extend], after [index.add] has run. *)
Definition add_embeddings (vdb : VectorDatabase) (class_id : string)
    (embeddings : list Vec) (chunk_ids : list string) : VectorDatabase * bool :=
  let vdb1 :=
    match indexes vdb !! class_id with
    | None => (create_class_index vdb class_id).1
    | Some _ => vdb
    end in
  match indexes vdb1 !! class_id with
  | None => (vdb1, false)
  | Some index =>
      match embeddings with
      | [] => (vdb1, false)
      | _ =>
          let embeddings := l2_normalize <$> embeddings in
          let vdb2 :=
            {| indexes := <[class_id := Faiss.add index embeddings]> (indexes vdb1);
               chunk_mappings := chunk_mappings vdb1 |} in
          match chunk_mappings vdb2 !! class_id with
          | None => (vdb2, false)
          | Some mapping =>
              ({| indexes := indexes vdb2;
                  chunk_mappings :=
                    <[class_id := mapping ++ chunk_ids]> (chunk_mappings vdb2) |},
               true)
          end
      end
  end.

(** The loop of [search] over the raw hits: a hit whose label is below
    the length of the mapping is translated to [chunk_mapping[idx]], the
    others are skipped.  The test has no lower bound, so that the label
    [-1] of an unfilled slot reads the last entry of the mapping;
    [None] is the [IndexError] it raises on an empty mapping. *)
Fixpoint translate_hits (chunk_mapping : list string) (hits : list (Q * Z))
  : option (list (string * Q)) :=
  match hits with
  | [] => Some []
  | (score, idx) :: hits =>
      if decide (idx < Z.of_nat (length chunk_mapping))%Z then
        chunk_id ← Py.getitem chunk_mapping idx;
        results ← translate_hits chunk_mapping hits;
        Some ((chunk_id, score) :: results)
      else translate_hits chunk_mapping hits
  end.

(** [search]; an exception inside the body gives [[]]. *)
Definition search (vdb : VectorDatabase) (class_id : string)
    (query_embedding : Vec) (k : nat) : list (string * Q) :=
  match indexes vdb !! class_id with
  | None => []
  | Some index =>
      match chunk_mappings vdb !! class_id with
      | None => []
      | Some chunk_mapping =>
          if decide (Faiss.ntotal index = 0) then []
          else
            let query_embedding := l2_normalize query_embedding in
            let hits :=
              Faiss.search index query_embedding (k `min` Faiss.ntotal index) in
            default [] (translate_hits chunk_mapping hits)
      end
  end.

(** [remove_document_embeddings]: the positions whose chunk id is in
    [chunk_ids] are collected, and the mapping is rebuilt without them.
    The FAISS index is left as it is. *)
Definition remove_document_embeddings (vdb : VectorDatabase)
    (class_id document_id : string) (chunk_ids : list string)
  : VectorDatabase * bool :=
  match indexes vdb !! class_id with
  | None => (vdb, true)
  | Some _ =>
      match chunk_mappings vdb !! class_id with
      | None => (vdb, false)
      | Some current_mapping =>
          let indices_to_remove : gset nat :=
            list_to_set
              (omap (λ '(i, chunk_id),
                       if decide (chunk_id ∈ chunk_ids) then Some i else None)
                    (imap pair current_mapping)) in
          if decide (indices_to_remove = ∅) then (vdb, true)
          else
            let new_mapping :=
              omap (λ '(i, chunk_id),
                      if decide (i ∉ indices_to_remove) then Some chunk_id else None)
                   (imap pair current_mapping) in
            ({| indexes := indexes vdb;
                chunk_mappings := <[class_id := new_mapping]> (chunk_mappings vdb) |},
             true)
      end
  end.

(** [save_index] writes the two companion files and touches no
    in-memory state; only its result is kept. *)
Definition save_index (vdb : VectorDatabase) (class_id : string) : bool :=
  match indexes vdb !! class_id with
  | None => false
  | Some _ => bool_decide (is_Some (chunk_mappings vdb !! class_id))
  end.

(** [get_index_stats]: [exists], [total_vectors], [chunk_count]; for a
    class without an index the dictionary holds [exists] only, and the
    counts read 0 as through the callers' [stats.get(key, 0)]. *)
Record IndexStats := mkIndexStats {
  stats_exists : bool;
  total_vectors : nat;
  chunk_count : nat;
}.

Definition get_index_stats (vdb : VectorDatabase) (class_id : string) : IndexStats :=
  match indexes vdb !! class_id with
  | None => {| stats_exists := false; total_vectors := 0; chunk_count := 0 |}
  | Some index =>
      {| stats_exists := true;
         total_vectors := Faiss.ntotal index;
         chunk_count := length (default [] (chunk_mappings vdb !! class_id)) |}
  end.
End EmbeddingService.

(** ** [models.py]: the relational store

    Each table is a finite map from its primary key; [student_access] has
    a surrogate key and is kept as the list of its rows; the association
    table [class_documents] has the composite key (class id, document
    id) and is a finite set of such pairs. *)

Record Class := mkClass {
  class_name : string;
  class_enabled : bool;
}.

Record Document := mkDocument {
  document_name : string;
  file_type : string;
}.

Record DocumentChunk := mkDocumentChunk {
  chunk_document_id : string;
  content : string;
  page_number : option nat;
  section : option string;
}.

Record StudentAccess := mkStudentAccess {
  sa_student_id : string;
  sa_class_id : string;
  sa_enabled : bool;
}.

Record Session := mkSession {
  classes : gmap string Class;
  documents : gmap string Document;
  document_chunks : gmap string DocumentChunk;
  student_access : list StudentAccess;
  class_documents : gset (string * string);
}.

(** [class_obj in document.assigned_classes] *)
Definition assigned (db : Session) (document_id class_id : string) : Prop :=
  (class_id, document_id) ∈ class_documents db.

#[global] Instance assigned_dec db document_id class_id :
  Decision (assigned db document_id class_id).
Proof. unfold assigned. apply _. Defined.

(** [document.assigned_classes.append(class_obj); db.commit()] *)
Definition append_assignment (db : Session) (document_id class_id : string) : Session :=
  {| classes := classes db; documents := documents db;
     document_chunks := document_chunks db; student_access := student_access db;
     class_documents := {[ (class_id, document_id) ]} ∪ class_documents db |}.

(** [document.assigned_classes.remove(class_obj); db.commit()] *)
Definition remove_assignment (db : Session) (document_id class_id : string) : Session :=
  {| classes := classes db; documents := documents db;
     document_chunks := document_chunks db; student_access := student_access db;
     class_documents := class_documents db ∖ {[ (class_id, document_id) ]} |}.

(** [db.query(DocumentChunk).filter(DocumentChunk.document_id == document_id).all()],
    each row with its id. *)
Definition chunks_of_document (db : Session) (document_id : string)
  : list (string * DocumentChunk) :=
  map_to_list (filter (λ kv, chunk_document_id kv.2 = document_id) (document_chunks db)).

(** [list(class_obj.documents)]: the join of the association table with
    [documents], as document ids. *)
Definition documents_of_class (db : Session) (class_id : string) : list string :=
  omap (λ '(c, d), if decide (c = class_id ∧ is_Some (documents db !! d))
                   then Some d else None)
       (elements (class_documents db)).

(** [db.delete(chunk)] *)
Definition delete_chunk (db : Session) (chunk_id : string) : Session :=
  {| classes := classes db; documents := documents db;
     document_chunks := delete chunk_id (document_chunks db);
     student_access := student_access db;
     class_documents := class_documents db |}.

(** ** [class_isolation_service.py] *)

Section ClassIsolationService.
Context `{Backend}.

Record ClassIsolationService := mkClassIsolationService {
  db : Session;
  vector_db : VectorDatabase;
}.

(** [ClassIsolationService.__init__] *)
Definition ClassIsolationService_init (db : Session) : ClassIsolationService :=
  {| db := db; vector_db := VectorDatabase_init |}.

Definition create_class_collection (self : ClassIsolationService) (class_id : string)
  : ClassIsolationService * bool :=
  match classes (db self) !! class_id with
  | None => (self, false)
  | Some _ =>
      let '(vdb, success) := create_class_index (vector_db self) class_id in
      ({| db := db self; vector_db := vdb |}, success)
  end.

(** [assign_document_to_class].  The relational write is committed
    before the embeddings are computed: when the model raises, the
    handler returns [False] and the assignment row stays. *)
Definition assign_document_to_class (self : ClassIsolationService)
    (document_id class_id : string) : ClassIsolationService * bool :=
  match documents (db self) !! document_id, classes (db self) !! class_id with
  | Some _, Some _ =>
      if decide (assigned (db self) document_id class_id) then (self, true)
      else
        let db1 := append_assignment (db self) document_id class_id in
        let self1 := {| db := db1; vector_db := vector_db self |} in
        let chunks := chunks_of_document db1 document_id in
        match chunks with
        | [] => (self1, true)
        | _ =>
            match EmbeddingService_init with
            | None => (self1, false)
            | Some _ =>
                let chunk_texts := (λ chunk, content chunk.2) <$> chunks in
                match generate_embeddings chunk_texts with
                | None => (self1, false)
                | Some embeddings =>
                    let chunk_ids := fst <$> chunks in
                    let vdb :=
                      (add_embeddings (vector_db self1) class_id embeddings chunk_ids).1 in
                    let _ := save_index vdb class_id in
                    ({| db := db1; vector_db := vdb |}, true)
                end
            end
        end
  | _, _ => (self, false)
  end.

Definition remove_document_from_class (self : ClassIsolationService)
    (document_id class_id : string) : ClassIsolationService * bool :=
  match documents (db self) !! document_id, classes (db self) !! class_id with
  | Some _, Some _ =>
      let db1 :=
        if decide (assigned (db self) document_id class_id)
        then remove_assignment (db self) document_id class_id
        else db self in
      let chunks := chunks_of_document db1 document_id in
      let chunk_ids := fst <$> chunks in
      let vdb :=
        (remove_document_embeddings (vector_db self) class_id document_id chunk_ids).1 in
      let _ := save_index vdb class_id in
      ({| db := db1; vector_db := vdb |}, true)
  | _, _ => (self, false)
  end.

Definition get_class_documents (self : ClassIsolationService) (class_id : string)
  : list string :=
  match classes (db self) !! class_id with
  | None => []
  | Some _ => documents_of_class (db self) class_id
  end.

Definition verify_student_access (self : ClassIsolationService)
    (student_id class_id : string) : bool :=
  match classes (db self) !! class_id with
  | None => false
  | Some class_obj =>
      if negb (class_enabled class_obj) then false
      else
        let student_access :=
          head (filter (λ a, sa_student_id a = student_id
                             ∧ sa_class_id a = class_id
                             ∧ sa_enabled a = true)
                       (student_access (db self))) in
        bool_decide (student_access ≠ None)
  end.

(** The result dictionary of [bulk_assign_documents]. *)
Record BulkResult := mkBulkResult {
  successful : list string;
  bulk_failed : list string;
  bulk_total : nat;
}.

(** One turn of the loop of [bulk_assign_documents]. *)
Definition bulk_assign_document (class_id : string)
    (acc : ClassIsolationService * BulkResult) (doc_id : string)
  : ClassIsolationService * BulkResult :=
  let '(self, results) := acc in
  let '(self', ok) := assign_document_to_class self doc_id class_id in
  if ok
  then (self', {| successful := successful results ++ [doc_id];
                  bulk_failed := bulk_failed results;
                  bulk_total := bulk_total results |})
  else (self', {| successful := successful results;
                  bulk_failed := bulk_failed results ++ [doc_id];
                  bulk_total := bulk_total results |}).

Definition bulk_assign_documents (self : ClassIsolationService)
    (document_ids : list string) (class_id : string)
  : ClassIsolationService * BulkResult :=
  foldl (bulk_assign_document class_id)
        (self, {| successful := []; bulk_failed := [];
                  bulk_total := length document_ids |})
        document_ids.

(** The result dictionary of [migrate_class_documents]: the lists
    [migrated] (document id and name) and [failed], and [total]. *)
Record MigrationResult := mkMigrationResult {
  migrated : list (string * string);
  failed : list string;
  total : nat;
}.

(** One turn of the loop of [migrate_class_documents]. *)
Definition migrate_document (from_class_id to_class_id : string)
    (acc : ClassIsolationService * MigrationResult) (doc_id : string)
  : ClassIsolationService * MigrationResult :=
  let '(self, results) := acc in
  let '(self1, removed) := remove_document_from_class self doc_id from_class_id in
  if removed then
    let '(self2, added) := assign_document_to_class self1 doc_id to_class_id in
    if added then
      let doc_name := default "" (document_name <$> documents (db self2) !! doc_id) in
      (self2, {| migrated := migrated results ++ [(doc_id, doc_name)];
                 failed := failed results; total := total results |})
    else
      let self3 := (assign_document_to_class self2 doc_id from_class_id).1 in
      (self3, {| migrated := migrated results;
                 failed := failed results ++ [doc_id]; total := total results |})
  else
    (self1, {| migrated := migrated results;
               failed := failed results ++ [doc_id]; total := total results |}).

(** [migrate_class_documents]; [inl] is the [{"error": ...}] dictionary. *)
Definition migrate_class_documents (self : ClassIsolationService)
    (from_class_id to_class_id : string)
  : ClassIsolationService * (string + MigrationResult) :=
  match classes (db self) !! from_class_id, classes (db self) !! to_class_id with
  | Some _, Some _ =>
      let documents := documents_of_class (db self) from_class_id in
      let '(self', results) :=
        foldl (migrate_document from_class_id to_class_id)
              (self, {| migrated := []; failed := []; total := length documents |})
              documents in
      (self', inr results)
  | _, _ => (self, inl "Source or destination class not found")
  end.
(** [get_student_classes]: the class ids of the student's enabled access
    records, then the enabled classes among them, as rows with their
    id. *)
Definition get_student_classes (self : ClassIsolationService) (student_id : string)
  : list (string * Class) :=
  let access_records :=
    filter (λ access, sa_student_id access = student_id ∧ sa_enabled access = true)
           (student_access (db self)) in
  let class_ids := sa_class_id <$> access_records in
  map_to_list (filter (λ row, row.1 ∈ class_ids ∧ class_enabled row.2 = true)
                      (classes (db self))).

(** The dictionary [verify_query_isolation] returns; the keys a refusal
    does not carry are [None]. *)
Record QueryIsolation := mkQueryIsolation {
  allowed : bool;
  reason : string;
  accessible_documents : list string;
  document_count : option nat;
  vector_index_size : option nat;
  isolation_class_enabled : option bool;
}.

Definition verify_query_isolation (self : ClassIsolationService)
    (student_id class_id query : string) : QueryIsolation :=
  if negb (verify_student_access self student_id class_id) then
    {| allowed := false;
       reason := "Student does not have access to this class";
       accessible_documents := [];
       document_count := None;
       vector_index_size := None;
       isolation_class_enabled := None |}
  else
    let accessible_docs := get_class_documents self class_id in
    let index_stats := get_index_stats (vector_db self) class_id in
    {| allowed := true;
       reason := "Access granted";
       accessible_documents := accessible_docs;
       document_count := Some (length accessible_docs);
       vector_index_size := Some (total_vectors index_stats);
       isolation_class_enabled := Some true |}.

(** An entry of [potential_leaks]. *)
Record PotentialLeak := mkPotentialLeak {
  leak_document_id : string;
  leak_document_name : string;
  leak_chunk_count : nat;
}.

(** The report of [audit_class_isolation].  An entry of
    [document_details] is the id, the name and the type of a document;
    its [status] is a column the model of [Document] does not carry. *)
Record AuditReport := mkAuditReport {
  audit_class_id : string;
  audit_class_name : string;
  audit_class_enabled : bool;
  assigned_documents : nat;
  document_details : list (string * string * string);
  enabled_students : nat;
  total_students : nat;
  vector_index : IndexStats;
  isolation_status : string;
  potential_leaks : list PotentialLeak;
}.

(** [audit_class_isolation]; [inl] is the [{"error": ...}] dictionary. *)
Definition audit_class_isolation (self : ClassIsolationService) (class_id : string)
  : string + AuditReport :=
  match classes (db self) !! class_id with
  | None => inl "Class not found"
  | Some class_obj =>
      let class_documents := documents_of_class (db self) class_id in
      let student_access :=
        filter (λ access, sa_class_id access = class_id) (student_access (db self)) in
      let enabled_students := filter (λ access, sa_enabled access = true) student_access in
      let index_stats := get_index_stats (vector_db self) class_id in
      let all_documents := map_to_list (documents (db self)) in
      let cross_class_docs :=
        omap (λ doc : string * Document,
                if decide (doc.1 ∉ class_documents) then
                  let doc_chunks := length (chunks_of_document (db self) doc.1) in
                  if decide (0 < doc_chunks)
                  then Some {| leak_document_id := doc.1;
                               leak_document_name := document_name doc.2;
                               leak_chunk_count := doc_chunks |}
                  else None
                else None)
             all_documents in
      inr {| audit_class_id := class_id;
             audit_class_name := class_name class_obj;
             audit_class_enabled := class_enabled class_obj;
             assigned_documents := length class_documents;
             document_details :=
               omap (λ doc_id,
                       (λ doc, (doc_id, document_name doc, file_type doc))
                         <$> documents (db self) !! doc_id)
                    class_documents;
             enabled_students := length enabled_students;
             total_students := length student_access;
             vector_index := index_stats;
             isolation_status :=
               match cross_class_docs with [] => "SECURE" | _ => "WARNING" end;
             potential_leaks := cross_class_docs |}
  end.

(** The counters of [cleanup_orphaned_data]. *)
Record CleanupResult := mkCleanupResult {
  orphaned_chunks : nat;
  empty_indexes : nat;
  invalid_assignments : nat;
}.

(** The chunk rows whose [document_id] is the id of no document. *)
Definition orphaned_chunk_rows (db : Session) : list (string * DocumentChunk) :=
  map_to_list (filter (λ row, ¬ is_Some (documents db !! chunk_document_id row.2))
                      (document_chunks db)).

(** The first loop of [cleanup_orphaned_data]: each orphaned chunk is
    deleted and counted. *)
Definition delete_orphaned_chunk (acc : Session * CleanupResult)
    (chunk : string * DocumentChunk) : Session * CleanupResult :=
  let '(db, results) := acc in
  (delete_chunk db chunk.1,
   {| orphaned_chunks := orphaned_chunks results + 1;
      empty_indexes := empty_indexes results;
      invalid_assignments := invalid_assignments results |}).

(** The second loop: the collection of a class that has documents and
    whose index is missing or holds no vector is created anew, and the
    class counted. *)
Definition rebuild_empty_index (acc : ClassIsolationService * CleanupResult)
    (class_obj : string * Class) : ClassIsolationService * CleanupResult :=
  let '(self, results) := acc in
  let stats := get_index_stats (vector_db self) class_obj.1 in
  if decide (total_vectors stats = 0
             ∧ 0 < length (documents_of_class (db self) class_obj.1))
  then ((create_class_collection self class_obj.1).1,
        {| orphaned_chunks := orphaned_chunks results;
           empty_indexes := empty_indexes results + 1;
           invalid_assignments := invalid_assignments results |})
  else (self, results).

Definition cleanup_orphaned_data (self : ClassIsolationService)
  : ClassIsolationService * CleanupResult :=
  let cleanup_results :=
    {| orphaned_chunks := 0; empty_indexes := 0; invalid_assignments := 0 |} in
  let '(db1, cleanup_results) :=
    foldl delete_orphaned_chunk (db self, cleanup_results)
          (orphaned_chunk_rows (db self)) in
  let all_classes := map_to_list (classes db1) in
  foldl rebuild_empty_index
        ({| db := db1; vector_db := vector_db self |}, cleanup_results)
        all_classes.
End ClassIsolationService.


(** ** [rag_service.py] *)

Section RAGService.
Context `{Backend}.

(** [_generate_answer_from_context] is the placeholder answer synthesis
    (keyword overlap over the context); no property below looks inside
    the answer text of a successful response. *)
Variable _generate_answer_from_context : string → string → string.

(** [str(e)] of the exception the embedding model raises. *)
Variable model_error_text : string.

Record CitationResponse := mkCitationResponse {
  citation_document_id : string;
  citation_document_name : string;
  citation_page_number : option nat;
  citation_section : option string;
  citation_chunk_id : string;
  relevance_score : Q;
  content_preview : string;
}.

(** The constraints [schemas/queries.py] puts on the fields of a
    citation: [relevance_score] with [ge=0.0] and [le=1.0],
    [content_preview] with [max_length=200].  The constructor raises a
    validation error when one of them fails. *)
Definition citation_is_valid (citation : CitationResponse) : bool :=
  Qle_bool 0 (relevance_score citation)
  && Qle_bool (relevance_score citation) 1
  && (String.length (content_preview citation) <=? 200).

(** [str(e)] of the validation error raised for a citation ([inl]) or
    for a response with the given confidence ([inr]). *)
Variable validation_error_text : CitationResponse + Q → string.

Record DocumentReference := mkDocumentReference {
  reference_id : string;
  reference_name : string;
  reference_type : string;
}.

Record QueryResponse := mkQueryResponse {
  answer : string;
  citations : list CitationResponse;
  used_documents : list DocumentReference;
  confidence : Q;
  processing_time : nat;
  success : bool;
  error : option string;
}.

Record RAGService := mkRAGService {
  rag_db : Session;
  rag_vector_db : VectorDatabase;
}.

(** The configuration set in [RAGService.__init__]. *)
Definition similarity_threshold : Q := 7 # 10.
Definition max_chunks : nat := 5.
Definition max_context_length : nat := 2000.

(** A retrieved chunk: the row (with its id) and its similarity. *)
Definition RelevantChunk : Type := (string * DocumentChunk) * Q.

Definition _search_relevant_chunks (self : RAGService) (class_id : string)
    (query_embedding : Vec) : list RelevantChunk :=
  let search_results :=
    search (rag_vector_db self) class_id query_embedding (max_chunks * 2) in
  match search_results with
  | [] => []
  | _ =>
      let relevant_chunks :=
        omap (λ '(chunk_id, similarity_score),
                if Qle_bool similarity_threshold similarity_score
                then (λ chunk, ((chunk_id, chunk), similarity_score))
                       <$> document_chunks (rag_db self) !! chunk_id
                else None)
             search_results in
      take max_chunks (Py.sort_desc snd relevant_chunks)
  end.

Definition _create_no_results_response (processing_time : nat) : QueryResponse :=
  {| answer := "I can't find this in the school materials. Please make sure your question relates to the course content provided by your teacher.";
     citations := [];
     used_documents := [];
     confidence := 0;
     processing_time := processing_time;
     success := true;
     error := None |}.

Definition _create_error_response (error_message : string) (processing_time : nat)
  : QueryResponse :=
  {| answer := "I'm sorry, I encountered an error processing your question. Please try again.";
     citations := [];
     used_documents := [];
     confidence := 0;
     processing_time := processing_time;
     success := false;
     error := Some error_message |}.

(** [chunk.content[:200] + "..." if len(chunk.content) > 200 else chunk.content] *)
Definition preview (s : string) : string :=
  if decide (200 < String.length s) then String.append (substring 0 200 s) "..." else s.

(** The arguments of the [CitationResponse(...)] call of
    [_generate_response] for a retained chunk and its document. *)
Definition citation_fields (chunk_id : string) (chunk : DocumentChunk)
    (document : Document) (similarity_score : Q) : CitationResponse :=
  {| citation_document_id := chunk_document_id chunk;
     citation_document_name := document_name document;
     citation_page_number := page_number chunk;
     citation_section := section chunk;
     citation_chunk_id := chunk_id;
     relevance_score := similarity_score;
     content_preview := preview (content chunk) |}.

(** One turn of the loop of [_generate_response] over the retained
    chunks.  The state is the context parts, the citations and the
    dictionary of used documents in insertion order; [inl] is the
    citation whose constructor raised, which ends the loop. *)
Definition cite (self : RAGService)
    (acc : CitationResponse
           + list string * list CitationResponse * list (string * DocumentReference))
    (r : RelevantChunk)
  : CitationResponse
    + list string * list CitationResponse * list (string * DocumentReference) :=
  match acc with
  | inl rejected => inl rejected
  | inr (context_parts, citations, used) =>
      let '((chunk_id, chunk), similarity_score) := r in
      let context_parts := context_parts ++ [content chunk] in
      match documents (rag_db self) !! chunk_document_id chunk with
      | None => inr (context_parts, citations, used)
      | Some document =>
          let citation := citation_fields chunk_id chunk document similarity_score in
          if citation_is_valid citation then
            let used :=
              if decide (chunk_document_id chunk ∈ used.*1) then used
              else used ++ [(chunk_document_id chunk,
                             {| reference_id := chunk_document_id chunk;
                                reference_name := document_name document;
                                reference_type := file_type document |})] in
            inr (context_parts, citations ++ [citation], used)
          else inl citation
      end
  end.

Definition collect_citations (self : RAGService) (relevant_chunks : list RelevantChunk)
  : CitationResponse
    + list string * list CitationResponse * list (string * DocumentReference) :=
  foldl (cite self) (inr ([], [], [])) relevant_chunks.

Definition newline : string := String (ascii_of_nat 10) EmptyString.

(** [_generate_response].  A validation error, of a citation or of the
    response itself (a [confidence] with [ge=0.0] and [le=1.0]), is
    caught by the handler, which returns the error response. *)
Definition _generate_response (self : RAGService) (query : string)
    (relevant_chunks : list RelevantChunk) (class_id : string) : QueryResponse :=
  match relevant_chunks with
  | [] => _create_no_results_response 0
  | _ =>
      match collect_citations self relevant_chunks with
      | inl rejected => _create_error_response (validation_error_text (inl rejected)) 0
      | inr (context_parts, citations, used) =>
          let full_context := String.concat (String.append newline newline) context_parts in
          let full_context :=
            if decide (max_context_length < String.length full_context)
            then String.append (substring 0 max_context_length full_context) "..."
            else full_context in
          let answer := _generate_answer_from_context query full_context in
          let avg_similarity :=
            (foldr Qplus 0 (snd <$> relevant_chunks)
             / inject_Z (Z.of_nat (length relevant_chunks)))%Q in
          let confidence := Qmin avg_similarity 1 in
          if Qle_bool 0 confidence then
            {| answer := answer;
               citations := citations;
               used_documents := used.*2;
               confidence := confidence;
               processing_time := 0;
               success := true;
               error := None |}
          else _create_error_response (validation_error_text (inr confidence)) 0
      end
  end.

Definition set_processing_time (response : QueryResponse) (t : nat) : QueryResponse :=
  {| answer := answer response; citations := citations response;
     used_documents := used_documents response; confidence := confidence response;
     processing_time := t; success := success response; error := error response |}.

(** [process_query]; [elapsed] is the reading of the clock, in
    milliseconds since [start_time], when the response is built. *)
Definition process_query (self : RAGService) (query class_id student_id : string)
    (elapsed : nat) : QueryResponse :=
  match classes (rag_db self) !! class_id with
  | None => _create_error_response "Class not found" elapsed
  | Some _ =>
      match generate_single_embedding query with
      | None => _create_error_response model_error_text elapsed
      | Some query_embedding =>
          match _search_relevant_chunks self class_id query_embedding with
          | [] => _create_no_results_response elapsed
          | relevant_chunks =>
              set_processing_time
                (_generate_response self query relevant_chunks class_id) elapsed
          end
      end
  end.
End RAGService.

(** ** The files of the vector database

    [VectorDatabase] keeps, under [data/vector_db], the file
    [<class_id>.index] written by [faiss.write_index] and the file
    [<class_id>.mapping] holding the pickled mapping.  The directory is
    the pair of the two families of files, each file with what reading
    it back gives; a mapping file that was opened for writing and
    received nothing is there with [None].  The services are written
    out once more with the directory threaded through them, so that the
    calls of [save_index] and [load_index] have their effect. *)

Module Persistent.
Section Persistent.
Context `{Backend}.

Record DataDir := mkDataDir {
  index_files : gmap string Faiss.IndexFlatIP;
  mapping_files : gmap string (option (list string));
}.

(** [save_index].  The index file is written first; the mapping file
    is opened, and thereby emptied, before [self.chunk_mappings[class_id]]
    is looked up, so that a missing mapping leaves an empty file. *)
Definition save_index (vdb : VectorDatabase) (files : DataDir) (class_id : string)
  : DataDir * bool :=
  match indexes vdb !! class_id with
  | None => (files, false)
  | Some index =>
      let files1 :=
        {| index_files := <[class_id := index]> (index_files files);
           mapping_files := mapping_files files |} in
      match chunk_mappings vdb !! class_id with
      | None =>
          ({| index_files := index_files files1;
              mapping_files := <[class_id := None]> (mapping_files files1) |}, false)
      | Some mapping =>
          ({| index_files := index_files files1;
              mapping_files := <[class_id := Some mapping]> (mapping_files files1) |},
           true)
      end
  end.

(** [load_index].  Both files must exist; the index is put in place
    before the mapping is unpickled, which raises on an empty file. *)
Definition load_index (vdb : VectorDatabase) (files : DataDir) (class_id : string)
  : VectorDatabase * bool :=
  match index_files files !! class_id, mapping_files files !! class_id with
  | Some index, Some pickled =>
      let vdb1 :=
        {| indexes := <[class_id := index]> (indexes vdb);
           chunk_mappings := chunk_mappings vdb |} in
      match pickled with
      | None => (vdb1, false)
      | Some mapping =>
          ({| indexes := indexes vdb1;
              chunk_mappings := <[class_id := mapping]> (chunk_mappings vdb1) |}, true)
      end
  | _, _ => (vdb, false)
  end.

(** [ClassIsolationService.assign_document_to_class], with the files. *)
Definition assign_document_to_class (self : ClassIsolationService) (files : DataDir)
    (document_id class_id : string) : ClassIsolationService * DataDir * bool :=
  match documents (db self) !! document_id, classes (db self) !! class_id with
  | Some _, Some _ =>
      if decide (assigned (db self) document_id class_id) then (self, files, true)
      else
        let db1 := append_assignment (db self) document_id class_id in
        let self1 := {| db := db1; vector_db := vector_db self |} in
        let chunks := chunks_of_document db1 document_id in
        match chunks with
        | [] => (self1, files, true)
        | _ =>
            match EmbeddingService_init with
            | None => (self1, files, false)
            | Some _ =>
                let chunk_texts := (λ chunk, content chunk.2) <$> chunks in
                match generate_embeddings chunk_texts with
                | None => (self1, files, false)
                | Some embeddings =>
                    let chunk_ids := fst <$> chunks in
                    let vdb :=
                      (add_embeddings (vector_db self1) class_id embeddings chunk_ids).1 in
                    let files1 := (save_index vdb files class_id).1 in
                    ({| db := db1; vector_db := vdb |}, files1, true)
                end
            end
        end
  | _, _ => (self, files, false)
  end.

(** [ClassIsolationService.remove_document_from_class], with the files. *)
Definition remove_document_from_class (self : ClassIsolationService) (files : DataDir)
    (document_id class_id : string) : ClassIsolationService * DataDir * bool :=
  match documents (db self) !! document_id, classes (db self) !! class_id with
  | Some _, Some _ =>
      let db1 :=
        if decide (assigned (db self) document_id class_id)
        then remove_assignment (db self) document_id class_id
        else db self in
      let chunks := chunks_of_document db1 document_id in
      let chunk_ids := fst <$> chunks in
      let vdb :=
        (remove_document_embeddings (vector_db self) class_id document_id chunk_ids).1 in
      let files1 := (save_index vdb files class_id).1 in
      ({| db := db1; vector_db := vdb |}, files1, true)
  | _, _ => (self, files, false)
  end.

(** [RAGService._load_existing_indexes] *)
Definition _load_existing_indexes (db : Session) (vdb : VectorDatabase) (files : DataDir)
  : VectorDatabase :=
  foldl (λ vdb class_obj, (load_index vdb files class_obj.1).1)
        vdb (map_to_list (classes db)).

(** [RAGService.__init__]; it raises when the embedding model does. *)
Definition RAGService_init (db : Session) (files : DataDir) : option RAGService :=
  _ ← EmbeddingService_init;
  Some {| rag_db := db;
          rag_vector_db := _load_existing_indexes db VectorDatabase_init files |}.

(** [RAGService.assign_document_to_class]: the chunks of the document
    are embedded and added to the class's index; the assignment table
    is neither read nor written. *)
Definition rag_assign_document_to_class (self : RAGService) (files : DataDir)
    (document_id class_id : string) : RAGService * DataDir * bool :=
  let chunks := chunks_of_document (rag_db self) document_id in
  match chunks with
  | [] => (self, files, false)
  | _ =>
      let chunk_texts := (λ chunk, content chunk.2) <$> chunks in
      match generate_embeddings chunk_texts with
      | None => (self, files, false)
      | Some embeddings =>
          let chunk_ids := fst <$> chunks in
          let '(vdb, success) :=
            add_embeddings (rag_vector_db self) class_id embeddings chunk_ids in
          let files1 := if success then (save_index vdb files class_id).1 else files in
          ({| rag_db := rag_db self; rag_vector_db := vdb |}, files1, success)
      end
  end.

(** [RAGService.remove_document_from_class] *)
Definition rag_remove_document_from_class (self : RAGService) (files : DataDir)
    (document_id class_id : string) : RAGService * DataDir * bool :=
  let chunks := chunks_of_document (rag_db self) document_id in
  let chunk_ids := fst <$> chunks in
  let '(vdb, success) :=
    remove_document_embeddings (rag_vector_db self) class_id document_id chunk_ids in
  let files1 := if success then (save_index vdb files class_id).1 else files in
  ({| rag_db := rag_db self; rag_vector_db := vdb |}, files1, success).

(** [RAGService.get_class_index_stats] *)
Definition get_class_index_stats (self : RAGService) (class_id : string) : IndexStats :=
  get_index_stats (rag_vector_db self) class_id.
End Persistent.
End Persistent.

(** ** [document_processor.py] *)

Module DocumentProcessor.

(** [str.isspace] and the class [\s] of [re], on code points below 256. *)
Definition isspace (c : ascii) : bool :=
  let n := nat_of_ascii c in
  ((9 <=? n)%nat && (n <=? 13)%nat) || ((28 <=? n)%nat && (n <=? 32)%nat)
  || (n =? 133)%nat || (n =? 160)%nat.

(** The class [[.!?]]. *)
Definition is_terminal (c : ascii) : bool :=
  bool_decide (c = "."%char ∨ c = "!"%char ∨ c = "?"%char).

Fixpoint span_length (p : ascii → bool) (s : list ascii) : nat :=
  match s with
  | c :: s' => if p c then S (span_length p s') else 0
  | [] => 0
  end.

(** The length of the match of [[.!?]+\s+] at the head of [s], when
    there is one.  Both repetitions are greedy, and since the two
    classes are disjoint no shorter attempt can succeed. *)
Definition separator_length (s : list ascii) : option nat :=
  let p := span_length is_terminal s in
  let w := span_length isspace (drop p s) in
  if (0 <? p)%nat && (0 <? w)%nat then Some (p + w) else None.

(** [re.split(r'[.!?]+\s+', text)]: the text is scanned left to right;
    at a separator the piece read so far is emitted and the separator
    skipped.  [skip] counts the characters of a separator still to pass;
    [acc] is the current piece, reversed. *)
Fixpoint re_split_from (skip : nat) (s : list ascii) (acc : list ascii)
  : list (list ascii) :=
  match s with
  | [] => [rev acc]
  | c :: s' =>
      match skip with
      | S n => re_split_from n s' acc
      | 0 =>
          match separator_length (c :: s') with
          | Some n => rev acc :: re_split_from (n - 1) s' []
          | None => re_split_from 0 s' (c :: acc)
          end
      end
  end.

Definition re_split (text : list ascii) : list (list ascii) :=
  re_split_from 0 text [].

Fixpoint lstrip (s : list ascii) : list ascii :=
  match s with
  | c :: s' => if isspace c then lstrip s' else s
  | [] => []
  end.

(** [s.strip()] *)
Definition strip (s : list ascii) : list ascii :=
  rev (lstrip (rev (lstrip s))).

(** [_split_into_sentences], on the characters of the text. *)
Definition split_sentences (text : list ascii) : list (list ascii) :=
  let sentences := re_split text in
  omap (λ s, if decide (10 < length (strip s)) then Some (strip s) else None)
       sentences.

Definition _split_into_sentences (text : string) : list string :=
  string_of_list_ascii <$> split_sentences (list_ascii_of_string text).

(** *** Cleaning *)

Definition between (lo hi : nat) (c : ascii) : bool :=
  (lo <=? nat_of_ascii c)%nat && (nat_of_ascii c <=? hi)%nat.

(** The class [\d], on code points below 256. *)
Definition is_digit (c : ascii) : bool := between 48 57 c.

(** The classes [[A-Z]] and [[A-Za-z]]. *)
Definition is_upper (c : ascii) : bool := between 65 90 c.
Definition is_alpha (c : ascii) : bool := between 65 90 c || between 97 122 c.

(** The class [\w] of a [str] pattern, on code points below 256: the
    alphanumeric characters and the underscore. *)
Definition is_word (c : ascii) : bool :=
  let n := nat_of_ascii c in
  is_digit c || is_alpha c || (n =? 95)%nat
  || (n =? 170)%nat || (n =? 178)%nat || (n =? 179)%nat || (n =? 181)%nat
  || (n =? 185)%nat || (n =? 186)%nat || between 188 190 c
  || between 192 214 c || between 216 246 c || between 248 255 c.

Definition double_quote : ascii := ascii_of_nat 34.
Definition LF : ascii := ascii_of_nat 10.
Definition CR : ascii := ascii_of_nat 13.

(** The characters the second substitution of [_clean_text] keeps:
    word characters, whitespace, and the punctuation its negated class
    lists, the double quote among it. *)
Definition is_kept (c : ascii) : bool :=
  is_word c || isspace c
  || bool_decide (c ∈ double_quote :: list_ascii_of_string ".,!?;:-()[]{}'/").

(** [re.sub(r'\s+', ' ', text)]: every maximal run of whitespace becomes
    one space; [in_run] tells that the previous character was
    whitespace. *)
Fixpoint sub_whitespace (in_run : bool) (text : list ascii) : list ascii :=
  match text with
  | [] => []
  | c :: text' =>
      if isspace c
      then (if in_run then sub_whitespace true text'
            else " "%char :: sub_whitespace true text')
      else c :: sub_whitespace false text'
  end.

(** [text.replace('\r\n', '\n')] *)
Fixpoint replace_crlf (text : list ascii) : list ascii :=
  match text with
  | [] => []
  | c :: text' =>
      match text' with
      | c' :: text'' =>
          if decide (c = CR ∧ c' = LF) then LF :: replace_crlf text''
          else c :: replace_crlf text'
      | [] => [c]
      end
  end.

(** [text.replace('\r', '\n')] *)
Definition replace_cr (text : list ascii) : list ascii :=
  (λ c, if decide (c = CR) then LF else c) <$> text.

Definition clean_text (text : list ascii) : list ascii :=
  let text := sub_whitespace false text in
  let text := filter (λ c, is_kept c = true) text in
  let text := replace_cr (replace_crlf text) in
  strip text.

Definition _clean_text (text : string) : string :=
  string_of_list_ascii (clean_text (list_ascii_of_string text)).

(** *** Tokens and overlap *)

(** [len(text) // 4] *)
Definition estimate_tokens (text : list ascii) : nat := length text `div` 4.

Definition _estimate_tokens (text : string) : nat :=
  estimate_tokens (list_ascii_of_string text).

(** [text.split()]: the maximal runs of characters that are not
    whitespace; [acc] is the current run, reversed. *)
Fixpoint split_from (text : list ascii) (acc : list ascii) : list (list ascii) :=
  match text with
  | [] => match acc with [] => [] | _ => [rev acc] end
  | c :: text' =>
      if isspace c
      then match acc with
           | [] => split_from text' []
           | _ => rev acc :: split_from text' []
           end
      else split_from text' (c :: acc)
  end.

Definition split (text : list ascii) : list (list ascii) := split_from text [].

(** [sep.join(parts)] *)
Fixpoint join (sep : list ascii) (parts : list (list ascii)) : list ascii :=
  match parts with
  | [] => []
  | [part] => part
  | part :: parts' => part ++ sep ++ join sep parts'
  end.

(** [words[-n:]] for [n <= len(words)]: the last [n] words, and all of
    them for [n = 0], where the slice reads [words[0:]]. *)
Definition last_words (words : list (list ascii)) (n : nat) : list (list ascii) :=
  match n with
  | 0 => words
  | _ => drop (length words - n) words
  end.

Definition get_overlap_text (text : list ascii) (overlap_tokens : nat) : list ascii :=
  let words := split text in
  let overlap_words := overlap_tokens `div` 4 in
  if decide (overlap_words < length words)
  then join [" "%char] (last_words words overlap_words)
  else text.

Definition _get_overlap_text (text : string) (overlap_tokens : nat) : string :=
  string_of_list_ascii (get_overlap_text (list_ascii_of_string text) overlap_tokens).

(** *** Page and section of a chunk *)

(** [int(digits)] and [str(n)], in decimal. *)
Definition int (digits : list ascii) : nat :=
  foldl (λ n c, 10 * n + (nat_of_ascii c - 48)) 0 digits.

Definition str (n : nat) : list ascii :=
  list_ascii_of_string (NilEmpty.string_of_uint (Nat.to_uint n)).

(** The match of [keyword(\d+)] at the head of [s], as the digits: the
    run of digits is maximal, as whatever the patterns below put after
    the group is no digit. *)
Definition match_numbered (keyword : list ascii) (s : list ascii) : option (list ascii) :=
  if decide (take (length keyword) s = keyword) then
    let rest := drop (length keyword) s in
    let d := span_length is_digit rest in
    if (0 <? d)%nat then Some (take d rest) else None
  else None.

(** The match of [\[KEYWORD (\d+)\]] at the head of [s], as the digits. *)
Definition match_marker (keyword : list ascii) (s : list ascii) : option (list ascii) :=
  digits ← match_numbered keyword s;
  if decide (drop (length keyword + length digits) s !! 0 = Some "]"%char)
  then Some digits else None.

(** [re.search(pattern, content)]: the match at the leftmost position
    that has one. *)
Fixpoint search_from {A} (match_at : list ascii → option A) (s : list ascii) : option A :=
  match match_at s with
  | Some group => Some group
  | None =>
      match s with
      | [] => None
      | _ :: s' => search_from match_at s'
      end
  end.

Definition extract_page_number (content : list ascii) : option nat :=
  int <$> search_from (match_marker (list_ascii_of_string "[PAGE ")) content.

Definition _extract_page_number (content : string) : option nat :=
  extract_page_number (list_ascii_of_string content).

(** [re.search('^' + pattern, content, re.MULTILINE)]: a position
    qualifies when it is the start of the content or follows a line
    feed. *)
Fixpoint search_lines {A} (match_at : list ascii → option A) (at_start : bool)
    (s : list ascii) : option A :=
  match (if at_start then match_at s else None) with
  | Some group => Some group
  | None =>
      match s with
      | [] => None
      | c :: s' => search_lines match_at (bool_decide (c = LF)) s'
      end
  end.

(** [(Chapter \d+)] and [(Section \d+)] at the head of [s]. *)
Definition match_heading (keyword : list ascii) (s : list ascii) : option (list ascii) :=
  (λ digits, keyword ++ digits) <$> match_numbered keyword s.

(** [([A-Z][A-Za-z\s]+):] at the head of [s].  The colon is outside the
    class of the repetition, so the repetition covers its maximal
    run. *)
Definition match_title (s : list ascii) : option (list ascii) :=
  match s with
  | c :: s' =>
      let run := span_length (λ c, is_alpha c || isspace c) s' in
      if is_upper c && (0 <? run)%nat && bool_decide (s' !! run = Some ":"%char)
      then Some (c :: take run s') else None
  | [] => None
  end.

(** [(\d+\.\s+[A-Za-z\s]+)] at the head of [s].  After the digits and
    the dot, the two repetitions together cover the maximal run of
    letters and whitespace, which has to begin with whitespace and to
    hold a second character for the last repetition. *)
Definition match_numbered_title (s : list ascii) : option (list ascii) :=
  let d := span_length is_digit s in
  let after := drop (d + 1) s in
  let run := span_length (λ c, is_alpha c || isspace c) after in
  if (0 <? d)%nat && bool_decide (s !! d = Some "."%char)
     && (2 <=? run)%nat && bool_decide (isspace <$> after !! 0 = Some true)
  then Some (take (d + 1 + run) s) else None.

Definition extract_section (content : list ascii) : option (list ascii) :=
  match search_from (match_marker (list_ascii_of_string "[SLIDE ")) content with
  | Some digits => Some (list_ascii_of_string "Slide " ++ digits)
  | None =>
      let section_patterns :=
        [ match_heading (list_ascii_of_string "Chapter ");
          match_heading (list_ascii_of_string "Section ");
          match_title;
          match_numbered_title ] in
      strip <$> head (omap (λ pattern, search_lines pattern true content)
                           section_patterns)
  end.

Definition _extract_section (content : string) : option string :=
  string_of_list_ascii <$> extract_section (list_ascii_of_string content).

(** *** Chunks *)

(** A new chunk: its id, the row, and the two columns of the row that
    the model of the table does not carry. *)
Record NewChunk := mkNewChunk {
  new_chunk_id : string;
  new_chunk_row : DocumentChunk;
  token_count : nat;
  chunk_index : nat;
}.

(** [_create_chunk]; [chunk_id] is the [uuid4] drawn. *)
Definition _create_chunk (chunk_id : string) (content : list ascii)
    (document_id : string) (chunk_index : nat) : NewChunk :=
  {| new_chunk_id := chunk_id;
     new_chunk_row :=
       {| chunk_document_id := document_id;
          content := string_of_list_ascii content;
          page_number := extract_page_number content;
          section := string_of_list_ascii <$> extract_section content |};
     token_count := estimate_tokens content;
     chunk_index := chunk_index |}.

Section Chunking.
(** The parameters of [DocumentProcessor.__init__], and the ids that
    the successive calls of [uuid.uuid4] return. *)
Variables chunk_size chunk_overlap : nat.
Variable uuid4 : nat → string.

(** The state of the loop of [_create_chunks]: the chunks made, the
    current chunk, its token count, and the index of the next chunk.
    [drawn] is the number of ids drawn before the call. *)
Definition add_sentence (drawn : nat) (document_id : string)
    (state : list NewChunk * list ascii * nat * nat) (sentence : list ascii)
  : list NewChunk * list ascii * nat * nat :=
  let '(chunks, current_chunk, current_tokens, chunk_index) := state in
  let sentence_tokens := estimate_tokens sentence in
  if decide (chunk_size < current_tokens + sentence_tokens ∧ current_chunk ≠ []) then
    let chunk :=
      _create_chunk (uuid4 (drawn + chunk_index)) (strip current_chunk)
                    document_id chunk_index in
    let overlap_text := get_overlap_text current_chunk chunk_overlap in
    let current_chunk := overlap_text ++ " "%char :: sentence in
    (chunks ++ [chunk], current_chunk, estimate_tokens current_chunk, chunk_index + 1)
  else
    (chunks, current_chunk ++ " "%char :: sentence,
     current_tokens + sentence_tokens, chunk_index).

Definition create_chunks (drawn : nat) (text : list ascii) (document_id : string)
  : list NewChunk :=
  let cleaned_text := clean_text text in
  let sentences := split_sentences cleaned_text in
  let '(chunks, current_chunk, current_tokens, chunk_index) :=
    foldl (add_sentence drawn document_id) ([], [], 0, 0) sentences in
  match strip current_chunk with
  | [] => chunks
  | _ =>
      chunks ++ [_create_chunk (uuid4 (drawn + chunk_index)) (strip current_chunk)
                               document_id chunk_index]
  end.

Definition _create_chunks (drawn : nat) (text : string) (document_id : string)
  : list NewChunk :=
  create_chunks drawn (list_ascii_of_string text) document_id.
End Chunking.

(** *** Text of a PDF and of a presentation

    [PyPDF2] gives the pages, each with the text [extract_text]
    returns, or nothing when it raises; [python-pptx] gives the slides,
    each with the texts of its shapes that have one. *)

(** [f"[PAGE {page_num}]\n{page_text}"] *)
Definition page_block (page_num : nat) (page_text : list ascii) : list ascii :=
  list_ascii_of_string "[PAGE " ++ str page_num ++ "]"%char :: LF :: page_text.

Definition extract_pdf_text (pages : list (option (list ascii))) : list ascii :=
  let text_content :=
    omap (λ '(i, page),
            page_text ← page;
            if decide (strip page_text ≠ []) then Some (page_block (i + 1) page_text)
            else None)
         (imap pair pages) in
  join [LF; LF] text_content.

(** [f"[SLIDE {slide_num}]"] *)
Definition slide_marker (slide_num : nat) : list ascii :=
  list_ascii_of_string "[SLIDE " ++ str slide_num ++ ["]"%char].

Definition extract_pptx_text (slides : list (list (list ascii))) : list ascii :=
  let text_content :=
    omap (λ '(i, shapes),
            let slide_text :=
              slide_marker (i + 1) :: filter (λ text, strip text ≠ []) shapes in
            if decide (1 < length slide_text) then Some (join [LF] slide_text)
            else None)
         (imap pair slides) in
  join [LF; LF] text_content.

(** *** [process_document]

    [extracted] is what [_extract_text] gives for the file of the
    document, nothing when it raises; the chunks are made, with the
    default sizes, and dropped, so that the call leaves only its result
    and the ids it drew. *)
Definition default_chunk_size : nat := 700.
Definition default_chunk_overlap : nat := 100.

Definition process_document (uuid4 : nat → string) (drawn : nat)
    (extracted : option (list ascii)) (document_id : string) : bool * nat :=
  match extracted with
  | None => (false, drawn)
  | Some text_content =>
      match text_content with
      | [] => (false, drawn)
      | _ =>
          let chunks :=
            create_chunks default_chunk_size default_chunk_overlap uuid4 drawn
                          text_content document_id in
          (true, drawn + length chunks)
      end
  end.

End DocumentProcessor.

(** ** [rag_service.py]: the answer text

    [RAGService._generate_answer_from_context], the keyword matching
    that stands in for a language model.  The two sets of words are
    lists without duplicates; the method reads them through their size
    and through [any], which do not depend on an order. *)

Module Answer.
Import DocumentProcessor.

(** [str.lower], on code points below 256. *)
Definition lower (c : ascii) : ascii :=
  if between 65 90 c || between 192 214 c || between 216 222 c
  then ascii_of_nat (nat_of_ascii c + 32) else c.

(** [s.split(sep)] for a separator of one character; [acc] is the
    current piece, reversed. *)
Fixpoint split_on (sep : ascii) (s acc : list ascii) : list (list ascii) :=
  match s with
  | [] => [rev acc]
  | c :: s' =>
      if decide (c = sep) then rev acc :: split_on sep s' []
      else split_on sep s' (c :: acc)
  end.

(** [word in s] *)
Fixpoint contains (s word : list ascii) : bool :=
  bool_decide (word `prefix_of` s)
  || match s with
     | [] => false
     | _ :: s' => contains s' word
     end.

Definition not_found : list ascii :=
  list_ascii_of_string "I can't find this in the school materials.".

Definition generate_answer_from_context (query context : list ascii) : list ascii :=
  match strip context with
  | [] => not_found
  | _ =>
      let query_lower := lower <$> query in
      let context_lower := lower <$> context in
      let query_words := remove_dups (split query_lower) in
      let context_words := remove_dups (split context_lower) in
      let overlap := filter (λ word, word ∈ context_words) query_words in
      if decide (length overlap < 2) then not_found
      else
        let sentences := split_on "."%char context [] in
        let relevant_sentences :=
          strip <$> filter (λ sentence,
                              Exists (λ word, contains (lower <$> sentence) word = true)
                                     query_words)
                           sentences in
        match relevant_sentences with
        | [] => not_found
        | _ =>
            let answer := strip (join (list_ascii_of_string ". ")
                                      (take 3 relevant_sentences)) in
            let answer :=
              if decide (last answer = Some "."%char) then answer
              else answer ++ ["."%char] in
            list_ascii_of_string "Based on the course materials: " ++ answer
        end
  end.

End Answer.

Definition _generate_answer_from_context (query context : string) : string :=
  string_of_list_ascii
    (Answer.generate_answer_from_context (list_ascii_of_string query)
                                         (list_ascii_of_string context)).

(** ** [rag_service.py]: indexing

    The two methods of [RAGService] that bring the chunks of a document
    into the chunk table and the class indexes.  The file of the
    document is read twice, by [process_document] and by
    [index_document] itself, and gives the same text both times. *)

Module Indexing.
Section Indexing.
Context `{Backend}.
Variable uuid4 : nat → string.

(** [document.assigned_classes], as class ids. *)
Definition assigned_classes (db : Session) (document_id : string) : list string :=
  omap (λ '(c, d), if decide (d = document_id ∧ is_Some (classes db !! c))
                   then Some c else None)
       (elements (class_documents db)).

(** [db.add(chunk)] *)
Definition add_chunk (db : Session) (chunk : DocumentProcessor.NewChunk) : Session :=
  {| classes := classes db; documents := documents db;
     document_chunks :=
       <[DocumentProcessor.new_chunk_id chunk := DocumentProcessor.new_chunk_row chunk]>
         (document_chunks db);
     student_access := student_access db;
     class_documents := class_documents db |}.

(** One turn of the loop over the assigned classes. *)
Definition index_in_class (embeddings : list Vec) (chunk_ids : list string)
    (acc : VectorDatabase * Persistent.DataDir) (class_id : string)
  : VectorDatabase * Persistent.DataDir :=
  let vdb := (add_embeddings acc.1 class_id embeddings chunk_ids).1 in
  (vdb, (Persistent.save_index vdb acc.2 class_id).1).

(** [index_document]; the third component is the status written to
    the document, if any. *)
Definition index_document (drawn : nat) (extracted : option (list ascii))
    (self : RAGService) (files : Persistent.DataDir) (document_id : string)
  : RAGService * Persistent.DataDir * option string * bool :=
  let '(success, drawn) :=
    DocumentProcessor.process_document uuid4 drawn extracted document_id in
  if negb success then (self, files, None, false)
  else
    match extracted with
    | None => (self, files, Some "error", false)
    | Some text_content =>
        let chunks :=
          DocumentProcessor.create_chunks DocumentProcessor.default_chunk_size
            DocumentProcessor.default_chunk_overlap uuid4 drawn text_content document_id in
        let db1 := foldl add_chunk (rag_db self) chunks in
        let self1 := {| rag_db := db1; rag_vector_db := rag_vector_db self |} in
        let chunk_texts :=
          (λ chunk, content (DocumentProcessor.new_chunk_row chunk)) <$> chunks in
        match generate_embeddings chunk_texts with
        | None => (self1, files, Some "error", false)
        | Some embeddings =>
            let chunk_ids := DocumentProcessor.new_chunk_id <$> chunks in
            let '(vdb, files1) :=
              foldl (index_in_class embeddings chunk_ids)
                    (rag_vector_db self, files)
                    (assigned_classes db1 document_id) in
            ({| rag_db := db1; rag_vector_db := vdb |}, files1, Some "ready", true)
        end
    end.

(** [reindex_document]: the embeddings of the stored chunks are removed
    from the classes the document is assigned to, the chunks deleted,
    and the document indexed again. *)
Definition reindex_document (drawn : nat) (extracted : option (list ascii))
    (self : RAGService) (files : Persistent.DataDir) (document_id : string)
  : RAGService * Persistent.DataDir * option string * bool :=
  let existing_chunks := chunks_of_document (rag_db self) document_id in
  let chunk_ids := fst <$> existing_chunks in
  let vdb :=
    foldl (λ vdb class_id,
             (remove_document_embeddings vdb class_id document_id chunk_ids).1)
          (rag_vector_db self) (assigned_classes (rag_db self) document_id) in
  let db1 := foldl (λ db chunk, delete_chunk db chunk.1) (rag_db self) existing_chunks in
  index_document drawn extracted {| rag_db := db1; rag_vector_db := vdb |}
                 files document_id.
End Indexing.
End Indexing.


(** ** Vocabulary of the properties *)

(** [l] is ordered by descending score. *)
Definition descending {A} (score : A → Q) (l : list A) : Prop :=
  StronglySorted (λ a b, (score b <= score a)%Q) l.

Section Vocabulary.
Context `{Backend}.

(** The mapping [search] reads for a class: the class's entry of
    [chunk_mappings] when the class also has an index, and nothing
    otherwise. *)
Definition visible_mapping (vdb : VectorDatabase) (class_id : string) : list string :=
  match indexes vdb !! class_id, chunk_mappings vdb !! class_id with
  | Some _, Some m => m
  | _, _ => []
  end.

(** Calls on the isolation service, and a run of such calls from a
    state; the results of the calls are dropped. *)
Inductive IsolationCall :=
| CreateClassCollection (class_id : string)
| AssignDocumentToClass (document_id class_id : string)
| RemoveDocumentFromClass (document_id class_id : string)
| BulkAssignDocuments (document_ids : list string) (class_id : string)
| MigrateClassDocuments (from_class_id to_class_id : string).

Definition call (self : ClassIsolationService) (c : IsolationCall)
  : ClassIsolationService :=
  match c with
  | CreateClassCollection class_id => (create_class_collection self class_id).1
  | AssignDocumentToClass document_id class_id =>
      (assign_document_to_class self document_id class_id).1
  | RemoveDocumentFromClass document_id class_id =>
      (remove_document_from_class self document_id class_id).1
  | BulkAssignDocuments document_ids class_id =>
      (bulk_assign_documents self document_ids class_id).1
  | MigrateClassDocuments from_class_id to_class_id =>
      (migrate_class_documents self from_class_id to_class_id).1
  end.

Definition run (self : ClassIsolationService) (calls : list IsolationCall)
  : ClassIsolationService :=
  foldl call self calls.

(** Isolation, as far as the identifiers go: whatever id a search on a
    class can read is the id of a stored chunk whose document is
    assigned to the class. *)
Definition sound (self : ClassIsolationService) : Prop :=
  ∀ class_id chunk_id,
    chunk_id ∈ visible_mapping (vector_db self) class_id →
    ∃ chunk, document_chunks (db self) !! chunk_id = Some chunk
             ∧ assigned (db self) (chunk_document_id chunk) class_id.

(** Every class with an index has a mapping, and no mapping is longer
    than its index. *)
Definition well_formed (vdb : VectorDatabase) : Prop :=
  ∀ class_id index,
    indexes vdb !! class_id = Some index →
    ∃ m, chunk_mappings vdb !! class_id = Some m ∧ length m ≤ Faiss.ntotal index.

(** Every class with an index has a mapping of the same length. *)
Definition aligned (vdb : VectorDatabase) : Prop :=
  ∀ class_id index,
    indexes vdb !! class_id = Some index →
    ∃ m, chunk_mappings vdb !! class_id = Some m ∧ length m = Faiss.ntotal index.

(** The embedding model loads, and embeds the chunks of the document
    into one vector per chunk. *)
Definition embeds_well (db : Session) (document_id : string) : Prop :=
  EmbeddingService_init = Some ()
  ∧ ∃ embeddings,
      generate_embeddings ((λ chunk, content chunk.2) <$> chunks_of_document db document_id)
      = Some embeddings
      ∧ length embeddings = length (chunks_of_document db document_id).

(** Two states of the relational store that differ at most in the
    assignments. *)
Definition same_tables (db1 db2 : Session) : Prop :=
  classes db1 = classes db2
  ∧ documents db1 = documents db2
  ∧ document_chunks db1 = document_chunks db2.

(** The service as the loop of [migrate_class_documents] leaves it
    after the documents [passed], the first ones of the source
    class. *)
Definition migration_state (self : ClassIsolationService)
    (from_class_id to_class_id : string) (passed : list string)
  : ClassIsolationService :=
  (foldl (migrate_document from_class_id to_class_id)
         (self, {| migrated := []; failed := [];
                   total := length (documents_of_class (db self) from_class_id) |})
         passed).1.

(** The filter of [_search_relevant_chunks] on one search result. *)
Definition passes (self : RAGService) (candidate : string * Q) : option RelevantChunk :=
  let '(chunk_id, similarity_score) := candidate in
  if Qle_bool similarity_threshold similarity_score
  then (λ chunk, ((chunk_id, chunk), similarity_score))
         <$> document_chunks (rag_db self) !! chunk_id
  else None.
End Vocabulary.


(** ** A concrete backend and the sample data of [tests/test_isolation.py]

    Rational vectors that are on the unit circle or zero.  The
    normalisation is the identity on the former; it turns a zero vector
    into the vector of NaNs, written as the empty list, and a product
    with that vector is NaN.  The model fails on any batch holding the
    text ["<unreadable>"]. *)

Module Fixture.

Definition dot (u v : list Q) : Q :=
  foldr Qplus 0%Q (zip_with Qmult u v).

Definition normalize (v : list Q) : list Q :=
  if forallb (Qeq_bool 0) v then [] else v.

Definition product (u v : list Q) : option Q :=
  match u, v with
  | [], _ | _, [] => None
  | _, _ => Some (dot u v)
  end.

Definition embed_text (text : string) : list Q :=
  if decide (text = "Math content") then [1%Q; 0%Q]
  else if decide (text = "Science content") then [0%Q; 1%Q]
  else [3 # 5; 4 # 5].

#[local] Instance backend : Backend := {|
  Vec := list Q;
  l2_normalize := normalize;
  inner_product := product;
  encode := λ batch,
    if decide ("<unreadable>" ∈ batch) then None else Some (embed_text <$> batch);
|}.

(** The embeddings of the chunks of [doc1] and [doc2]. *)
Definition e1 : list Q := [1%Q; 0%Q].
Definition e2 : list Q := [0%Q; 1%Q].

(** A class index holding the chunks of [doc1] and [doc2], and the same
    after the embeddings of [doc1] were removed. *)
Definition vdb_two_documents : VectorDatabase :=
  (add_embeddings (create_class_index VectorDatabase_init "class1").1
                  "class1" [e1; e2] ["chunk1"; "chunk2"]).1.

Definition vdb_after_removal : VectorDatabase :=
  (remove_document_embeddings vdb_two_documents "class1" "doc1" ["chunk1"]).1.

Definition sample_data : Session := {|
  classes := {[ "class1" := mkClass "Math 101" true;
                "class2" := mkClass "Science 101" true ]};
  documents := {[ "doc1" := mkDocument "Math Textbook" "pdf";
                  "doc2" := mkDocument "Science Textbook" "pdf";
                  "doc3" := mkDocument "Shared Resource" "pdf";
                  "doc4" := mkDocument "Scanned Notes" "pdf" ]};
  document_chunks :=
    {[ "chunk1" := mkDocumentChunk "doc1" "Math content" None None;
       "chunk2" := mkDocumentChunk "doc2" "Science content" None None;
       "chunk3" := mkDocumentChunk "doc3" "Shared content" None None;
       "chunk4" := mkDocumentChunk "doc4" "<unreadable>" None None ]};
  student_access := [ mkStudentAccess "student1" "class1" true;
                      mkStudentAccess "student2" "class2" true ];
  class_documents := ∅;
|}.

Definition service0 : ClassIsolationService := ClassIsolationService_init sample_data.

(** [service0] after [doc1] was assigned to [class1]. *)
Definition service_doc1 : ClassIsolationService :=
  (assign_document_to_class service0 "doc1" "class1").1.

(** [doc1] and [doc4] assigned to [class1]; the model embeds the chunk
    of [doc1] and fails on the chunk of [doc4]. *)
Definition service_two_documents : ClassIsolationService :=
  run service0 [ AssignDocumentToClass "doc1" "class1";
                 AssignDocumentToClass "doc4" "class1" ].

(** A query service over the sample data whose vector database holds
    no index. *)
Definition rag_empty : RAGService :=
  {| rag_db := sample_data; rag_vector_db := VectorDatabase_init |}.


(** A query service whose index of [class1] holds a chunk of [doc1]
    with a text of 201 characters. *)
Definition long_text : string := string_of_list_ascii (replicate 201 "a"%char).

Definition rag_long : RAGService :=
  {| rag_db :=
       {| classes := classes sample_data;
          documents := documents sample_data;
          document_chunks := {[ "long" := mkDocumentChunk "doc1" long_text None None ]};
          student_access := student_access sample_data;
          class_documents := {[ ("class1", "doc1") ]} |};
     rag_vector_db := (add_embeddings VectorDatabase_init "class1" [e1] ["long"]).1 |}.




(** The eight access scenarios for [student1] and [class1]: the class
    enabled or not, an access record present or not, the record enabled
    or not. *)
Definition access_scenario (class_is_enabled record_exists record_enabled : bool)
  : ClassIsolationService :=
  ClassIsolationService_init
    {| classes := {[ "class1" := mkClass "Math 101" class_is_enabled ]};
       documents := ∅;
       document_chunks := ∅;
       student_access :=
         mkStudentAccess "student2" "class1" true
         :: (if record_exists
             then [mkStudentAccess "student1" "class1" record_enabled]
             else []);
       class_documents := ∅ |}.

End Fixture.


(** ** Saved files of the sample data *)

Module Saved.

Definition empty_dir : Persistent.DataDir :=
  Persistent.mkDataDir (H := Fixture.backend) ∅ ∅.

(** The directory after the sample index of two documents was saved. *)
Definition files_two_documents : Persistent.DataDir :=
  (Persistent.save_index Fixture.vdb_two_documents empty_dir "class1").1.

(** A directory in which the mapping file of [class1] is there and
    cannot be unpickled, and the vector database [load_index] leaves
    when it reads that directory. *)
Definition files_unreadable_mapping : Persistent.DataDir :=
  Persistent.mkDataDir (H := Fixture.backend)
    {[ "class1" := [Fixture.e1] ]} {[ "class1" := None ]}.

Definition vdb_unreadable_mapping : VectorDatabase :=
  (Persistent.load_index VectorDatabase_init files_unreadable_mapping "class1").1.

(** The query service built over the sample data and that directory. *)
Definition rag_loaded : RAGService :=
  {| rag_db := Fixture.sample_data;
     rag_vector_db :=
       Persistent._load_existing_indexes Fixture.sample_data VectorDatabase_init
         files_two_documents |}.

(** A query service whose tables hold [doc1] and [doc2] assigned to
    [class1], and whose index of [class1] holds their chunks, as saved
    in [files_two_documents]. *)
Definition rag_indexed : RAGService :=
  {| rag_db :=
       {| classes := classes Fixture.sample_data;
          documents := documents Fixture.sample_data;
          document_chunks := document_chunks Fixture.sample_data;
          student_access := student_access Fixture.sample_data;
          class_documents := {[ ("class1", "doc1"); ("class1", "doc2") ]} |};
     rag_vector_db := Fixture.vdb_two_documents |}.

(** Requests as [api/isolation.py] serves them, each by a
    [ClassIsolationService] of its own over the tables and the
    directory the request before it left: [doc1] is assigned to
    [class1]; then either [doc1] is removed from [class1], or [doc2] is
    assigned to [class1] as well. *)
Definition assign_request : ClassIsolationService * Persistent.DataDir * bool :=
  Persistent.assign_document_to_class
    (ClassIsolationService_init Fixture.sample_data) empty_dir "doc1" "class1".

Definition remove_request : ClassIsolationService * Persistent.DataDir * bool :=
  Persistent.remove_document_from_class
    (ClassIsolationService_init (db assign_request.1.1)) assign_request.1.2
    "doc1" "class1".

Definition second_assign_request : ClassIsolationService * Persistent.DataDir * bool :=
  Persistent.assign_document_to_class
    (ClassIsolationService_init (db assign_request.1.1)) assign_request.1.2
    "doc2" "class1".

(** The query service [api/queries.py] builds for the query that
    follows. *)
Definition rag_after_removal : option RAGService :=
  Persistent.RAGService_init (db remove_request.1.1) remove_request.1.2.

Definition rag_after_second_assignment : option RAGService :=
  Persistent.RAGService_init (db second_assign_request.1.1) second_assign_request.1.2.

(** A text of two sentences, and ids drawn in turn. *)
Definition two_sentences : list ascii :=
  list_ascii_of_string
    "Algebra studies symbols and the rules for them. Geometry studies shapes and space.".

Definition uuid4 (k : nat) : string :=
  String "u"%char (NilEmpty.string_of_uint (Nat.to_uint k)).

(** A query service over the sample classes and documents, with [doc1]
    assigned to [class1], no chunk stored and no index. *)
Definition rag_blank : RAGService :=
  {| rag_db :=
       {| classes := classes Fixture.sample_data;
          documents := documents Fixture.sample_data;
          document_chunks := ∅;
          student_access := student_access Fixture.sample_data;
          class_documents := {[ ("class1", "doc1") ]} |};
     rag_vector_db := VectorDatabase_init (H := Fixture.backend) |}.

End Saved.

(** ** Vocabulary of the further properties *)

Section FurtherVocabulary.
Context `{Backend}.

(** The test of the second loop of [cleanup_orphaned_data]: the class
    has documents, and its index is missing or holds no vector. *)
Definition needs_rebuild (self : ClassIsolationService) (class_id : string) : Prop :=
  total_vectors (get_index_stats (vector_db self) class_id) = 0
  ∧ 0 < length (documents_of_class (db self) class_id).

#[global] Instance needs_rebuild_dec self class_id : Decision (needs_rebuild self class_id).
Proof. unfold needs_rebuild. apply _. Defined.

(** A chunk row has a parent when its [document_id] is the id of a
    stored document. *)
Definition has_parent (db : Session) (row : string * DocumentChunk) : Prop :=
  is_Some (documents db !! chunk_document_id row.2).

#[global] Instance has_parent_dec db row : Decision (has_parent db row).
Proof. unfold has_parent. apply _. Defined.

(** What [load_index] reads for a class from the directory: the index
    when both files exist, the mapping when moreover the mapping file
    holds one. *)
Definition saved_index (files : Persistent.DataDir) (class_id : string)
  : option Faiss.IndexFlatIP :=
  match Persistent.index_files files !! class_id,
        Persistent.mapping_files files !! class_id with
  | Some index, Some _ => Some index
  | _, _ => None
  end.

Definition saved_mapping (files : Persistent.DataDir) (class_id : string)
  : option (list string) :=
  match Persistent.index_files files !! class_id,
        Persistent.mapping_files files !! class_id with
  | Some _, Some (Some mapping) => Some mapping
  | _, _ => None
  end.

(** The citation [_generate_response] asks for a retained chunk, as
    the fields it passes to the constructor; none when the document of
    the chunk is not stored.  The constructor accepts it when
    [citation_is_valid] holds of it. *)
Definition citation_of (self : RAGService) (r : RelevantChunk)
  : option CitationResponse :=
  (λ document, citation_fields r.1.1 r.1.2 document r.2)
  <$> documents (rag_db self) !! chunk_document_id r.1.2.

(** The mean of a non-empty list of scores. *)
Definition mean (scores : list Q) : Q :=
  (foldr Qplus 0 scores / inject_Z (Z.of_nat (length scores)))%Q.
End FurtherVocabulary.

(** Isolation for a query service, as far as the identifiers go:
    whatever id a search on a class can read is the id of a stored
    chunk whose document is assigned to the class. *)
Definition rag_sound `{Backend} (self : RAGService) : Prop :=
  ∀ class_id chunk_id,
    chunk_id ∈ visible_mapping (rag_vector_db self) class_id →
    ∃ chunk, document_chunks (rag_db self) !! chunk_id = Some chunk
             ∧ assigned (rag_db self) (chunk_document_id chunk) class_id.

(** The chunks [index_document] stores for a text: those of its own
    call of [_create_chunks], made after [process_document] drew the
    ids of the chunks it dropped. *)
Definition indexed_chunks (uuid4 : nat → string) (drawn : nat)
    (text_content : list ascii) (document_id : string)
  : list DocumentProcessor.NewChunk :=
  DocumentProcessor.create_chunks DocumentProcessor.default_chunk_size
    DocumentProcessor.default_chunk_overlap uuid4
    (drawn + length (DocumentProcessor.create_chunks
                       DocumentProcessor.default_chunk_size
                       DocumentProcessor.default_chunk_overlap uuid4 drawn
                       text_content document_id))
    text_content document_id.

(** Whitespace, and texts without whitespace at either end. *)
Definition whitespace (c : ascii) : Prop := DocumentProcessor.isspace c = true.

Definition stripped (s : list ascii) : Prop :=
  (∀ c, head s = Some c → ¬ whitespace c) ∧ (∀ c, last s = Some c → ¬ whitespace c).

(** A word: a non-empty text without whitespace. *)
Definition is_a_word (w : list ascii) : Prop :=
  w ≠ [] ∧ Forall (λ c, ¬ whitespace c) w.

(** [x in s] for two texts: [x] occurs in [s] as a run of consecutive
    characters. *)
Definition occurs_in (x s : list ascii) : Prop := ∃ p q, s = p ++ x ++ q.

(** The text of a new chunk. *)
Definition chunk_text (chunk : DocumentProcessor.NewChunk) : list ascii :=
  list_ascii_of_string (content (DocumentProcessor.new_chunk_row chunk)).

(** The chunk at position [k] of a call of [_create_chunks] is made as
    [_create_chunk] makes it: numbered [k], named by the id drawn for
    it, holding a text that is not empty and has no whitespace at
    either end, with the token estimate, the page and the section of
    that text. *)
Definition well_made (uuid4 : nat → string) (drawn : nat) (document_id : string)
    (k : nat) (chunk : DocumentProcessor.NewChunk) : Prop :=
  DocumentProcessor.chunk_index chunk = k
  ∧ DocumentProcessor.new_chunk_id chunk = uuid4 (drawn + k)
  ∧ chunk_document_id (DocumentProcessor.new_chunk_row chunk) = document_id
  ∧ chunk_text chunk ≠ []
  ∧ stripped (chunk_text chunk)
  ∧ DocumentProcessor.token_count chunk = length (chunk_text chunk) `div` 4
  ∧ page_number (DocumentProcessor.new_chunk_row chunk)
    = DocumentProcessor.extract_page_number (chunk_text chunk)
  ∧ section (DocumentProcessor.new_chunk_row chunk)
    = string_of_list_ascii <$> DocumentProcessor.extract_section (chunk_text chunk).

(** What the loop of [_create_chunks] keeps, after the sentences
    [processed]. *)
Definition chunking_invariant (uuid4 : nat → string) (drawn : nat) (document_id : string)
    (processed : list (list ascii))
    (state : list DocumentProcessor.NewChunk * list ascii * nat * nat) : Prop :=
  let '(chunks, current_chunk, current_tokens, chunk_index) := state in
  length chunks = chunk_index
  ∧ (∀ k chunk, chunks !! k = Some chunk → well_made uuid4 drawn document_id k chunk)
  ∧ (current_chunk = [] ∨ DocumentProcessor.strip current_chunk ≠ [])
  ∧ (∀ s, s ∈ processed →
          (∃ chunk, chunk ∈ chunks ∧ occurs_in s (chunk_text chunk))
          ∨ occurs_in s current_chunk)
  ∧ chunk_index + (if decide (current_chunk = []) then 0 else 1) ≤ length processed
  ∧ (chunk_index = 0 →
     current_tokens = sum_list_with DocumentProcessor.estimate_tokens processed).


(** * Properties *)

(** ** Lists *)

Lemma elem_of_rev_1 {A} (x : A) (l : list A) : x ∈ rev l → x ∈ l.
Proof. rewrite !list_elem_of_In. apply in_rev. Qed.

Lemma omap_ext_elem {A B} (f g : A → option B) (l : list A) :
  (∀ x, x ∈ l → f x = g x) → omap f l = omap g l.
Proof.
  induction l as [|x l IH]; intros Hfg; csimpl; [done|].
  rewrite (Hfg x) by constructor.
  rewrite IH; [done|]. intros y Hy. apply Hfg. by constructor.
Qed.

Lemma omap_length_le {A B} (f : A → option B) (l : list A) :
  length (omap f l) ≤ length l.
Proof.
  induction l as [|x l IH]; csimpl; [done|].
  destruct (f x); simpl; lia.
Qed.

Lemma filter_all {A} (P : A → Prop) `{!∀ x, Decision (P x)} (l : list A) :
  Forall P l → filter P l = l.
Proof.
  induction 1 as [|x l Hx Hl IH]; [done|].
  rewrite filter_cons, decide_True by done. by rewrite IH.
Qed.

(** A property of the first component of a loop's accumulator that
    every turn preserves holds after the loop. *)
Lemma foldl_state_invariant {S R X} (P : S → Prop) (step : S * R → X → S * R)
    (l : list X) (acc : S * R) :
  (∀ acc x, x ∈ l → P acc.1 → P (step acc x).1) →
  P acc.1 → P (foldl step acc l).1.
Proof.
  revert acc. induction l as [|x l IH]; intros acc Hstep HP; [done|].
  simpl. apply IH.
  - intros acc' y Hy. apply Hstep. by constructor.
  - apply Hstep; [constructor|done].
Qed.

(** ** The stable descending sort *)

Section SortDesc.
Context {A : Type} (score : A → Q).

Lemma insert_desc_perm x l : Py.insert_desc score x l ≡ₚ x :: l.
Proof.
  induction l as [|y l IH]; simpl; [done|].
  destruct (Qle_bool (score y) (score x)); [done|].
  rewrite IH. apply Permutation_swap.
Qed.

Lemma sort_desc_perm l : Py.sort_desc score l ≡ₚ l.
Proof.
  induction l as [|x l IH]; simpl; [done|].
  rewrite insert_desc_perm. by rewrite IH.
Qed.

Lemma sort_desc_length l : length (Py.sort_desc score l) = length l.
Proof. apply Permutation_length, sort_desc_perm. Qed.

Lemma sort_desc_elem x l : x ∈ Py.sort_desc score l ↔ x ∈ l.
Proof. by rewrite sort_desc_perm. Qed.

Lemma insert_desc_sorted x l :
  descending score l → descending score (Py.insert_desc score x l).
Proof.
  unfold descending. induction 1 as [|y l Hl IH Hy]; simpl.
  - repeat constructor.
  - destruct (Qle_bool (score y) (score x)) eqn:Hle.
    + apply Qle_bool_iff in Hle.
      constructor; [by constructor|].
      constructor; [done|].
      eapply Forall_impl; [exact Hy|]. simpl. intros z Hz.
      by eapply Qle_trans.
    + constructor; [done|].
      assert (score x <= score y)%Q as Hxy.
      { apply Qlt_le_weak, Qnot_le_lt. intros Hc.
        apply Qle_bool_iff in Hc. congruence. }
      rewrite (insert_desc_perm x l). by constructor.
Qed.

Lemma sort_desc_sorted l : descending score (Py.sort_desc score l).
Proof.
  induction l as [|x l IH]; simpl; [constructor|]. by apply insert_desc_sorted.
Qed.


Lemma descending_take l n : descending score l → descending score (take n l).
Proof.
  unfold descending. intros Hl. revert n.
  induction Hl as [|z l Hl IH Hz]; intros [|n]; simpl; try constructor.
  - apply IH.
  - eapply Forall_forall. intros y Hy. rewrite Forall_forall in Hz.
    apply Hz. by eapply subseteq_take.
Qed.
End SortDesc.

(** Equal keys keep their order, as in Python's [sort] with
    [reverse=True]. *)
Example sort_desc_stable :
  Py.sort_desc snd [("a", 1%Q); ("b", 2%Q); ("c", 1%Q); ("d", 2%Q)]
  = [("b", 2%Q); ("d", 2%Q); ("a", 1%Q); ("c", 1%Q)].
Proof. reflexivity. Qed.

(** ** The flat index *)

Lemma descending_app {A} (score : A → Q) (l1 l2 : list A) :
  descending score l1 → descending score l2 →
  (∀ x1 x2, x1 ∈ l1 → x2 ∈ l2 → (score x2 <= score x1)%Q) →
  descending score (l1 ++ l2).
Proof.
  unfold descending. intros Hl1 Hl2 Hcross.
  induction Hl1 as [|x l1 Hl1 IH Hall]; [done|]. simpl.
  constructor.
  - apply IH. intros x1 x2 Hx1 Hx2. apply Hcross; [by constructor|done].
  - apply Forall_app. split; [done|]. apply Forall_forall.
    intros x2 Hx2. apply Hcross; [constructor|done].
Qed.

(** A list ordered worst first reads best first from its end. *)
Definition ascending {A} (score : A → Q) (l : list A) : Prop :=
  StronglySorted (λ a b, (score a <= score b)%Q) l.

Lemma ascending_rev {A} (score : A → Q) (l : list A) :
  ascending score l → descending score (rev l).
Proof.
  induction 1 as [|x l Hl IH Hall]; simpl; [constructor|].
  apply descending_app; [done|repeat constructor|].
  intros x1 x2 Hx1%elem_of_rev_1 ->%list_elem_of_singleton.
  rewrite Forall_forall in Hall. by apply Hall.
Qed.

Lemma place_perm (x : Q * Z) (slots : list (Q * Z)) :
  Faiss.place x slots ≡ₚ x :: slots.
Proof.
  induction slots as [|y slots IH]; simpl; [done|].
  destruct (Faiss.above y x); [done|]. rewrite IH. apply perm_swap.
Qed.

Lemma place_ascending (x : Q * Z) (slots : list (Q * Z)) :
  ascending fst slots → ascending fst (Faiss.place x slots).
Proof.
  induction 1 as [|y slots Hs IH Hall]; simpl; [repeat constructor|].
  destruct (Faiss.above y x) eqn:Habove.
  - assert (x.1 <= y.1)%Q as Hxy.
    { unfold Faiss.above in Habove.
      apply orb_true_iff in Habove as [Hlt|[Heq _]%andb_true_iff].
      - apply negb_true_iff in Hlt. apply Qlt_le_weak, Qnot_le_lt.
        intros Hc. apply Qle_bool_iff in Hc. congruence.
      - apply Qeq_bool_iff in Heq. rewrite Heq. apply Qle_refl. }
    constructor; [by constructor|].
    constructor; [done|]. eapply Forall_impl; [exact Hall|].
    intros z Hz. simpl in *. by eapply Qle_trans.
  - assert (y.1 <= x.1)%Q as Hyx.
    { unfold Faiss.above in Habove.
      apply orb_false_iff in Habove as [Hle _].
      apply negb_false_iff in Hle. by apply Qle_bool_iff. }
    constructor; [done|]. rewrite place_perm. by constructor.
Qed.

Section FaissProperties.
Context `{Backend}.

(** The stored vectors that can enter a slot, as the hits they would
    make. *)
Definition entrants (q : Vec) (entries : list (nat * Vec)) : list (Q * Z) :=
  omap (λ entry,
          score ← inner_product q entry.2;
          if Qle_bool score Faiss.lowest then None
          else Some (score, Z.of_nat entry.1))
       entries.

(** What the slots hold after the vectors [entries] were offered: they
    are ordered worst first, and each is unfilled or one of the
    entrants. *)
Definition kept (q : Vec) (entries : list (nat * Vec)) (slots : list (Q * Z)) : Prop :=
  ascending fst slots
  ∧ ∃ entered u, slots ≡ₚ entered ++ replicate u Faiss.unfilled
                 ∧ entered ⊆+ entrants q entries.

Lemma entrants_scores q entries hit :
  hit ∈ entrants q entries → (Faiss.lowest < hit.1)%Q.
Proof.
  intros (entry & _ & Hf)%list_elem_of_omap.
  destruct (inner_product q entry.2) as [score|]; [|done]. simpl in Hf.
  destruct (Qle_bool score Faiss.lowest) eqn:Hle; [done|].
  injection Hf as <-. simpl. apply Qnot_le_lt. intros Hc.
  apply Qle_bool_iff in Hc. congruence.
Qed.

Lemma entrants_labels q (index : list Vec) :
  (entrants q (imap pair index)).*2 `sublist_of` (Z.of_nat <$> seq 0 (length index)).
Proof.
  unfold entrants.
  assert (∀ (l : list Vec) (n : nat),
            (omap (λ entry : nat * Vec,
                     score ← inner_product q entry.2;
                     if Qle_bool score Faiss.lowest then None
                     else Some (score, Z.of_nat entry.1))
                  (imap (λ i v, (n + i, v)) l)).*2
            `sublist_of` (Z.of_nat <$> seq n (length l))) as Hgen.
  { intros l. induction l as [|v l IH]; intros n; csimpl; [constructor|].
    rewrite Nat.add_0_r.
    assert (imap ((λ i v0, (n + i, v0)) ∘ S) l = imap (λ i v0, (S n + i, v0)) l) as ->.
    { apply imap_ext. intros i x _. simpl. f_equal. lia. }
    destruct (inner_product q v) as [score|]; csimpl.
    - destruct (Qle_bool score Faiss.lowest); csimpl.
      + apply sublist_cons. exact (IH (S n)).
      + apply sublist_skip. exact (IH (S n)).
    - apply sublist_cons. exact (IH (S n)). }
  apply (Hgen index 0).
Qed.

Lemma offer_length q slots entry :
  length (Faiss.offer q slots entry) = length slots.
Proof.
  unfold Faiss.offer. destruct (inner_product q entry.2) as [score|]; [|done].
  destruct slots as [|worst slots]; [done|].
  destruct (Qle_bool score worst.1); [done|].
  by rewrite place_perm.
Qed.

Lemma offer_kept q entries slots entry :
  kept q entries slots → kept q (entries ++ [entry]) (Faiss.offer q slots entry).
Proof.
  intros (Hasc & entered & u & Hperm & Hsub).
  assert (entrants q entries ⊆+ entrants q (entries ++ [entry])) as Hmore.
  { unfold entrants. rewrite omap_app. by apply submseteq_inserts_r. }
  unfold Faiss.offer.
  destruct (inner_product q entry.2) as [score|] eqn:Hscore;
    [|split; [done|]; exists entered, u; split; [done|by etrans]].
  destruct slots as [|worst slots];
    [split; [done|]; exists entered, u; split; [done|by etrans]|].
  destruct (Qle_bool score worst.1) eqn:Hle;
    [split; [done|]; exists entered, u; split; [done|by etrans]|].
  assert (Faiss.lowest <= worst.1)%Q as Hworst.
  { assert (worst ∈ entered ++ replicate u Faiss.unfilled) as Hin
      by (rewrite <- Hperm; constructor).
    apply elem_of_app in Hin as [Hin|[-> _]%elem_of_replicate]; [|apply Qle_refl].
    apply Qlt_le_weak, (entrants_scores q entries).
    by apply (elem_of_submseteq _ _ _ Hin). }
  assert (entrants q (entries ++ [entry])
          = entrants q entries ++ [(score, Z.of_nat entry.1)]) as Hnew.
  { unfold entrants. rewrite omap_app. csimpl. rewrite Hscore. csimpl.
    destruct (Qle_bool score Faiss.lowest) eqn:Hlow; [|done].
    apply Qle_bool_iff in Hlow.
    assert (score <= worst.1)%Q as Hc by (by eapply Qle_trans).
    apply Qle_bool_iff in Hc. congruence. }
  split.
  { apply place_ascending. by apply StronglySorted_inv in Hasc as [? _]. }
  assert (worst ∈ entered ++ replicate u Faiss.unfilled) as Hin
    by (rewrite <- Hperm; constructor).
  apply elem_of_app in Hin as [Hin|[-> Hu]%elem_of_replicate].
  - apply elem_of_Permutation in Hin as [entered' Hentered].
    exists ((score, Z.of_nat entry.1) :: entered'), u. split.
    + rewrite place_perm. simpl. f_equiv.
      rewrite Hentered in Hperm. simpl in Hperm.
      by apply Permutation_cons_inv in Hperm.
    + rewrite Hnew. rewrite (Permutation_app_comm (entrants q entries)). simpl.
      apply submseteq_skip. etrans; [|exact Hsub].
      rewrite Hentered. by apply submseteq_cons.
  - destruct u as [|u]; [done|].
    exists ((score, Z.of_nat entry.1) :: entered), u. split.
    + rewrite place_perm. simpl. f_equiv.
      simpl in Hperm. rewrite <- Permutation_middle in Hperm.
      by apply Permutation_cons_inv in Hperm.
    + rewrite Hnew. rewrite (Permutation_app_comm (entrants q entries)). simpl.
      by apply submseteq_skip.
Qed.

Lemma offers_kept q offered entries slots :
  kept q offered slots →
  kept q (offered ++ entries) (foldl (Faiss.offer q) slots entries).
Proof.
  revert offered slots. induction entries as [|entry entries IH];
    intros offered slots Hkept; simpl.
  - by rewrite app_nil_r.
  - replace (offered ++ entry :: entries) with ((offered ++ [entry]) ++ entries)
      by (by rewrite <- app_assoc).
    by apply IH, offer_kept.
Qed.

(** The slots of a search, before they are turned best first. *)
Lemma search_kept index q k :
  kept q (imap pair index)
    (foldl (Faiss.offer q) (replicate k Faiss.unfilled) (imap pair index)).
Proof.
  apply (offers_kept q []). split.
  - induction k as [|k IH]; simpl; [constructor|].
    constructor; [done|]. apply Forall_forall.
    intros x [-> _]%elem_of_replicate. apply Qle_refl.
  - exists [], k. split; [done|]. apply submseteq_nil_l.
Qed.

Lemma faiss_search_length index q k : length (Faiss.search index q k) = k.
Proof.
  unfold Faiss.search. rewrite length_rev.
  generalize (length_replicate k Faiss.unfilled).
  generalize (replicate k Faiss.unfilled).
  induction (imap pair index) as [|entry entries IH]; intros slots Hlen; simpl;
    [done|].
  apply IH. by rewrite offer_length.
Qed.

Lemma faiss_search_descending index q k :
  descending fst (Faiss.search index q k).
Proof. apply ascending_rev, search_kept. Qed.

(** A hit is an unfilled slot or carries the position of a stored
    vector. *)
Lemma faiss_search_label index q k hit :
  hit ∈ Faiss.search index q k →
  hit = Faiss.unfilled ∨ ∃ i, hit.2 = Z.of_nat i ∧ i < Faiss.ntotal index.
Proof.
  unfold Faiss.search. intros Hin%elem_of_rev_1.
  destruct (search_kept index q k) as (_ & entered & u & Hperm & Hsub).
  rewrite Hperm in Hin.
  apply elem_of_app in Hin as [Hin|[-> _]%elem_of_replicate]; [|by left].
  right. assert (hit.2 ∈ (entrants q (imap pair index)).*2) as Hl.
  { apply list_elem_of_fmap_2. by apply (elem_of_submseteq _ _ _ Hin). }
  apply (λ Hl, elem_of_sublist _ _ _ Hl (entrants_labels q index)) in Hl.
  apply list_elem_of_fmap in Hl as (i & -> & Hi%elem_of_seq).
  exists i. unfold Faiss.ntotal. split; [done|lia].
Qed.

(** When no slot of a search for at least [ntotal] neighbours is left
    unfilled, the hits carry every position exactly once. *)
Lemma faiss_search_all index q (k : nat) :
  (Faiss.ntotal index ≤ k)%nat →
  Forall (λ hit, (0 ≤ hit.2)%Z) (Faiss.search index q k) →
  k = Faiss.ntotal index
  ∧ (Faiss.search index q k).*2 ≡ₚ Z.of_nat <$> seq 0 (Faiss.ntotal index).
Proof.
  intros Hk Hfilled.
  pose proof (faiss_search_length index q k) as Hlen.
  unfold Faiss.search in *. rewrite length_rev in Hlen.
  destruct (search_kept index q k) as (_ & entered & u & Hperm & Hsub).
  apply Forall_rev in Hfilled. rewrite rev_involutive in Hfilled.
  rewrite Hperm in Hfilled, Hlen.
  apply Forall_app in Hfilled as [_ Hpad].
  destruct u as [|u]; [|apply Forall_cons in Hpad as [Hneg _]; simpl in Hneg; lia].
  simpl in Hperm, Hlen. rewrite app_nil_r in Hperm, Hlen.
  pose proof (sublist_length _ _ (entrants_labels q index)) as Hlabels.
  rewrite !length_fmap, length_seq in Hlabels.
  pose proof (submseteq_length _ _ Hsub) as Hentered.
  unfold Faiss.ntotal in *.
  split; [lia|].
  rewrite <- (Permutation_rev (foldl _ _ _)), Hperm.
  rewrite (submseteq_length_Permutation _ _ Hsub) by lia.
  apply submseteq_length_Permutation.
  - apply sublist_submseteq, entrants_labels.
  - rewrite !length_fmap, length_seq. lia.
Qed.
End FaissProperties.

(** ** [VectorDatabase] *)

Lemma getitem_elem_of {A} (l : list A) (i : Z) (x : A) :
  Py.getitem l i = Some x → x ∈ l.
Proof.
  unfold Py.getitem. repeat case_decide; [| |done];
    intros Hx; by eapply list_elem_of_lookup_2.
Qed.

Lemma getitem_position {A} (l : list A) (i : nat) :
  Py.getitem l (Z.of_nat i) = l !! i.
Proof.
  unfold Py.getitem. rewrite decide_True by lia. by rewrite Nat2Z.id.
Qed.

Section VectorDatabaseProperties.
Context `{Backend}.

(** What the loop of [search] returns, when it raises nothing. *)
Lemma translate_hits_elem_of chunk_mapping hits results chunk_id score :
  translate_hits chunk_mapping hits = Some results →
  (chunk_id, score) ∈ results ↔
  ∃ idx, (score, idx) ∈ hits
         ∧ (idx < Z.of_nat (length chunk_mapping))%Z
         ∧ Py.getitem chunk_mapping idx = Some chunk_id.
Proof.
  revert results. induction hits as [|[s i] hits IH]; intros results; simpl.
  - intros [= <-]. split; [by intros ?%elem_of_nil|].
    by intros (idx & ?%elem_of_nil & _).
  - case_decide as Hlt.
    + destruct (Py.getitem chunk_mapping i) as [x|] eqn:Hx; [|done]. simpl.
      destruct (translate_hits chunk_mapping hits) as [rest|]; [|done]. simpl.
      intros [= <-]. rewrite elem_of_cons, (IH rest) by done. split.
      * intros [[= -> ->]|(idx & Hin & ? & ?)].
        -- exists i. split; [constructor|done].
        -- exists idx. split; [by constructor|done].
      * intros (idx & [[= -> ->]|Hin]%elem_of_cons & Hidx & Hget).
        -- left. congruence.
        -- right. eauto.
    + intros Hrest. rewrite (IH results) by done. split.
      * intros (idx & Hin & ? & ?). exists idx. split; [by constructor|done].
      * intros (idx & [[= -> ->]|Hin]%elem_of_cons & Hidx & Hget); [done|eauto].
Qed.

Lemma translate_hits_length chunk_mapping hits results :
  translate_hits chunk_mapping hits = Some results →
  length results
  = length (filter (λ hit, (hit.2 < Z.of_nat (length chunk_mapping))%Z) hits).
Proof.
  revert results. induction hits as [|[s i] hits IH]; intros results; simpl.
  - by intros [= <-].
  - rewrite filter_cons. simpl. case_decide as Hlt.
    + destruct (Py.getitem chunk_mapping i) as [x|]; [|done]. simpl.
      destruct (translate_hits chunk_mapping hits) as [rest|]; [|done]. simpl.
      intros [= <-]. simpl. by rewrite (IH rest).
    + apply IH.
Qed.

(** A hit whose label is not below the length of the mapping leaves no
    trace: the loop goes on as if the hit were not there. *)
Lemma translate_hits_skip chunk_mapping before score idx after :
  (Z.of_nat (length chunk_mapping) ≤ idx)%Z →
  translate_hits chunk_mapping (before ++ (score, idx) :: after)
  = translate_hits chunk_mapping (before ++ after).
Proof.
  intros Hge. induction before as [|[s i] before IH]; simpl.
  - by rewrite decide_False by lia.
  - by rewrite IH.
Qed.

(** Hits that carry positions raise nothing. *)
Lemma translate_hits_positions chunk_mapping hits :
  Forall (λ hit, (0 ≤ hit.2)%Z) hits →
  translate_hits chunk_mapping hits
  = Some (omap (λ '(score, idx),
                  (λ chunk_id, (chunk_id, score)) <$> chunk_mapping !! Z.to_nat idx)
               hits).
Proof.
  induction 1 as [|[s i] hits Hi _ IH]; simpl; [done|]. simpl in Hi.
  rewrite IH. csimpl. case_decide as Hlt.
  - unfold Py.getitem. rewrite decide_True by done.
    destruct (lookup_lt_is_Some_2 chunk_mapping (Z.to_nat i)) as [x ->]; [lia|].
    done.
  - rewrite lookup_ge_None_2 by lia. done.
Qed.

Lemma translate_hits_descending chunk_mapping hits results :
  descending fst hits →
  translate_hits chunk_mapping hits = Some results →
  descending snd results.
Proof.
  unfold descending. intros Hhits. revert results.
  induction Hhits as [|[s i] hits Hs IH Hall]; intros results; simpl.
  - intros [= <-]. constructor.
  - case_decide as Hlt; [|apply IH].
    destruct (Py.getitem chunk_mapping i) as [x|]; [|done]. simpl.
    destruct (translate_hits chunk_mapping hits) as [rest|] eqn:Hrest; [|done]. simpl.
    intros [= <-]. constructor; [by apply IH|].
    apply Forall_forall. intros [id' s'] Hin.
    apply (translate_hits_elem_of _ _ _ _ _ Hrest) in Hin as (idx & Hin & _).
    rewrite Forall_forall in Hall. by apply (Hall (s', idx)).
Qed.

Lemma search_unfold vdb class_id q k index chunk_mapping :
  indexes vdb !! class_id = Some index →
  chunk_mappings vdb !! class_id = Some chunk_mapping →
  search vdb class_id q k
  = default [] (translate_hits chunk_mapping
                  (Faiss.search index (l2_normalize q) (k `min` Faiss.ntotal index))).
Proof.
  intros Hi Hm. unfold search. rewrite Hi, Hm.
  case_decide as Hn; [|done].
  destruct index; [|done]. unfold Faiss.search. simpl. by rewrite Nat.min_0_r.
Qed.

Lemma search_length_le vdb class_id q k :
  length (search vdb class_id q k) ≤ k.
Proof.
  destruct (indexes vdb !! class_id) as [index|] eqn:Hi;
    [|unfold search; rewrite Hi; simpl; lia].
  destruct (chunk_mappings vdb !! class_id) as [m|] eqn:Hm;
    [|unfold search; rewrite Hi, Hm; simpl; lia].
  rewrite (search_unfold _ _ _ _ _ _ Hi Hm).
  destruct (translate_hits m _) as [results|] eqn:Hr; [|simpl; lia].
  simpl. rewrite (translate_hits_length _ _ _ Hr).
  etrans; [apply length_filter|]. rewrite faiss_search_length. lia.
Qed.

(** The list comprehension of [remove_document_embeddings] over the
    enumerated mapping is a filter on chunk ids. *)
Lemma omap_enumerate_filter {A B} (P : A → Prop) `{!∀ x, Decision (P x)}
    (h : nat → A → B * A) (l : list A) :
  (∀ i x, (h i x).2 = x) →
  omap (λ p, if decide (P p.2) then Some p.2 else None) (imap h l) = filter P l.
Proof.
  intros Hh. revert h Hh. induction l as [|x l IH]; intros h Hh; simpl; [done|].
  rewrite filter_cons, Hh. rewrite IH by (intros; apply Hh).
  by case_decide.
Qed.

Lemma removed_positions_spec (chunk_ids current_mapping : list string) i chunk_id :
  current_mapping !! i = Some chunk_id →
  i ∈ (list_to_set
         (omap (λ '(i, chunk_id),
                  if decide (chunk_id ∈ chunk_ids) then Some i else None)
               (imap pair current_mapping)) : gset nat)
  ↔ chunk_id ∈ chunk_ids.
Proof.
  intros Hi. rewrite elem_of_list_to_set, list_elem_of_omap. split.
  - intros ([j x] & Hjx & Hf).
    apply elem_of_lookup_imap in Hjx as (j' & x' & Heq & Hj).
    inversion Heq; subst. case_decide; [|done]. by simplify_eq.
  - intros Hin. exists (i, chunk_id). split.
    + by apply elem_of_lookup_imap_2 with (f := pair).
    + by rewrite decide_True.
Qed.

Lemma rebuilt_mapping_filter (chunk_ids current_mapping : list string) :
  let indices_to_remove : gset nat :=
    list_to_set
      (omap (λ '(i, chunk_id), if decide (chunk_id ∈ chunk_ids) then Some i else None)
            (imap pair current_mapping)) in
  omap (λ '(i, chunk_id),
          if decide (i ∉ indices_to_remove) then Some chunk_id else None)
       (imap pair current_mapping)
  = filter (λ chunk_id, chunk_id ∉ chunk_ids) current_mapping.
Proof.
  intros S.
  rewrite <- (omap_enumerate_filter (λ x, x ∉ chunk_ids) pair) by done.
  apply omap_ext_elem.
  intros [i x] Hix. apply elem_of_lookup_imap in Hix as (j & y & Heq & Hj).
  inversion Heq; subst. simpl.
  pose proof (removed_positions_spec chunk_ids _ _ _ Hj) as Hspec.
  fold S in Hspec. repeat case_decide; tauto.
Qed.

Lemma nothing_to_remove_filter (chunk_ids current_mapping : list string) :
  (list_to_set
     (omap (λ '(i, chunk_id), if decide (chunk_id ∈ chunk_ids) then Some i else None)
           (imap pair current_mapping)) : gset nat) = ∅ →
  filter (λ chunk_id, chunk_id ∉ chunk_ids) current_mapping = current_mapping.
Proof.
  intros Hempty. apply filter_all, Forall_forall. intros x Hx Hin.
  apply list_elem_of_lookup in Hx as [i Hi].
  apply (removed_positions_spec chunk_ids _ _ _ Hi) in Hin.
  rewrite Hempty in Hin. by apply not_elem_of_empty in Hin.
Qed.

(** What [remove_document_embeddings] does to a class that has both an
    index and a mapping. *)
Lemma remove_document_embeddings_spec vdb class_id document_id chunk_ids index m :
  indexes vdb !! class_id = Some index →
  chunk_mappings vdb !! class_id = Some m →
  remove_document_embeddings vdb class_id document_id chunk_ids
  = ({| indexes := indexes vdb;
        chunk_mappings :=
          <[class_id := filter (λ chunk_id, chunk_id ∉ chunk_ids) m]>
            (chunk_mappings vdb) |}, true).
Proof.
  intros Hi Hm. unfold remove_document_embeddings. rewrite Hi, Hm.
  case_decide as Hempty.
  - rewrite (nothing_to_remove_filter _ _ Hempty).
    rewrite insert_id by done. by destruct vdb.
  - by rewrite rebuilt_mapping_filter.
Qed.
End VectorDatabaseProperties.

Lemma filter_fmap_length {A B} (f : A → B) (P : B → Prop) `{!∀ y, Decision (P y)}
    (l : list A) :
  length (filter (λ x, P (f x)) l) = length (filter P (f <$> l)).
Proof.
  induction l as [|x l IH]; [done|].
  rewrite fmap_cons, !filter_cons. case_decide; simpl; by rewrite IH.
Qed.

Lemma filter_lt_seq_length a n :
  length (filter (λ i, i < a) (seq 0 n)) = a `min` n.
Proof.
  induction n as [|n IH]; [simpl; lia|].
  rewrite seq_S, filter_app, length_app, IH. simpl.
  rewrite filter_cons, filter_nil. case_decide; simpl; lia.
Qed.

(** ** Claims about [VectorDatabase] *)

(** C4, as the code has it.  For a class that has an index and a
    mapping, [remove_document_embeddings] returns success; the class's
    mapping becomes the prior entries whose chunk id is not among the
    given ids, in their prior order; the FAISS indexes, and with them
    the vector count [total_vectors], are what they were; the mappings
    of the other classes are untouched. *)
Theorem remove_document_embeddings_keeps_vectors `{Backend}
    (vdb : VectorDatabase) (class_id document_id : string) (chunk_ids : list string)
    (index : list Vec) (m : list string) :
  indexes vdb !! class_id = Some index →
  chunk_mappings vdb !! class_id = Some m →
  (remove_document_embeddings vdb class_id document_id chunk_ids).2 = true
  ∧ chunk_mappings (remove_document_embeddings vdb class_id document_id chunk_ids).1
      !! class_id
    = Some (filter (λ chunk_id, chunk_id ∉ chunk_ids) m)
  ∧ filter (λ chunk_id, chunk_id ∉ chunk_ids) m `sublist_of` m
  ∧ indexes (remove_document_embeddings vdb class_id document_id chunk_ids).1
    = indexes vdb
  ∧ total_vectors
      (get_index_stats
         (remove_document_embeddings vdb class_id document_id chunk_ids).1 class_id)
    = Faiss.ntotal index
  ∧ (∀ other, other ≠ class_id →
       chunk_mappings (remove_document_embeddings vdb class_id document_id chunk_ids).1
         !! other
       = chunk_mappings vdb !! other).
Proof.
  intros Hi Hm.
  rewrite (remove_document_embeddings_spec _ _ _ _ _ _ Hi Hm). simpl.
  repeat split.
  - apply lookup_insert_eq.
  - apply sublist_filter.
  - unfold get_index_stats. simpl. by rewrite Hi.
  - intros other Hne. by apply lookup_insert_ne.
Qed.

(** C4 at the sample index: removing [chunk1] leaves [chunk2] in the
    mapping and two vectors in the index. *)
Lemma remove_document_embeddings_keeps_vectors_witness :
  indexes Fixture.vdb_two_documents !! "class1" = Some [Fixture.e1; Fixture.e2]
  ∧ chunk_mappings Fixture.vdb_two_documents !! "class1" = Some ["chunk1"; "chunk2"]
  ∧ chunk_mappings Fixture.vdb_after_removal !! "class1" = Some ["chunk2"]
  ∧ total_vectors (get_index_stats Fixture.vdb_after_removal "class1") = 2.
Proof.
  assert (indexes Fixture.vdb_two_documents !! "class1"
          = Some [Fixture.e1; Fixture.e2]) as Hi by (vm_compute; reflexivity).
  assert (chunk_mappings Fixture.vdb_two_documents !! "class1"
          = Some ["chunk1"; "chunk2"]) as Hm by (vm_compute; reflexivity).
  destruct (remove_document_embeddings_keeps_vectors
              Fixture.vdb_two_documents "class1" "doc1" ["chunk1"] _ _ Hi Hm)
    as (_ & Hmap & _ & _ & Hn & _).
  split; [exact Hi|]. split; [exact Hm|]. split; [exact Hmap | exact Hn].
Defined.

(** C4, where the claim as stated fails.  [load_index] puts the index
    of [class1] in place and then fails to unpickle the mapping file:
    the class has an index and no mapping.  On that state
    [remove_document_embeddings] returns failure, and changes
    nothing. *)
Lemma remove_document_embeddings_without_mapping :
  Persistent.load_index VectorDatabase_init Saved.files_unreadable_mapping "class1"
  = (Saved.vdb_unreadable_mapping, false)
  ∧ indexes Saved.vdb_unreadable_mapping !! "class1" = Some [Fixture.e1]
  ∧ chunk_mappings Saved.vdb_unreadable_mapping !! "class1" = None
  ∧ remove_document_embeddings Saved.vdb_unreadable_mapping "class1" "doc1" ["chunk1"]
    = (Saved.vdb_unreadable_mapping, false).
Proof.
  split; [vm_compute; reflexivity|]. split; [vm_compute; reflexivity|].
  split; vm_compute; reflexivity.
Qed.

(** C10.  [search] is total: on a class that has an index and a mapping
    it returns what its loop makes of the raw hits, and the empty list
    when the loop raises.  Whatever the raw hits are, a hit whose label
    is at or beyond the mapping's length is skipped: the loop returns
    what it returns without that hit, so that nothing is raised and
    nothing is appended for it; the pairs returned are those of the
    hits whose label is below the length of the mapping, one for each.
    So a search returns at most [min k ntotal] pairs, and once the
    mapping is shorter than the index, the search reaches every vector
    and every slot is filled, it returns as many pairs as the mapping
    has entries, fewer than [min k ntotal]. *)
Theorem search_skips_positions_outside_mapping `{Backend}
    (vdb : VectorDatabase) (class_id : string) (q : Vec) (k : nat)
    (index : list Vec) (m : list string) :
  indexes vdb !! class_id = Some index →
  chunk_mappings vdb !! class_id = Some m →
  search vdb class_id q k
    = default []
        (translate_hits m
           (Faiss.search index (l2_normalize q) (k `min` Faiss.ntotal index)))
  ∧ (∀ before score idx after,
       (Z.of_nat (length m) ≤ idx)%Z →
       translate_hits m (before ++ (score, idx) :: after)
       = translate_hits m (before ++ after))
  ∧ (∀ hits results,
       translate_hits m hits = Some results →
       length results
       = length (filter (λ hit, (hit.2 < Z.of_nat (length m))%Z) hits)
       ∧ ∀ chunk_id score,
           (chunk_id, score) ∈ results ↔
           ∃ idx, (score, idx) ∈ hits
                  ∧ (idx < Z.of_nat (length m))%Z
                  ∧ Py.getitem m idx = Some chunk_id)
  ∧ length (search vdb class_id q k) ≤ k `min` Faiss.ntotal index
  ∧ (length m < Faiss.ntotal index → Faiss.ntotal index ≤ k →
     Forall (λ hit, (0 ≤ hit.2)%Z)
       (Faiss.search index (l2_normalize q) (k `min` Faiss.ntotal index)) →
     length (search vdb class_id q k) = length m
     ∧ length (search vdb class_id q k) < k `min` Faiss.ntotal index).
Proof.
  intros Hi Hm. rewrite (search_unfold _ _ _ _ _ _ Hi Hm).
  set (hits := Faiss.search index (l2_normalize q) (k `min` Faiss.ntotal index)).
  split; [done|]. split; [|split; [|split]].
  - intros before score idx after. apply translate_hits_skip.
  - intros hits' results Hr. split; [by apply translate_hits_length|].
    intros chunk_id score. by apply translate_hits_elem_of.
  - destruct (translate_hits m hits) as [results|] eqn:Hr; [|simpl; lia].
    simpl. rewrite (translate_hits_length _ _ _ Hr).
    etrans; [apply length_filter|]. unfold hits. by rewrite faiss_search_length.
  - intros Hshort Hk Hfilled.
    destruct (translate_hits m hits) as [results|] eqn:Hr;
      [|by rewrite (translate_hits_positions m hits Hfilled) in Hr].
    simpl. rewrite (translate_hits_length _ _ _ Hr).
    pose proof (filter_fmap_length snd (λ i, (i < Z.of_nat (length m))%Z) hits) as Hf.
    simpl in Hf. rewrite Hf. clear Hf.
    unfold hits in *. rewrite Nat.min_r in * by done.
    destruct (faiss_search_all index (l2_normalize q) _ (le_n _) Hfilled)
      as [_ Hall].
    rewrite Hall.
    pose proof (filter_fmap_length Z.of_nat (λ i, (i < Z.of_nat (length m))%Z)
                  (seq 0 (Faiss.ntotal index))) as Hf.
    simpl in Hf. rewrite <- Hf. clear Hf.
    rewrite (list_filter_iff _ (λ i, i < length m)) by (intros i; lia).
    rewrite filter_lt_seq_length. lia.
Qed.

(** C10 at the sample index after the removal: one id in the mapping,
    two vectors in the index, and a search for two neighbours, both
    slots filled, returns one pair. *)
Lemma search_skips_positions_outside_mapping_witness :
  indexes Fixture.vdb_after_removal !! "class1" = Some [Fixture.e1; Fixture.e2]
  ∧ chunk_mappings Fixture.vdb_after_removal !! "class1" = Some ["chunk2"]
  ∧ Faiss.search (H := Fixture.backend) [Fixture.e1; Fixture.e2]
      (Fixture.normalize Fixture.e2) 2
    = [(1%Q, 1%Z); (0%Q, 0%Z)]
  ∧ length (search Fixture.vdb_after_removal "class1" Fixture.e2 2) = 1
  ∧ length (search Fixture.vdb_after_removal "class1" Fixture.e2 2) < 2.
Proof.
  assert (indexes Fixture.vdb_after_removal !! "class1"
          = Some [Fixture.e1; Fixture.e2]) as Hi by (vm_compute; reflexivity).
  assert (chunk_mappings Fixture.vdb_after_removal !! "class1"
          = Some ["chunk2"]) as Hm by (vm_compute; reflexivity).
  assert (Faiss.search (H := Fixture.backend) [Fixture.e1; Fixture.e2]
      (Fixture.normalize Fixture.e2) 2
          = [(1%Q, 1%Z); (0%Q, 0%Z)]) as Hhits by (vm_compute; reflexivity).
  destruct (search_skips_positions_outside_mapping
              Fixture.vdb_after_removal "class1" Fixture.e2 2 _ _ Hi Hm)
    as (_ & _ & _ & _ & Hfew).
  destruct Hfew as [Hlen Hlt]; [simpl; lia | simpl; lia | |].
  { change (Forall (λ hit : Q * Z, (0 ≤ hit.2)%Z)
              (Faiss.search (H := Fixture.backend) [Fixture.e1; Fixture.e2]
                 (Fixture.normalize Fixture.e2) 2)).
    rewrite Hhits. repeat constructor; simpl; lia. }
  split; [exact Hi|]. split; [exact Hm|]. split; [exact Hhits|].
  split; [exact Hlen | exact Hlt].
Defined.

(** The slots a query of norm zero leaves unfilled.  Its normalisation
    is all NaN, no stored vector enters a slot, and the label [-1] of
    each slot reads the last entry of the mapping, with the lowest
    float32 as score; on an empty mapping that reading raises and the
    search returns nothing. *)
Example search_unfilled_slots :
  Faiss.search (H := Fixture.backend) [Fixture.e1; Fixture.e2]
    (Fixture.normalize [0%Q; 0%Q]) 2
  = [Faiss.unfilled; Faiss.unfilled]
  ∧ search Fixture.vdb_two_documents "class1" [0%Q; 0%Q] 2
    = [("chunk2", Faiss.lowest); ("chunk2", Faiss.lowest)]
  ∧ search Fixture.vdb_after_removal "class1" [0%Q; 0%Q] 2
    = [("chunk2", Faiss.lowest); ("chunk2", Faiss.lowest)]
  ∧ translate_hits [] [Faiss.unfilled; Faiss.unfilled] = None.
Proof. vm_compute. repeat split. Qed.

(** Equal scores: the first vectors offered keep their slots, and the
    slots come back with the greater label first. *)
Example search_equal_scores :
  Faiss.search (H := Fixture.backend) [Fixture.e1; Fixture.e1; Fixture.e1]
    (Fixture.normalize Fixture.e1) 2
  = [(1%Q, 1%Z); (1%Q, 0%Z)].
Proof. vm_compute. reflexivity. Qed.

(** C2, at a concrete run.  After [create_class_index], one
    [add_embeddings] of two vectors and [remove_document_embeddings] of
    the first chunk, the index still holds both vectors while the mapping
    holds one id: position 0 of the mapping names [chunk2], whose vector
    sits at position 1.  A query equal to the vector of [chunk2] gets no
    result for [k = 1], and a query equal to the removed vector of
    [chunk1] is answered with [chunk2] at full score. *)
Theorem positional_correspondence_lost_by_removal :
  indexes Fixture.vdb_two_documents !! "class1" = Some [Fixture.e1; Fixture.e2]
  ∧ chunk_mappings Fixture.vdb_two_documents !! "class1" = Some ["chunk1"; "chunk2"]
  ∧ search Fixture.vdb_two_documents "class1" Fixture.e2 1 = [("chunk2", 1%Q)]
  ∧ indexes Fixture.vdb_after_removal !! "class1" = Some [Fixture.e1; Fixture.e2]
  ∧ chunk_mappings Fixture.vdb_after_removal !! "class1" = Some ["chunk2"]
  ∧ get_index_stats Fixture.vdb_after_removal "class1"
    = {| stats_exists := true; total_vectors := 2; chunk_count := 1 |}
  ∧ search Fixture.vdb_after_removal "class1" Fixture.e2 1 = []
  ∧ search Fixture.vdb_after_removal "class1" Fixture.e1 1 = [("chunk2", 1%Q)].
Proof. vm_compute. repeat split. Qed.

(** ** Claims about [ClassIsolationService] *)

Lemma head_filter_is_Some {A} (P : A → Prop) `{!∀ x, Decision (P x)} (l : list A) :
  head (filter P l) ≠ None ↔ ∃ x, x ∈ l ∧ P x.
Proof.
  split.
  - destruct (filter P l) as [|x l'] eqn:Hf; [done|]. intros _.
    assert (x ∈ filter P l) as Hx by (rewrite Hf; constructor).
    apply list_elem_of_filter in Hx as [? ?]. eauto.
  - intros (x & Hx & HP).
    assert (x ∈ filter P l) as Hin by (by apply list_elem_of_filter).
    destruct (filter P l); [by apply elem_of_nil in Hin|done].
Qed.

(** C3.  [verify_student_access] answers [true] exactly when the class
    exists, the class is enabled, and some access record of the student
    for that class is enabled; over the eight scenarios (class enabled,
    record present, record enabled) its answer is the conjunction of the
    three. *)
Theorem verify_student_access_iff `{Backend} :
  (∀ (self : ClassIsolationService) (student_id class_id : string),
     verify_student_access self student_id class_id = true ↔
     (∃ class_obj, classes (db self) !! class_id = Some class_obj
                   ∧ class_enabled class_obj = true)
     ∧ (∃ access, access ∈ student_access (db self)
                  ∧ sa_student_id access = student_id
                  ∧ sa_class_id access = class_id
                  ∧ sa_enabled access = true))
  ∧ (∀ class_is_enabled record_exists record_enabled : bool,
       verify_student_access
         (Fixture.access_scenario class_is_enabled record_exists record_enabled)
         "student1" "class1"
       = class_is_enabled && record_exists && record_enabled).
Proof.
  split.
  - intros self student_id class_id. unfold verify_student_access.
    destruct (classes (db self) !! class_id) as [class_obj|] eqn:Hc.
    + destruct (class_enabled class_obj) eqn:He; simpl.
      * rewrite bool_decide_eq_true, head_filter_is_Some. split.
        -- intros (a & Ha & ? & ? & ?). split; eauto 10.
        -- intros [_ (a & Ha & ? & ? & ?)]. eauto 10.
      * split; [done|]. intros [(c' & Hc' & He') _]. congruence.
    + split; [done|]. intros [(c' & Hc' & _) _]. done.
  - by intros [] [] [].
Qed.

(** C9.  When the document exists, the class exists and the document is
    already assigned to the class, [assign_document_to_class] returns
    success and the whole state of the service (assignments, indexes,
    mappings and the rest) is the one it was called on. *)
Theorem assign_already_assigned_is_noop `{Backend}
    (self : ClassIsolationService) (document_id class_id : string) :
  is_Some (documents (db self) !! document_id) →
  is_Some (classes (db self) !! class_id) →
  assigned (db self) document_id class_id →
  assign_document_to_class self document_id class_id = (self, true).
Proof.
  intros [document Hd] [class_obj Hc] Ha. unfold assign_document_to_class.
  rewrite Hd, Hc. by rewrite decide_True.
Qed.

(** C9 at the sample service after [doc1] was assigned to [class1]. *)
Lemma assign_already_assigned_is_noop_witness :
  is_Some (documents (db Fixture.service_doc1) !! "doc1")
  ∧ is_Some (classes (db Fixture.service_doc1) !! "class1")
  ∧ assigned (db Fixture.service_doc1) "doc1" "class1"
  ∧ assign_document_to_class Fixture.service_doc1 "doc1" "class1"
    = (Fixture.service_doc1, true).
Proof.
  assert (is_Some (documents (db Fixture.service_doc1) !! "doc1")) as Hd
    by (vm_compute; eexists; reflexivity).
  assert (is_Some (classes (db Fixture.service_doc1) !! "class1")) as Hc
    by (vm_compute; eexists; reflexivity).
  assert (assigned (db Fixture.service_doc1) "doc1" "class1") as Ha
    by (apply (bool_decide_unpack _); vm_compute; exact I).
  split; [exact Hd|]. split; [exact Hc|]. split; [exact Ha|].
  exact (assign_already_assigned_is_noop Fixture.service_doc1 "doc1" "class1" Hd Hc Ha).
Defined.

(** Both services first look the document and the class up and give up
    when either is missing; the proofs split on the two lookups alike. *)
Ltac found_or_done self document_id class_id :=
  destruct (documents (db self) !! document_id) as [?document|]; [|done];
  destruct (classes (db self) !! class_id) as [?class_obj|]; [|done].

(** ** The mapping a search reads, through the operations *)

Section IsolationProperties.
Context `{Backend}.

Lemma chunks_of_document_spec db document_id chunk_id chunk :
  (chunk_id, chunk) ∈ chunks_of_document db document_id ↔
  document_chunks db !! chunk_id = Some chunk ∧ chunk_document_id chunk = document_id.
Proof.
  unfold chunks_of_document.
  rewrite elem_of_map_to_list, map_lookup_filter_Some. simpl. tauto.
Qed.

Lemma chunk_ids_of_document_spec db document_id chunk_id :
  chunk_id ∈ (chunks_of_document db document_id).*1 ↔
  ∃ chunk, document_chunks db !! chunk_id = Some chunk
           ∧ chunk_document_id chunk = document_id.
Proof.
  rewrite list_elem_of_fmap. split.
  - intros ([i ch] & -> & Hin). apply chunks_of_document_spec in Hin. eauto.
  - intros (ch & Hch & Hd). exists (chunk_id, ch). split; [done|].
    by apply chunks_of_document_spec.
Qed.

Lemma NoDup_omap_inj {A B} (f : A → option B) (l : list A) :
  (∀ x y z, f x = Some z → f y = Some z → x = y) →
  NoDup l → NoDup (omap f l).
Proof.
  intros Hinj. induction 1 as [|x l Hx Hl IH]; csimpl; [constructor|].
  destruct (f x) as [z|] eqn:Hfx; [|done].
  constructor; [|done].
  intros (y & Hy & Hfy)%list_elem_of_omap.
  by rewrite (Hinj _ _ _ Hfx Hfy) in Hx.
Qed.

Lemma documents_of_class_NoDup db class_id : NoDup (documents_of_class db class_id).
Proof.
  unfold documents_of_class. apply NoDup_omap_inj; [|apply NoDup_elements].
  intros [c1 d1] [c2 d2] z Hx Hy.
  case_decide as H1; [|done]. case_decide as H2; [|done].
  destruct H1 as [-> _], H2 as [-> _]. congruence.
Qed.

Lemma documents_of_class_spec db class_id doc_id :
  doc_id ∈ documents_of_class db class_id ↔
  assigned db doc_id class_id ∧ is_Some (documents db !! doc_id).
Proof.
  unfold documents_of_class, assigned. rewrite list_elem_of_omap. split.
  - intros ([c d] & Hin & Hf). apply elem_of_elements in Hin.
    case_decide as Hdec; [|done]. destruct Hdec as [-> Hd]. by simplify_eq.
  - intros [Hin Hd]. exists (class_id, doc_id). split; [by apply elem_of_elements|].
    by rewrite decide_True.
Qed.

Lemma search_in_visible_mapping vdb class_id q k chunk_id score :
  (chunk_id, score) ∈ search vdb class_id q k →
  chunk_id ∈ visible_mapping vdb class_id.
Proof.
  destruct (indexes vdb !! class_id) as [index|] eqn:Hi;
    [|unfold search; rewrite Hi; by intros ?%elem_of_nil].
  destruct (chunk_mappings vdb !! class_id) as [m|] eqn:Hm;
    [|unfold search; rewrite Hi, Hm; by intros ?%elem_of_nil].
  rewrite (search_unfold _ _ _ _ _ _ Hi Hm). unfold visible_mapping. rewrite Hi, Hm.
  destruct (translate_hits m _) as [results|] eqn:Hr; [|by intros ?%elem_of_nil].
  simpl. intros Hin.
  apply (translate_hits_elem_of _ _ _ _ _ Hr) in Hin as (idx & _ & _ & Hget).
  by eapply getitem_elem_of.
Qed.

Lemma visible_mapping_create vdb class_id other :
  visible_mapping (create_class_index vdb class_id).1 other
  = if decide (other = class_id) then [] else visible_mapping vdb other.
Proof.
  unfold visible_mapping, create_class_index. simpl. case_decide as Heq.
  - subst. by rewrite !lookup_insert_eq.
  - by rewrite !lookup_insert_ne.
Qed.

(** [add_embeddings] brings no chunk id into view but the given ones,
    and only for the given class. *)
Lemma visible_mapping_add vdb class_id embeddings chunk_ids other chunk_id :
  chunk_id ∈ visible_mapping (add_embeddings vdb class_id embeddings chunk_ids).1 other →
  chunk_id ∈ visible_mapping vdb other ∨ (other = class_id ∧ chunk_id ∈ chunk_ids).
Proof.
  unfold add_embeddings.
  set (vdb1 := match indexes vdb !! class_id with
               | None => (create_class_index vdb class_id).1
               | Some _ => vdb
               end).
  assert (∀ x, x ∈ visible_mapping vdb1 other → x ∈ visible_mapping vdb other) as Hvdb1.
  { unfold vdb1. destruct (indexes vdb !! class_id); [done|].
    intros x. rewrite visible_mapping_create. case_decide; [|done].
    by intros ?%elem_of_nil. }
  destruct (indexes vdb1 !! class_id) as [index|] eqn:Hi; simpl; [|by auto].
  destruct embeddings as [|e embeddings]; simpl; [by auto|].
  destruct (chunk_mappings vdb1 !! class_id) as [m|] eqn:Hm; simpl.
  - unfold visible_mapping at 1. simpl.
    destruct (decide (other = class_id)) as [->|Hne].
    + rewrite !lookup_insert_eq. intros [Hin|Hin]%elem_of_app; [|by auto].
      left. apply Hvdb1. unfold visible_mapping. by rewrite Hi, Hm.
    + rewrite !lookup_insert_ne by done. intros Hin. left. by apply Hvdb1.
  - unfold visible_mapping at 1. simpl.
    destruct (decide (other = class_id)) as [->|Hne].
    + rewrite lookup_insert_eq, Hm. by intros ?%elem_of_nil.
    + rewrite lookup_insert_ne by done. intros Hin. left. by apply Hvdb1.
Qed.

Lemma visible_mapping_remove vdb class_id document_id chunk_ids other :
  visible_mapping (remove_document_embeddings vdb class_id document_id chunk_ids).1 other
  = if decide (other = class_id)
    then filter (λ chunk_id, chunk_id ∉ chunk_ids) (visible_mapping vdb class_id)
    else visible_mapping vdb other.
Proof.
  destruct (indexes vdb !! class_id) as [index|] eqn:Hi.
  - destruct (chunk_mappings vdb !! class_id) as [m|] eqn:Hm.
    + rewrite (remove_document_embeddings_spec _ _ _ _ _ _ Hi Hm).
      unfold visible_mapping. simpl. case_decide as Heq.
      * subst. by rewrite lookup_insert_eq, Hi, Hm.
      * by rewrite lookup_insert_ne.
    + unfold remove_document_embeddings. rewrite Hi, Hm. simpl.
      case_decide as Heq; [|done]. subst.
      unfold visible_mapping. by rewrite Hi, Hm.
  - unfold remove_document_embeddings. rewrite Hi. simpl.
    case_decide as Heq; [|done]. subst.
    unfold visible_mapping. by rewrite Hi.
Qed.

(** The state a turn of either loop leaves, in terms of the calls it
    makes. *)
Lemma bulk_assign_document_state class_id acc doc_id :
  (bulk_assign_document class_id acc doc_id).1
  = (assign_document_to_class acc.1 doc_id class_id).1.
Proof.
  destruct acc as [self results]. unfold bulk_assign_document. cbn [fst].
  destruct (assign_document_to_class self doc_id class_id) as [self' ok].
  by destruct ok.
Qed.

Lemma migrate_document_state from_class_id to_class_id acc doc_id :
  (migrate_document from_class_id to_class_id acc doc_id).1
  = let self1 := (remove_document_from_class acc.1 doc_id from_class_id).1 in
    let self2 := (assign_document_to_class self1 doc_id to_class_id).1 in
    if (remove_document_from_class acc.1 doc_id from_class_id).2
    then if (assign_document_to_class self1 doc_id to_class_id).2
         then self2
         else (assign_document_to_class self2 doc_id from_class_id).1
    else self1.
Proof.
  destruct acc as [self results]. unfold migrate_document. cbn [fst].
  destruct (remove_document_from_class self doc_id from_class_id)
    as [self1 removed].
  destruct removed; [|done]. cbn [fst snd].
  destruct (assign_document_to_class self1 doc_id to_class_id) as [self2 added].
  by destruct added.
Qed.

(** What the single calls preserve, the two loops preserve. *)
Lemma bulk_assign_documents_preserves (P : ClassIsolationService → Prop)
    self document_ids class_id :
  (∀ s d, d ∈ document_ids → P s → P (assign_document_to_class s d class_id).1) →
  P self → P (bulk_assign_documents self document_ids class_id).1.
Proof.
  intros Hassign HP. unfold bulk_assign_documents.
  apply (foldl_state_invariant P); [|done].
  intros acc d Hd Hacc. rewrite bulk_assign_document_state. by apply Hassign.
Qed.

Lemma migrate_class_documents_preserves (P : ClassIsolationService → Prop)
    self from_class_id to_class_id :
  (∀ s d, d ∈ documents_of_class (db self) from_class_id →
          P s → P (remove_document_from_class s d from_class_id).1) →
  (∀ s d c, d ∈ documents_of_class (db self) from_class_id →
            P s → P (assign_document_to_class s d c).1) →
  P self → P (migrate_class_documents self from_class_id to_class_id).1.
Proof.
  intros Hremove Hassign HP. unfold migrate_class_documents.
  destruct (classes (db self) !! from_class_id); [|done].
  destruct (classes (db self) !! to_class_id); [|done].
  set (acc0 := (self, _)).
  assert (P (foldl (migrate_document from_class_id to_class_id) acc0
               (documents_of_class (db self) from_class_id)).1) as Hloop.
  { apply (foldl_state_invariant P); [|done].
    intros acc d Hd Hacc. rewrite migrate_document_state. cbn zeta.
    destruct (remove_document_from_class acc.1 d from_class_id).2;
      [|by apply Hremove].
    destruct (assign_document_to_class _ d to_class_id).2.
    - by apply Hassign, Hremove.
    - by apply Hassign, Hassign, Hremove. }
  by destruct (foldl _ acc0 _).
Qed.

(** The calls change nothing of the relational store but the
    assignments. *)
Lemma create_class_collection_tables self class_id :
  same_tables (db (create_class_collection self class_id).1) (db self).
Proof.
  unfold create_class_collection. by destruct (classes (db self) !! class_id).
Qed.

Lemma assign_document_to_class_tables self document_id class_id :
  same_tables (db (assign_document_to_class self document_id class_id).1) (db self).
Proof.
  unfold assign_document_to_class.
  found_or_done self document_id class_id.
  case_decide; [done|].
  destruct (chunks_of_document _ _); [done|].
  destruct EmbeddingService_init; [|done].
  by destruct (generate_embeddings _).
Qed.

Lemma remove_document_from_class_tables self document_id class_id :
  same_tables (db (remove_document_from_class self document_id class_id).1) (db self).
Proof.
  unfold remove_document_from_class.
  found_or_done self document_id class_id.
  cbn [fst db]. by case_decide.
Qed.

Lemma same_tables_trans db1 db2 db3 :
  same_tables db1 db2 → same_tables db2 db3 → same_tables db1 db3.
Proof.
  intros (H1 & H2 & H3) (H4 & H5 & H6). unfold same_tables.
  split; [congruence|]. split; congruence.
Qed.

Lemma call_tables self c : same_tables (db (call self c)) (db self).
Proof.
  destruct c as [class_id|document_id class_id|document_id class_id
                |document_ids class_id|from_class_id to_class_id]; simpl.
  - apply create_class_collection_tables.
  - apply assign_document_to_class_tables.
  - apply remove_document_from_class_tables.
  - apply (bulk_assign_documents_preserves (λ s, same_tables (db s) (db self)));
      [|done].
    intros s d _ Hs. eapply same_tables_trans; [|exact Hs].
    apply assign_document_to_class_tables.
  - apply (migrate_class_documents_preserves (λ s, same_tables (db s) (db self)));
      [| |done].
    + intros s d _ Hs. eapply same_tables_trans; [|exact Hs].
      apply remove_document_from_class_tables.
    + intros s d c _ Hs. eapply same_tables_trans; [|exact Hs].
      apply assign_document_to_class_tables.
Qed.

Lemma chunks_of_document_tables db db' document_id :
  document_chunks db' = document_chunks db →
  chunks_of_document db' document_id = chunks_of_document db document_id.
Proof. unfold chunks_of_document. by intros ->. Qed.
End IsolationProperties.

Section IsolationInvariants.
Context `{Backend}.

Lemma visible_mapping_init class_id :
  visible_mapping VectorDatabase_init class_id = [].
Proof. unfold visible_mapping, VectorDatabase_init. simpl. by rewrite lookup_empty. Qed.

Lemma sound_init db0 : sound (ClassIsolationService_init db0).
Proof.
  intros class_id chunk_id. simpl. rewrite visible_mapping_init.
  by intros ?%elem_of_nil.
Qed.

Lemma assigned_append db document_id class_id d c :
  assigned (append_assignment db document_id class_id) d c ↔
  (d = document_id ∧ c = class_id) ∨ assigned db d c.
Proof.
  unfold assigned, append_assignment. simpl.
  rewrite elem_of_union, elem_of_singleton. split.
  - intros [Heq|Hin]; [|by right]. inversion Heq; subst. by left.
  - intros [[-> ->]|Hin]; [by left|by right].
Qed.

Lemma assigned_remove db document_id class_id d c :
  assigned (remove_assignment db document_id class_id) d c ↔
  assigned db d c ∧ ¬ (d = document_id ∧ c = class_id).
Proof.
  unfold assigned, remove_assignment. simpl.
  rewrite elem_of_difference, elem_of_singleton. split.
  - intros [Hin Hne]. split; [done|]. intros [-> ->]. by apply Hne.
  - intros [Hin Hne]. split; [done|]. intros Heq. inversion Heq; subst.
    by apply Hne.
Qed.

Lemma create_class_collection_unfold self class_id :
  create_class_collection self class_id
  = match classes (db self) !! class_id with
    | None => (self, false)
    | Some _ =>
        ({| db := db self;
            vector_db := (create_class_index (vector_db self) class_id).1 |}, true)
    end.
Proof. reflexivity. Qed.

Lemma sound_create self class_id : sound self → sound (create_class_collection self class_id).1.
Proof.
  intros Hs. rewrite create_class_collection_unfold.
  destruct (classes (db self) !! class_id); [|done].
  intros other chunk_id. cbn [vector_db db fst]. rewrite visible_mapping_create.
  case_decide; [by intros ?%elem_of_nil|]. apply Hs.
Qed.

Lemma sound_assign self document_id class_id :
  sound self → sound (assign_document_to_class self document_id class_id).1.
Proof.
  intros Hs. unfold assign_document_to_class.
  found_or_done self document_id class_id.
  case_decide as Ha; [done|].
  assert (sound {| db := append_assignment (db self) document_id class_id;
                   vector_db := vector_db self |}) as Hs1.
  { intros other chunk_id Hin. destruct (Hs _ _ Hin) as (ch & Hch & Hass).
    exists ch. split; [done|]. apply assigned_append. by right. }
  destruct (chunks_of_document _ _) as [|ch0 chunks] eqn:Hchunks; [done|].
  destruct EmbeddingService_init; [|done].
  destruct (generate_embeddings _) as [embeddings|]; [|done].
  intros other chunk_id. cbn [vector_db db]. intros Hin.
  apply visible_mapping_add in Hin as [Hin|[-> Hin]].
  - by apply Hs1.
  - rewrite <- Hchunks in Hin.
    apply chunk_ids_of_document_spec in Hin as (ch & Hch & Hd).
    exists ch. split; [done|]. apply assigned_append. by left.
Qed.

(** After [remove_document_from_class] has found the document and the
    class, the mapping read for the class holds no chunk id of the
    document. *)
Lemma remove_hides_document self document_id class_id chunk_id chunk :
  (remove_document_from_class self document_id class_id).2 = true →
  chunk_id ∈ visible_mapping
               (vector_db (remove_document_from_class self document_id class_id).1)
               class_id →
  document_chunks (db self) !! chunk_id = Some chunk →
  chunk_document_id chunk = document_id →
  False.
Proof.
  unfold remove_document_from_class.
  found_or_done self document_id class_id.
  simpl. intros _ Hin Hch Hd.
  rewrite visible_mapping_remove, decide_True in Hin by done.
  apply list_elem_of_filter in Hin as [Hnot _]. apply Hnot.
  apply chunk_ids_of_document_spec. exists chunk. split; [|done].
  by case_decide.
Qed.

Lemma sound_remove self document_id class_id :
  sound self → sound (remove_document_from_class self document_id class_id).1.
Proof.
  intros Hs. unfold remove_document_from_class.
  found_or_done self document_id class_id.
  intros other chunk_id. simpl. rewrite visible_mapping_remove.
  set (db1 := if decide (assigned (db self) document_id class_id)
              then remove_assignment (db self) document_id class_id else db self).
  assert (document_chunks db1 = document_chunks (db self)) as Hsame
    by (unfold db1; by case_decide).
  case_decide as Heq.
  - subst other. intros [Hnot Hin]%list_elem_of_filter.
    destruct (Hs _ _ Hin) as (ch & Hch & Hass). exists ch.
    rewrite Hsame. split; [done|].
    unfold db1. case_decide; [|done]. apply assigned_remove. split; [done|].
    intros [Hd _]. apply Hnot. apply chunk_ids_of_document_spec.
    exists ch. by rewrite Hsame.
  - intros Hin. destruct (Hs _ _ Hin) as (ch & Hch & Hass). exists ch.
    rewrite Hsame. split; [done|].
    unfold db1. case_decide; [|done]. apply assigned_remove. split; [done|].
    intros [_ Hc]. done.
Qed.

Lemma sound_call self c : sound self → sound (call self c).
Proof.
  intros Hs.
  destruct c as [class_id|document_id class_id|document_id class_id
                |document_ids class_id|from_class_id to_class_id]; simpl.
  - by apply sound_create.
  - by apply sound_assign.
  - by apply sound_remove.
  - apply (bulk_assign_documents_preserves sound); [|done].
    intros s d _. apply sound_assign.
  - apply (migrate_class_documents_preserves sound); [| |done].
    + intros s d _. apply sound_remove.
    + intros s d c _. apply sound_assign.
Qed.

Lemma sound_run self calls : sound self → sound (run self calls).
Proof.
  revert self. induction calls as [|c calls IH]; intros self Hs; [done|].
  simpl. by apply IH, sound_call.
Qed.
End IsolationInvariants.

Section WellFormedIndexes.
Context `{Backend}.

Lemma well_formed_init : well_formed VectorDatabase_init.
Proof. intros class_id index. simpl. by rewrite lookup_empty. Qed.

Lemma well_formed_create vdb class_id :
  well_formed vdb → well_formed (create_class_index vdb class_id).1.
Proof.
  intros Hwf other index. simpl.
  destruct (decide (other = class_id)) as [->|Hne].
  - rewrite !lookup_insert_eq. intros [= <-]. by exists [].
  - rewrite !lookup_insert_ne by done. apply Hwf.
Qed.

Lemma visible_mapping_length vdb class_id index :
  well_formed vdb → indexes vdb !! class_id = Some index →
  chunk_mappings vdb !! class_id = Some (visible_mapping vdb class_id)
  ∧ length (visible_mapping vdb class_id) ≤ Faiss.ntotal index.
Proof.
  intros Hwf Hi. destruct (Hwf _ _ Hi) as (m & Hm & Hlen).
  unfold visible_mapping. by rewrite Hi, Hm.
Qed.

(** On a well-formed database a non-empty batch is always added: the
    vectors at the end of the index, the ids at the end of the
    mapping. *)
Lemma add_embeddings_ok vdb class_id embeddings chunk_ids :
  well_formed vdb → embeddings ≠ [] →
  add_embeddings vdb class_id embeddings chunk_ids
  = ({| indexes :=
          <[class_id := default [] (indexes vdb !! class_id)
                        ++ (l2_normalize <$> embeddings)]> (indexes vdb);
        chunk_mappings :=
          <[class_id := visible_mapping vdb class_id ++ chunk_ids]>
            (chunk_mappings vdb) |}, true).
Proof.
  intros Hwf Hne. unfold add_embeddings.
  destruct (indexes vdb !! class_id) as [index|] eqn:Hi.
  - rewrite Hi. destruct embeddings as [|e embeddings]; [done|].
    destruct (visible_mapping_length _ _ _ Hwf Hi) as [Hm _].
    cbn [chunk_mappings indexes]. by rewrite Hm.
  - cbn [create_class_index fst indexes chunk_mappings].
    rewrite lookup_insert_eq. destruct embeddings as [|e embeddings]; [done|].
    cbn [chunk_mappings indexes]. rewrite lookup_insert_eq.
    rewrite !insert_insert_eq. unfold visible_mapping. by rewrite Hi.
Qed.

Lemma well_formed_add vdb class_id embeddings chunk_ids :
  well_formed vdb → embeddings ≠ [] → length embeddings = length chunk_ids →
  well_formed (add_embeddings vdb class_id embeddings chunk_ids).1.
Proof.
  intros Hwf Hne Hlen. rewrite add_embeddings_ok by done.
  intros other index. cbn [fst indexes chunk_mappings].
  destruct (decide (other = class_id)) as [->|Hother].
  - rewrite !lookup_insert_eq. intros [= <-]. eexists. split; [done|].
    unfold Faiss.ntotal. rewrite !length_app, length_fmap, Hlen.
    destruct (indexes vdb !! class_id) as [index|] eqn:Hi; simpl.
    + destruct (visible_mapping_length _ _ _ Hwf Hi) as [_ Hle].
      unfold Faiss.ntotal in Hle. lia.
    + unfold visible_mapping. rewrite Hi. simpl. lia.
  - rewrite !lookup_insert_ne by done. apply Hwf.
Qed.

Lemma well_formed_remove vdb class_id document_id chunk_ids :
  well_formed vdb →
  well_formed (remove_document_embeddings vdb class_id document_id chunk_ids).1.
Proof.
  intros Hwf. destruct (indexes vdb !! class_id) as [index|] eqn:Hi.
  - destruct (Hwf _ _ Hi) as (m & Hm & Hlen).
    rewrite (remove_document_embeddings_spec _ _ _ _ _ _ Hi Hm).
    intros other index'. cbn [fst indexes chunk_mappings].
    destruct (decide (other = class_id)) as [->|Hother].
    + rewrite lookup_insert_eq, Hi. intros [= <-]. eexists. split; [done|].
      etrans; [apply length_filter|]. done.
    + rewrite lookup_insert_ne by done. apply Hwf.
  - unfold remove_document_embeddings. by rewrite Hi.
Qed.

End WellFormedIndexes.

(** ** The isolation invariant *)

(** Within one service instance the identifiers are isolated.  On a
    service started with an empty vector database, after any run of
    [create_class_collection], [assign_document_to_class],
    [remove_document_from_class], [bulk_assign_documents] and
    [migrate_class_documents] made on that same instance, a chunk id
    that a search on a class returns is the id of a stored chunk whose
    document is assigned to the class; and once
    [remove_document_from_class] has returned success for a document and
    a class, no search on the class returns a chunk id of the
    document. *)
Lemma searches_of_one_instance `{Backend} (db0 : Session) (calls : list IsolationCall) :
  let self := run (ClassIsolationService_init db0) calls in
  (∀ class_id chunk_id q k score,
     (chunk_id, score) ∈ search (vector_db self) class_id q k →
     ∃ chunk, document_chunks (db self) !! chunk_id = Some chunk
              ∧ assigned (db self) (chunk_document_id chunk) class_id)
  ∧ (∀ document_id class_id,
       (remove_document_from_class self document_id class_id).2 = true →
       ∀ chunk_id chunk q k score,
         document_chunks (db self) !! chunk_id = Some chunk →
         chunk_document_id chunk = document_id →
         (chunk_id, score)
         ∉ search (vector_db (remove_document_from_class self document_id class_id).1)
             class_id q k).
Proof.
  intros self.
  assert (sound self) as Hsound by apply sound_run, sound_init.
  split.
  - intros class_id chunk_id q k score Hin.
    apply Hsound. by eapply search_in_visible_mapping.
  - intros document_id class_id Hok chunk_id chunk q k score Hch Hd Hin.
    apply search_in_visible_mapping in Hin.
    by eapply remove_hides_document.
Qed.

(** C1, at the services as the API runs them.  A
    [ClassIsolationService] made for one request assigns [doc1] to
    [class1] and saves the index of [class1]; the one made for the next
    request removes [doc1] from [class1] and returns success: the
    assignment is gone from the tables, but the vector database of that
    instance is empty, so nothing is taken out of a mapping and nothing
    is saved, and the files are those the assignment left.  The
    [RAGService] made for the query that follows loads them: its search
    on [class1] returns the chunk of [doc1], and [process_query] answers
    from it and cites [doc1].  In the other direction, the assignment of
    [doc2] by a further instance saves an index holding [doc2] alone:
    [doc1] is still assigned to [class1], and no search of the next
    [RAGService] on [class1] can return its chunk. *)
Theorem removed_document_still_retrievable :
  (Saved.assign_request.2 = true
   ∧ Saved.remove_request.2 = true
   ∧ class_documents (db Saved.remove_request.1.1) = ∅
   ∧ document_chunks (db Saved.remove_request.1.1) !! "chunk1"
     = Some (mkDocumentChunk "doc1" "Math content" None None)
   ∧ Saved.remove_request.1.2 = Saved.assign_request.1.2
   ∧ ∃ rag,
       Saved.rag_after_removal = Some rag
       ∧ search (rag_vector_db rag) "class1" Fixture.e1 1 = [("chunk1", 1%Q)]
       ∧ (λ response,
            (success response,
             citation_document_id <$> citations response,
             citation_chunk_id <$> citations response))
           (process_query _generate_answer_from_context "" (λ _, "")
              rag "Math content" "class1" "student1" 0)
         = (true, ["doc1"], ["chunk1"]))
  ∧ (Saved.second_assign_request.2 = true
     ∧ class_documents (db Saved.second_assign_request.1.1)
       = {[ ("class1", "doc1"); ("class1", "doc2") ]}
     ∧ ∃ rag,
         Saved.rag_after_second_assignment = Some rag
         ∧ visible_mapping (rag_vector_db rag) "class1" = ["chunk2"]
         ∧ search (rag_vector_db rag) "class1" Fixture.e1 2 = [("chunk2", 0%Q)]).
Proof.
  split.
  - split; [vm_compute; reflexivity|]. split; [vm_compute; reflexivity|].
    split; [vm_compute; reflexivity|]. split; [vm_compute; reflexivity|].
    split; [vm_compute; reflexivity|].
    eexists. split; [vm_compute; reflexivity|].
    split; vm_compute; reflexivity.
  - split; [vm_compute; reflexivity|]. split; [vm_compute; reflexivity|].
    eexists. split; [vm_compute; reflexivity|].
    split; vm_compute; reflexivity.
Qed.

(** ** Migration *)

Section MigrationProperties.
Context `{Backend}.

Lemma remove_document_from_class_found self document_id class_id :
  (remove_document_from_class self document_id class_id).2 = true →
  is_Some (documents (db self) !! document_id)
  ∧ is_Some (classes (db self) !! class_id).
Proof.
  unfold remove_document_from_class.
  found_or_done self document_id class_id. eauto.
Qed.

(** Whatever its result, [assign_document_to_class] leaves an existing
    document assigned to an existing class. *)
Lemma assign_document_to_class_assigns self document_id class_id :
  is_Some (documents (db self) !! document_id) →
  is_Some (classes (db self) !! class_id) →
  assigned (db (assign_document_to_class self document_id class_id).1)
    document_id class_id.
Proof.
  intros [d Hd] [c Hc]. unfold assign_document_to_class. rewrite Hd, Hc.
  case_decide as Ha; [done|].
  assert (assigned (append_assignment (db self) document_id class_id)
            document_id class_id) as Hnew by (apply assigned_append; by left).
  destruct (chunks_of_document _ _); [done|].
  destruct EmbeddingService_init; [|done].
  by destruct (generate_embeddings _).
Qed.

Lemma assign_document_to_class_true self document_id class_id :
  (assign_document_to_class self document_id class_id).2 = true →
  assigned (db (assign_document_to_class self document_id class_id).1)
    document_id class_id.
Proof.
  unfold assign_document_to_class.
  found_or_done self document_id class_id.
  case_decide as Ha; [done|].
  assert (assigned (append_assignment (db self) document_id class_id)
            document_id class_id) as Hnew by (apply assigned_append; by left).
  destruct (chunks_of_document _ _); [done|].
  destruct EmbeddingService_init; [|done].
  by destruct (generate_embeddings _).
Qed.

Lemma assign_document_to_class_keeps self document_id class_id d c :
  assigned (db self) d c →
  assigned (db (assign_document_to_class self document_id class_id).1) d c.
Proof.
  intros Hass. unfold assign_document_to_class.
  found_or_done self document_id class_id.
  case_decide as Ha; [done|].
  assert (assigned (append_assignment (db self) document_id class_id) d c)
    as Hnew by (apply assigned_append; by right).
  destruct (chunks_of_document _ _); [done|].
  destruct EmbeddingService_init; [|done].
  by destruct (generate_embeddings _).
Qed.

Lemma remove_document_from_class_keeps self document_id class_id d c :
  assigned (db self) d c → d ≠ document_id →
  assigned (db (remove_document_from_class self document_id class_id).1) d c.
Proof.
  intros Hass Hne. unfold remove_document_from_class.
  found_or_done self document_id class_id.
  cbn [fst db]. case_decide; [|done].
  apply assigned_remove. split; [done|]. by intros [? _].
Qed.

(** One turn of the migration loop: the document goes to the end of
    [migrated] or to the end of [failed], and the assignments of the
    other documents stay. *)
Lemma migrate_document_turn from_class_id to_class_id acc doc_id :
  let acc' := migrate_document from_class_id to_class_id acc doc_id in
  ((∃ doc_name, migrated acc'.2 = migrated acc.2 ++ [(doc_id, doc_name)]
                ∧ failed acc'.2 = failed acc.2)
   ∨ (migrated acc'.2 = migrated acc.2 ∧ failed acc'.2 = failed acc.2 ++ [doc_id]))
  ∧ total acc'.2 = total acc.2
  ∧ (∀ d c, assigned (db acc.1) d c → d ≠ doc_id → assigned (db acc'.1) d c).
Proof.
  destruct acc as [self results]. cbn zeta. cbn [fst snd].
  unfold migrate_document.
  destruct (remove_document_from_class self doc_id from_class_id)
    as [self1 removed] eqn:Hremove.
  assert (∀ d c, assigned (db self) d c → d ≠ doc_id → assigned (db self1) d c)
    as Hkeep1.
  { intros d c Hass Hne. replace self1 with
      (remove_document_from_class self doc_id from_class_id).1 by (by rewrite Hremove).
    by apply remove_document_from_class_keeps. }
  destruct removed; [|cbn; split; [by right|by split]].
  destruct (assign_document_to_class self1 doc_id to_class_id)
    as [self2 added] eqn:Hassign.
  assert (∀ d c, assigned (db self1) d c → assigned (db self2) d c) as Hkeep2.
  { intros d c Hass. replace self2 with
      (assign_document_to_class self1 doc_id to_class_id).1 by (by rewrite Hassign).
    by apply assign_document_to_class_keeps. }
  destruct added; cbn [fst snd migrated failed total].
  - split; [left; by eexists|]. split; [done|]. auto.
  - split; [by right|]. split; [done|].
    intros d c Hass Hne. apply assign_document_to_class_keeps. auto.
Qed.

Lemma migrate_document_tables from_class_id to_class_id acc doc_id :
  same_tables (db (migrate_document from_class_id to_class_id acc doc_id).1)
    (db acc.1).
Proof.
  destruct acc as [self results]. unfold migrate_document. cbn [fst].
  destruct (remove_document_from_class self doc_id from_class_id)
    as [self1 removed] eqn:Hremove.
  assert (same_tables (db self1) (db self)) as H1.
  { replace self1 with (remove_document_from_class self doc_id from_class_id).1
      by (by rewrite Hremove).
    apply remove_document_from_class_tables. }
  destruct removed; [|done].
  destruct (assign_document_to_class self1 doc_id to_class_id)
    as [self2 added] eqn:Hassign.
  assert (same_tables (db self2) (db self1)) as H2.
  { replace self2 with (assign_document_to_class self1 doc_id to_class_id).1
      by (by rewrite Hassign).
    apply assign_document_to_class_tables. }
  destruct added; cbn [fst].
  - by eapply same_tables_trans.
  - eapply same_tables_trans; [apply assign_document_to_class_tables|].
    by eapply same_tables_trans.
Qed.

(** The loop over a list of documents: what was reported stays
    reported, what is reported anew is among the documents passed, and
    the assignments of the other documents stay. *)
Lemma migrate_loop from_class_id to_class_id docs acc :
  let acc' := foldl (migrate_document from_class_id to_class_id) acc docs in
  (∀ entry, entry ∈ migrated acc.2 → entry ∈ migrated acc'.2)
  ∧ (∀ d, d ∈ failed acc.2 → d ∈ failed acc'.2)
  ∧ (∀ d, d ∈ (migrated acc'.2).*1 → d ∈ (migrated acc.2).*1 ∨ d ∈ docs)
  ∧ (∀ d, d ∈ failed acc'.2 → d ∈ failed acc.2 ∨ d ∈ docs)
  ∧ total acc'.2 = total acc.2
  ∧ (∀ d c, assigned (db acc.1) d c → d ∉ docs → assigned (db acc'.1) d c).
Proof.
  revert acc. induction docs as [|x docs IH]; intros acc; cbn zeta.
  - cbn [foldl]. split; [done|]. split; [done|]. split; [by left|].
    split; [by left|]. done.
  - cbn [foldl].
    destruct (migrate_document_turn from_class_id to_class_id acc x)
      as (Hlists & Htotal & Hkeep).
    destruct (IH (migrate_document from_class_id to_class_id acc x))
      as (IHm & IHf & IHm' & IHf' & IHtotal & IHkeep).
    cbn zeta in *.
    split; [|split; [|split; [|split; [|split]]]].
    + intros entry Hin. apply IHm.
      destruct Hlists as [(doc_name & -> & _)|[-> _]]; [|done].
      apply elem_of_app. by left.
    + intros d Hin. apply IHf.
      destruct Hlists as [(doc_name & _ & ->)|[_ ->]]; [done|].
      apply elem_of_app. by left.
    + intros d [Hin|Hin]%IHm'; [|right; by constructor].
      destruct Hlists as [(doc_name & Hm & _)|[Hm _]]; rewrite Hm in Hin; [|by left].
      rewrite fmap_app in Hin. apply elem_of_app in Hin as [Hin|Hin]; [by left|].
      apply list_elem_of_singleton in Hin. simpl in Hin. subst. right. constructor.
    + intros d [Hin|Hin]%IHf'; [|right; by constructor].
      destruct Hlists as [(doc_name & _ & Hf)|[_ Hf]]; rewrite Hf in Hin; [by left|].
      apply elem_of_app in Hin as [Hin|Hin]; [by left|].
      apply list_elem_of_singleton in Hin. subst. right. constructor.
    + by rewrite IHtotal.
    + intros d c Hass [Hne Hnotin]%not_elem_of_cons.
      apply IHkeep; [|done]. by apply Hkeep.
Qed.

Lemma migrate_loop_tables from_class_id to_class_id docs acc :
  same_tables
    (db (foldl (migrate_document from_class_id to_class_id) acc docs).1) (db acc.1).
Proof.
  revert acc. induction docs as [|x docs IH]; intros acc; simpl; [done|].
  eapply same_tables_trans; [apply IH|]. apply migrate_document_tables.
Qed.
End MigrationProperties.

(** C7.  [migrate_class_documents] over two classes that exist, at the
    turn of a document of the source class whose removal from the
    source succeeds.  When the assignment to the destination fails, the
    state the turn leaves is the one the compensating
    [assign_document_to_class] on the source class leaves, in which the
    document is assigned to the source class; the loop reports the
    document in [failed] and not in [migrated], and at the end of the
    loop the document is still assigned to the source class.  When the
    assignment succeeds, the document is reported in [migrated], with
    its name, and not in [failed], and at the end of the loop it is
    assigned to the destination class.  [total] counts the documents
    of the source class. *)
Theorem migration_compensates `{Backend}
    (self : ClassIsolationService) (from_class_id to_class_id : string)
    (passed rest : list string) (doc_id : string)
    (self1 self2 : ClassIsolationService) (added : bool) :
  is_Some (classes (db self) !! from_class_id) →
  is_Some (classes (db self) !! to_class_id) →
  documents_of_class (db self) from_class_id = passed ++ doc_id :: rest →
  remove_document_from_class
    (migration_state self from_class_id to_class_id passed) doc_id from_class_id
  = (self1, true) →
  assign_document_to_class self1 doc_id to_class_id = (self2, added) →
  ∃ results,
    (migrate_class_documents self from_class_id to_class_id).2 = inr results
    ∧ total results = length (documents_of_class (db self) from_class_id)
    ∧ (if added then
         (migration_state self from_class_id to_class_id (passed ++ [doc_id]) = self2)
         ∧ (doc_id, default "" (document_name <$> documents (db self) !! doc_id))
           ∈ migrated results
         ∧ (doc_id ∉ failed results)
         ∧ assigned (db (migrate_class_documents self from_class_id to_class_id).1)
             doc_id to_class_id
       else
         (migration_state self from_class_id to_class_id (passed ++ [doc_id])
          = (assign_document_to_class self2 doc_id from_class_id).1)
         ∧ assigned
             (db (migration_state self from_class_id to_class_id (passed ++ [doc_id])))
             doc_id from_class_id
         ∧ doc_id ∈ failed results
         ∧ (doc_id ∉ (migrated results).*1)
         ∧ assigned (db (migrate_class_documents self from_class_id to_class_id).1)
             doc_id from_class_id).
Proof.
  intros [from_class Hfrom] [to_class Hto] Hdocs Hremove Hassign.
  pose proof (documents_of_class_NoDup (db self) from_class_id) as Hnodup.
  assert (is_Some (documents (db self) !! doc_id)) as Hdoc.
  { apply (documents_of_class_spec (db self) from_class_id).
    rewrite Hdocs. apply elem_of_app. right. constructor. }
  rewrite Hdocs in Hnodup.
  apply NoDup_app in Hnodup as (_ & Hpassed & [Hrest _]%NoDup_cons).
  assert (doc_id ∉ passed) as Hnotpassed.
  { intros Hin. apply (Hpassed _ Hin). constructor. }
  unfold migrate_class_documents, migration_state in *. rewrite Hfrom, Hto.
  set (acc0 := (self, {| migrated := []; failed := [];
                         total := length (documents_of_class (db self) from_class_id) |})) in *.
  assert (foldl (migrate_document from_class_id to_class_id) acc0
            (documents_of_class (db self) from_class_id)
          = foldl (migrate_document from_class_id to_class_id)
              (migrate_document from_class_id to_class_id
                 (foldl (migrate_document from_class_id to_class_id) acc0 passed)
                 doc_id)
              rest) as ->
    by (by rewrite Hdocs, foldl_app).
  set (reached := foldl (migrate_document from_class_id to_class_id) acc0 passed) in *.
  rewrite foldl_app. cbn [foldl]. fold reached.
  destruct (migrate_loop from_class_id to_class_id passed acc0)
    as (_ & _ & Hm0 & Hf0 & Htotal0 & _).
  fold reached in Hm0, Hf0, Htotal0. cbn zeta in *.
  destruct (migrate_loop_tables from_class_id to_class_id passed acc0)
    as (Hcls0 & Hdocs0 & _).
  fold reached in Hcls0, Hdocs0. cbn [fst acc0] in Hcls0, Hdocs0.
  set (turn := migrate_document from_class_id to_class_id reached doc_id) in *.
  destruct (migrate_loop from_class_id to_class_id rest turn)
    as (Hm1 & Hf1 & Hm1' & Hf1' & Htotal1 & Hkeep1).
  cbn zeta in *.
  set (final := foldl (migrate_document from_class_id to_class_id) turn rest) in *.
  assert (same_tables (db self1) (db self)) as (Hcls1 & Hdocs1 & _).
  { replace self1 with
      (remove_document_from_class reached.1 doc_id from_class_id).1
      by (by rewrite Hremove).
    eapply same_tables_trans; [apply remove_document_from_class_tables|].
    split; [done|]. split; [done|]. apply migrate_loop_tables. }
  assert (same_tables (db self2) (db self)) as (Hcls2 & Hdocs2 & _).
  { replace self2 with (assign_document_to_class self1 doc_id to_class_id).1
      by (by rewrite Hassign).
    eapply same_tables_trans; [apply assign_document_to_class_tables|].
    split; [done|]. split; [done|].
    replace self1 with
      (remove_document_from_class reached.1 doc_id from_class_id).1
      by (by rewrite Hremove).
    etrans; [apply remove_document_from_class_tables|]. apply migrate_loop_tables. }
  assert (turn
          = if added
            then (self2,
                  {| migrated := migrated reached.2
                                 ++ [(doc_id, default "" (document_name
                                                          <$> documents (db self2) !! doc_id))];
                     failed := failed reached.2; total := total reached.2 |})
            else ((assign_document_to_class self2 doc_id from_class_id).1,
                  {| migrated := migrated reached.2;
                     failed := failed reached.2 ++ [doc_id];
                     total := total reached.2 |})) as Hturn.
  { unfold turn, migrate_document. destruct reached as [self' results'].
    cbn [fst snd] in *. rewrite Hremove, Hassign. by destruct added. }
  destruct final as [self_final results_final] eqn:Hfinal.
  exists results_final. cbn [fst snd] in *.
  split; [done|]. split.
  { rewrite Htotal1, Hturn. destruct added; cbn [snd total]; by rewrite Htotal0. }
  destruct added.
  - rewrite Hturn in *. cbn [fst snd migrated failed] in *.
    split; [done|]. split; [|split].
    + apply Hm1. apply elem_of_app. right. rewrite Hdocs2. constructor.
    + intros [Hin|Hin]%Hf1'; [|done].
      apply Hf0 in Hin as [?%elem_of_nil|Hin]; done.
    + apply Hkeep1; [|done].
      replace self2 with (assign_document_to_class self1 doc_id to_class_id).1
        by (by rewrite Hassign).
      apply assign_document_to_class_true. by rewrite Hassign.
  - rewrite Hturn in *. cbn [fst snd migrated failed] in *.
    assert (assigned (db (assign_document_to_class self2 doc_id from_class_id).1)
              doc_id from_class_id) as Hback.
    { apply assign_document_to_class_assigns.
      - by rewrite Hdocs2.
      - rewrite Hcls2. by eexists. }
    split; [done|]. split; [done|]. split; [|split].
    + apply Hf1. apply elem_of_app. right. constructor.
    + intros [Hin|Hin]%Hm1'; [|done].
      apply Hm0 in Hin as [?%elem_of_nil|Hin]; done.
    + by apply Hkeep1.
Qed.

(** C7 at the sample service with [doc1] and [doc4] in [class1]: the
    migration to [class2] moves [doc1]; the assignment of [doc4] fails,
    as the model cannot embed its chunk, and [doc4] is assigned to
    [class1] at the end. *)
Lemma migration_compensates_witness :
  documents_of_class (db Fixture.service_two_documents) "class1" = ["doc1"; "doc4"]
  ∧ (migrate_class_documents Fixture.service_two_documents "class1" "class2").2
    = inr {| migrated := [("doc1", "Math Textbook")]; failed := ["doc4"]; total := 2 |}
  ∧ assigned (db (migrate_class_documents Fixture.service_two_documents
                    "class1" "class2").1) "doc1" "class2"
  ∧ assigned (db (migrate_class_documents Fixture.service_two_documents
                    "class1" "class2").1) "doc4" "class1".
Proof.
  assert (is_Some (classes (db Fixture.service_two_documents) !! "class1")) as Hfrom
    by (vm_compute; eexists; reflexivity).
  assert (is_Some (classes (db Fixture.service_two_documents) !! "class2")) as Hto
    by (vm_compute; eexists; reflexivity).
  assert (documents_of_class (db Fixture.service_two_documents) "class1"
          = ["doc1"; "doc4"]) as Hdocs by (vm_compute; reflexivity).
  set (removed1 :=
         (remove_document_from_class
            (migration_state Fixture.service_two_documents "class1" "class2" [])
            "doc1" "class1").1).
  set (added1 := (assign_document_to_class removed1 "doc1" "class2").1).
  set (removed4 :=
         (remove_document_from_class
            (migration_state Fixture.service_two_documents "class1" "class2" ["doc1"])
            "doc4" "class1").1).
  set (added4 := (assign_document_to_class removed4 "doc4" "class2").1).
  destruct (migration_compensates Fixture.service_two_documents "class1" "class2"
              [] ["doc4"] "doc1" removed1 added1 true Hfrom Hto Hdocs)
    as (results1 & Hrun1 & _ & _ & _ & _ & Hmoved);
    [vm_compute; reflexivity | vm_compute; reflexivity |].
  destruct (migration_compensates Fixture.service_two_documents "class1" "class2"
              ["doc1"] [] "doc4" removed4 added4 false Hfrom Hto Hdocs)
    as (results4 & Hrun4 & _ & _ & _ & _ & _ & Hback);
    [vm_compute; reflexivity | vm_compute; reflexivity |].
  split; [exact Hdocs|]. split; [vm_compute; reflexivity|].
  split; [exact Hmoved | exact Hback].
Defined.

(** ** Claims about [RAGService] *)

Section RAGProperties.
Context `{Backend}.

Lemma passes_Some self chunk_id score chunk_id' chunk score' :
  passes self (chunk_id, score) = Some ((chunk_id', chunk), score') ↔
  chunk_id' = chunk_id ∧ score' = score
  ∧ (similarity_threshold <= score)%Q
  ∧ document_chunks (rag_db self) !! chunk_id = Some chunk.
Proof.
  unfold passes.
  destruct (Qle_bool similarity_threshold score) eqn:Hle.
  - apply Qle_bool_iff in Hle.
    destruct (document_chunks (rag_db self) !! chunk_id) as [ch|]; simpl.
    + split.
      * intros Heq. by inversion Heq; subst.
      * intros (-> & -> & _ & Heq). by inversion Heq.
    + split; [done|]. by intros (_ & _ & _ & ?).
  - split; [done|]. intros (_ & _ & Hc & _).
    apply Qle_bool_iff in Hc. congruence.
Qed.

Lemma _search_relevant_chunks_unfold self class_id q :
  _search_relevant_chunks self class_id q
  = take max_chunks
      (Py.sort_desc snd
         (omap (passes self) (search (rag_vector_db self) class_id q (max_chunks * 2)))).
Proof.
  unfold _search_relevant_chunks.
  destruct (search (rag_vector_db self) class_id q (max_chunks * 2)) as [|c cs] eqn:Hs;
    done.
Qed.

Lemma no_candidate_passes self class_id q :
  Forall (λ candidate, (candidate.2 < similarity_threshold)%Q)
    (search (rag_vector_db self) class_id q (max_chunks * 2)) →
  _search_relevant_chunks self class_id q = [].
Proof.
  intros Hall. rewrite _search_relevant_chunks_unfold.
  assert (omap (passes self) (search (rag_vector_db self) class_id q (max_chunks * 2))
          = []) as ->; [|done].
  induction Hall as [|[chunk_id score] l Hlt _ IH]; csimpl; [done|].
  rewrite IH. unfold passes.
  destruct (Qle_bool similarity_threshold score) eqn:Hle; [|done].
  apply Qle_bool_iff in Hle. simpl in Hlt. by apply Qlt_not_le in Hlt.
Qed.
End RAGProperties.



(** C6, as the code has it.  For a class that exists and a query the
    model embeds: when the class has no index, or an empty one, or no
    search candidate reaches the similarity threshold, [process_query]
    returns the refusal text with confidence 0, no citations, no used
    documents and [success = true]. *)
Theorem process_query_without_results `{Backend}
    (answer_from_context : string → string → string) (model_error_text : string)
    (validation_error_text : CitationResponse + Q → string)
    (self : RAGService) (query class_id student_id : string) (elapsed : nat)
    (query_embedding : Vec) :
  is_Some (classes (rag_db self) !! class_id) →
  generate_single_embedding query = Some query_embedding →
  indexes (rag_vector_db self) !! class_id = None
  ∨ indexes (rag_vector_db self) !! class_id = Some []
  ∨ Forall (λ candidate, (candidate.2 < similarity_threshold)%Q)
      (search (rag_vector_db self) class_id query_embedding (max_chunks * 2)) →
  process_query answer_from_context model_error_text validation_error_text
    self query class_id student_id elapsed
  = {| answer := "I can't find this in the school materials. Please make sure your question relates to the course content provided by your teacher.";
       citations := [];
       used_documents := [];
       confidence := 0;
       processing_time := elapsed;
       success := true;
       error := None |}.
Proof.
  intros [class_obj Hc] Hq Hcase. unfold process_query. rewrite Hc, Hq.
  assert (_search_relevant_chunks self class_id query_embedding = []) as ->; [|done].
  apply no_candidate_passes.
  destruct Hcase as [Hi|[Hi|Hall]]; [| |done].
  - unfold search. by rewrite Hi.
  - unfold search. rewrite Hi.
    by destruct (chunk_mappings (rag_vector_db self) !! class_id).
Qed.

(** C6 at a query service without any index. *)
Lemma process_query_without_results_witness :
  is_Some (classes (rag_db Fixture.rag_empty) !! "class1")
  ∧ generate_single_embedding (H := Fixture.backend) "What is algebra?"
    = Some [3 # 5; 4 # 5]
  ∧ indexes (rag_vector_db Fixture.rag_empty) !! "class1" = None
  ∧ success (process_query (λ _ context, context) "model unavailable" (λ _, "invalid")
               Fixture.rag_empty "What is algebra?" "class1" "student1" 12) = true.
Proof.
  assert (is_Some (classes (rag_db Fixture.rag_empty) !! "class1")) as Hc
    by (vm_compute; eexists; reflexivity).
  assert (generate_single_embedding (H := Fixture.backend) "What is algebra?"
          = Some [3 # 5; 4 # 5]) as Hq by (vm_compute; reflexivity).
  assert (indexes (rag_vector_db Fixture.rag_empty) !! "class1" = None) as Hi
    by (vm_compute; reflexivity).
  split; [exact Hc|]. split; [exact Hq|]. split; [exact Hi|].
  rewrite (process_query_without_results (λ _ context, context) "model unavailable"
             (λ _, "invalid")
             Fixture.rag_empty "What is algebra?" "class1" "student1" 12 _
             Hc Hq (or_introl Hi)).
  reflexivity.
Defined.

(** C6, where the claim as stated fails.  [class1] exists and the query
    service holds no index for it, yet the query is not answered with
    the refusal: the model raises on the query, before any search is
    made, and [process_query] returns the error response, with
    [success = false] and the text of the exception. *)
Lemma query_the_model_cannot_embed :
  is_Some (classes (rag_db Fixture.rag_empty) !! "class1")
  ∧ indexes (rag_vector_db Fixture.rag_empty) !! "class1" = None
  ∧ generate_single_embedding (H := Fixture.backend) "<unreadable>" = None
  ∧ process_query (λ _ context, context) "model unavailable" (λ _, "invalid")
      Fixture.rag_empty "<unreadable>" "class1" "student1" 12
    = {| answer := "I'm sorry, I encountered an error processing your question. Please try again.";
         citations := [];
         used_documents := [];
         confidence := 0;
         processing_time := 12;
         success := false;
         error := Some "model unavailable" |}.
Proof.
  split; [vm_compute; eexists; reflexivity|].
  split; [vm_compute; reflexivity|].
  split; vm_compute; reflexivity.
Qed.

(** ** Claims about [DocumentProcessor] *)

Lemma string_of_list_ascii_length (l : list ascii) :
  String.length (string_of_list_ascii l) = length l.
Proof. induction l as [|c l IH]; simpl; [done|]. by rewrite IH. Qed.

(** [re_split] on a few texts: runs of terminal punctuation and of
    white space form one separator, punctuation not followed by white
    space separates nothing, a separator at either end leaves an empty
    fragment there. *)
Example re_split_examples :
  string_of_list_ascii
    <$> DocumentProcessor.re_split
          (list_ascii_of_string "Hello world. This is it!  Next?! End.")
  = ["Hello world"; "This is it"; "Next"; "End."]
  ∧ string_of_list_ascii
      <$> DocumentProcessor.re_split (list_ascii_of_string "a.b c") = ["a.b c"]
  ∧ string_of_list_ascii
      <$> DocumentProcessor.re_split (list_ascii_of_string "abc. ") = ["abc"; ""]
  ∧ string_of_list_ascii
      <$> DocumentProcessor.re_split (list_ascii_of_string "x. . y") = ["x"; ""; "y"].
Proof. vm_compute. repeat split. Qed.

(** C8, as the code has it.  The sentences are the stripped fragments of
    [re.split] whose stripped length is more than 10, in the order of
    the fragments: a fragment of stripped length 11 or more is kept, every
    sentence returned has more than 10 characters, and so a fragment of
    stripped length 10 or less yields no sentence. *)
Theorem sentences_longer_than_ten (text : string) :
  DocumentProcessor._split_into_sentences text
  = (λ fragment, string_of_list_ascii (DocumentProcessor.strip fragment))
      <$> filter (λ fragment, 10 < length (DocumentProcessor.strip fragment))
            (DocumentProcessor.re_split (list_ascii_of_string text))
  ∧ (∀ fragment,
       fragment ∈ DocumentProcessor.re_split (list_ascii_of_string text) →
       11 ≤ length (DocumentProcessor.strip fragment) →
       string_of_list_ascii (DocumentProcessor.strip fragment)
       ∈ DocumentProcessor._split_into_sentences text)
  ∧ (∀ sentence,
       sentence ∈ DocumentProcessor._split_into_sentences text →
       10 < String.length sentence
       ∧ ∃ fragment,
           fragment ∈ DocumentProcessor.re_split (list_ascii_of_string text)
           ∧ sentence = string_of_list_ascii (DocumentProcessor.strip fragment)).
Proof.
  unfold DocumentProcessor._split_into_sentences, DocumentProcessor.split_sentences.
  set (fragments := DocumentProcessor.re_split (list_ascii_of_string text)).
  assert (omap (λ s, if decide (10 < length (DocumentProcessor.strip s))
                     then Some (DocumentProcessor.strip s) else None) fragments
          = DocumentProcessor.strip
              <$> filter (λ s, 10 < length (DocumentProcessor.strip s)) fragments)
    as ->.
  { induction fragments as [|f fs IH]; csimpl; [done|].
    rewrite filter_cons. case_decide; csimpl; by rewrite IH. }
  rewrite <- list_fmap_compose. split; [done|]. split.
  - intros fragment Hin Hlen.
    apply (list_elem_of_fmap_2
             (λ fragment, string_of_list_ascii (DocumentProcessor.strip fragment))).
    apply list_elem_of_filter. split; [lia|done].
  - intros sentence (fragment & -> & Hin)%list_elem_of_fmap.
    apply list_elem_of_filter in Hin as [Hlen Hin]. simpl.
    rewrite string_of_list_ascii_length. eauto.
Qed.

(** C8, where the claim as stated fails.  The first fragment has
    exactly 10 characters, which is "at least 10", and is discarded. *)
Lemma fragment_of_ten_characters_discarded :
  DocumentProcessor.re_split
    (list_ascii_of_string "0123456789. This is a longer sentence.")
  = [list_ascii_of_string "0123456789";
     list_ascii_of_string "This is a longer sentence."]
  ∧ length (DocumentProcessor.strip (list_ascii_of_string "0123456789")) = 10
  ∧ DocumentProcessor._split_into_sentences "0123456789. This is a longer sentence."
    = ["This is a longer sentence."].
Proof. vm_compute. repeat split. Qed.

(** ** Further properties of the services *)

Section FurtherProperties.
Context `{Backend}.

Lemma aligned_well_formed vdb : aligned vdb → well_formed vdb.
Proof.
  intros Ha class_id index Hi. destruct (Ha _ _ Hi) as (m & Hm & Hlen).
  exists m. split; [done|]. lia.
Qed.

End FurtherProperties.

(** X1.  On a database in which every mapping is as long as its index,
    [create_class_index] keeps that, and [add_embeddings] of a non-empty
    batch with one chunk id per vector succeeds, appends the normalised
    vectors to the class's index and the ids to its mapping, so that the
    lengths stay equal and every id already paired with a vector stays
    paired with it, the new ids being paired with the new vectors in
    order. *)
Theorem add_embeddings_keeps_alignment `{Backend}
    (vdb : VectorDatabase) (class_id : string)
    (embeddings : list Vec) (chunk_ids : list string) :
  aligned vdb →
  embeddings ≠ [] →
  length embeddings = length chunk_ids →
  aligned (create_class_index vdb class_id).1
  ∧ (add_embeddings vdb class_id embeddings chunk_ids).2 = true
  ∧ aligned (add_embeddings vdb class_id embeddings chunk_ids).1
  ∧ indexes (add_embeddings vdb class_id embeddings chunk_ids).1 !! class_id
    = Some (default [] (indexes vdb !! class_id) ++ (l2_normalize <$> embeddings))
  ∧ chunk_mappings (add_embeddings vdb class_id embeddings chunk_ids).1 !! class_id
    = Some (visible_mapping vdb class_id ++ chunk_ids)
  ∧ zip (visible_mapping vdb class_id ++ chunk_ids)
        (default [] (indexes vdb !! class_id) ++ (l2_normalize <$> embeddings))
    = zip (visible_mapping vdb class_id) (default [] (indexes vdb !! class_id))
      ++ zip chunk_ids (l2_normalize <$> embeddings).
Proof.
  intros Ha Hne Hlen.
  assert (length (visible_mapping vdb class_id)
          = length (default [] (indexes vdb !! class_id))) as Hvis.
  { unfold visible_mapping.
    destruct (indexes vdb !! class_id) as [index|] eqn:Hi; [|done].
    destruct (Ha _ _ Hi) as (m & -> & Hm). done. }
  split.
  { intros other index. simpl.
    destruct (decide (other = class_id)) as [->|Hother].
    - rewrite !lookup_insert_eq. intros [= <-]. by exists [].
    - rewrite !lookup_insert_ne by done. apply Ha. }
  rewrite add_embeddings_ok by (by apply aligned_well_formed || done).
  cbn [fst snd indexes chunk_mappings]. split; [done|]. split.
  { intros other index. cbn [indexes chunk_mappings].
    destruct (decide (other = class_id)) as [->|Hother].
    - rewrite !lookup_insert_eq. intros [= <-]. eexists. split; [done|].
      unfold Faiss.ntotal. rewrite !length_app, length_fmap. lia.
    - rewrite !lookup_insert_ne by done. apply Ha. }
  rewrite !lookup_insert_eq. split; [done|]. split; [done|].
  by apply zip_with_app.
Qed.

(** X1 at the sample index: two vectors added to a new index. *)
Lemma add_embeddings_keeps_alignment_witness :
  aligned (create_class_index (H := Fixture.backend) VectorDatabase_init "class1").1
  ∧ [Fixture.e1; Fixture.e2] ≠ []
  ∧ length [Fixture.e1; Fixture.e2] = length ["chunk1"; "chunk2"]
  ∧ chunk_mappings Fixture.vdb_two_documents !! "class1" = Some ["chunk1"; "chunk2"]
  ∧ indexes Fixture.vdb_two_documents !! "class1" = Some [Fixture.e1; Fixture.e2].
Proof.
  assert (aligned (create_class_index (H := Fixture.backend)
                     VectorDatabase_init "class1").1) as Ha.
  { intros other index. simpl.
    destruct (decide (other = "class1")) as [->|Hother].
    - rewrite !lookup_insert_eq. intros [= <-]. by exists [].
    - rewrite !lookup_insert_ne, lookup_empty by done. done. }
  assert ([Fixture.e1; Fixture.e2] ≠ []) as Hne by done.
  assert (length [Fixture.e1; Fixture.e2] = length ["chunk1"; "chunk2"]) as Hlen
    by reflexivity.
  destruct (add_embeddings_keeps_alignment _ "class1" _ _ Ha Hne Hlen)
    as (_ & _ & _ & Hi & Hm & _).
  split; [exact Ha|]. split; [exact Hne|]. split; [exact Hlen|].
  split; [exact Hm | exact Hi].
Defined.

(** X2.  [search] returns at most [k] pairs, in descending order of
    score, and nothing for a class without an index or with an empty
    one. *)
Theorem search_results_ranked `{Backend}
    (vdb : VectorDatabase) (class_id : string) (q : Vec) (k : nat) :
  descending snd (search vdb class_id q k)
  ∧ length (search vdb class_id q k) ≤ k
  ∧ (indexes vdb !! class_id = None ∨ indexes vdb !! class_id = Some [] →
     search vdb class_id q k = []).
Proof.
  split; [|split].
  - destruct (indexes vdb !! class_id) as [index|] eqn:Hi.
    + destruct (chunk_mappings vdb !! class_id) as [m|] eqn:Hm.
      * rewrite (search_unfold _ _ _ _ _ _ Hi Hm).
        destruct (translate_hits m _) as [results|] eqn:Hr; [|constructor].
        eapply translate_hits_descending; [apply faiss_search_descending|exact Hr].
      * unfold search. rewrite Hi, Hm. constructor.
    + unfold search. rewrite Hi. constructor.
  - apply search_length_le.
  - intros [Hi|Hi]; unfold search; rewrite Hi; [done|].
    by destruct (chunk_mappings vdb !! class_id).
Qed.

Section BulkAssignProperties.
Context `{Backend}.

Lemma bulk_assign_loop class_id document_ids acc :
  let acc' := foldl (bulk_assign_document class_id) acc document_ids in
  bulk_total acc'.2 = bulk_total acc.2
  ∧ length (successful acc'.2) + length (bulk_failed acc'.2)
    = length (successful acc.2) + length (bulk_failed acc.2) + length document_ids
  ∧ (∀ d, d ∈ successful acc'.2 ∨ d ∈ bulk_failed acc'.2 ↔
          d ∈ document_ids ∨ d ∈ successful acc.2 ∨ d ∈ bulk_failed acc.2)
  ∧ ((∀ d, d ∈ successful acc.2 → assigned (db acc.1) d class_id) →
     ∀ d, d ∈ successful acc'.2 → assigned (db acc'.1) d class_id).
Proof.
  revert acc. induction document_ids as [|x ids IH]; intros acc; cbn zeta.
  - simpl. split; [done|]. split; [lia|]. split; [|done].
    intros d. rewrite elem_of_nil. tauto.
  - cbn [foldl]. specialize (IH (bulk_assign_document class_id acc x)).
    cbn zeta in IH. destruct IH as (Ht & Hlen & Hmem & Hass).
    set (acc1 := bulk_assign_document class_id acc x) in *.
    assert (bulk_total acc1.2 = bulk_total acc.2
            ∧ ((successful acc1.2 = successful acc.2 ++ [x]
                ∧ bulk_failed acc1.2 = bulk_failed acc.2
                ∧ assigned (db acc1.1) x class_id)
               ∨ (successful acc1.2 = successful acc.2
                  ∧ bulk_failed acc1.2 = bulk_failed acc.2 ++ [x]))
            ∧ (∀ d, assigned (db acc.1) d class_id → assigned (db acc1.1) d class_id))
      as (Ht1 & Hturn & Hkeep).
    { unfold acc1. destruct acc as [self results]. unfold bulk_assign_document.
      pose proof (assign_document_to_class_true self x class_id) as Htrue.
      pose proof (assign_document_to_class_keeps self x class_id) as Hkeep.
      destruct (assign_document_to_class self x class_id) as [self' ok].
      cbn [fst snd] in *. destruct ok; cbn [fst snd successful bulk_failed bulk_total].
      - split; [done|]. split; [|by auto]. left. auto.
      - split; [done|]. split; [|by auto]. by right. }
    split; [congruence|]. split; [|split].
    + rewrite Hlen. simpl.
      destruct Hturn as [(-> & -> & _)|(-> & ->)]; rewrite length_app; simpl; lia.
    + intros d. rewrite Hmem, elem_of_cons.
      destruct Hturn as [(-> & -> & _)|(-> & ->)];
        rewrite elem_of_app, list_elem_of_singleton; tauto.
    + intros Hold. apply Hass. intros d Hd.
      destruct Hturn as [(Hs & _ & Hx)|(Hs & _)]; rewrite Hs in Hd.
      * apply elem_of_app in Hd as [Hd|Hd]; [by apply Hkeep, Hold|].
        apply list_elem_of_singleton in Hd. by subst.
      * by apply Hkeep, Hold.
Qed.
End BulkAssignProperties.

(** X3.  [bulk_assign_documents] reports every given document once:
    [total] is the number of ids given, [successful] and [failed]
    together have that many entries and hold exactly the given ids; and
    every document reported successful is assigned to the class in the
    final state. *)
Theorem bulk_assign_reports_every_document `{Backend}
    (self : ClassIsolationService) (document_ids : list string) (class_id : string) :
  bulk_total (bulk_assign_documents self document_ids class_id).2
  = length document_ids
  ∧ length (successful (bulk_assign_documents self document_ids class_id).2)
    + length (bulk_failed (bulk_assign_documents self document_ids class_id).2)
    = length document_ids
  ∧ (∀ d, d ∈ document_ids ↔
          d ∈ successful (bulk_assign_documents self document_ids class_id).2
          ∨ d ∈ bulk_failed (bulk_assign_documents self document_ids class_id).2)
  ∧ (∀ d, d ∈ successful (bulk_assign_documents self document_ids class_id).2 →
          assigned (db (bulk_assign_documents self document_ids class_id).1)
            d class_id).
Proof.
  unfold bulk_assign_documents.
  destruct (bulk_assign_loop class_id document_ids
              (self, {| successful := []; bulk_failed := [];
                        bulk_total := length document_ids |}))
    as (Ht & Hlen & Hmem & Hass).
  cbn [fst snd successful bulk_failed bulk_total] in *.
  split; [done|]. split; [simpl in Hlen; lia|]. split.
  - intros d. rewrite Hmem. rewrite !elem_of_nil. tauto.
  - apply Hass. by intros d ?%elem_of_nil.
Qed.

(** ** Batching in [generate_embeddings] *)

Lemma mapM_app_bind {A B} (g : A → option B) (l1 l2 : list A) :
  mapM g (l1 ++ l2) = k1 ← mapM g l1; k2 ← mapM g l2; Some (k1 ++ k2).
Proof.
  induction l1 as [|x l1 IH]; csimpl.
  - by destruct (mapM g l2).
  - destruct (g x) as [y|]; [|done].
    change (mapM g (l1 ++ l2) ≫= (λ k, Some (y :: k))
            = (mapM g l1 ≫= λ k, Some (y :: k))
              ≫= λ k1, mapM g l2 ≫= λ k2, Some (k1 ++ k2)).
    rewrite IH.
    destruct (mapM g l1) as [k1|]; [|done].
    by destruct (mapM g l2).
Qed.

Lemma mapM_concat {A B} (g : A → option B) (ls : list (list A)) :
  mapM g (concat ls) = e ← mapM (mapM g) ls; Some (concat e).
Proof.
  induction ls as [|l ls IH]; csimpl; [done|].
  rewrite mapM_app_bind, IH.
  destruct (mapM g l) as [k|]; csimpl; [|done].
  by destruct (mapM (mapM g) ls).
Qed.

Lemma mapM_compose {A B C} (g : B → option C) (h : A → B) (l : list A) :
  mapM (λ x, g (h x)) l = mapM g (h <$> l).
Proof.
  induction l as [|x l IH]; csimpl; [done|].
  destruct (g (h x)) as [y|]; [|done].
  change (mapM (λ x, g (h x)) l ≫= (λ k, Some (y :: k))
          = mapM g (h <$> l) ≫= (λ k, Some (y :: k))).
  by rewrite IH.
Qed.

(** The slices [texts[i:i+b]] for [i] in [range(0, len(texts), b)] put
    end to end are the texts. *)
Lemma concat_slices {A} (l : list A) (b : nat) :
  0 < b →
  concat ((λ i, Py.slice l i (i + b)) <$> Py.range_step (length l) b) = l.
Proof.
  intros Hb. unfold Py.range_step, Py.slice.
  rewrite <- list_fmap_compose.
  assert (∀ m, concat ((λ j, take (j * b + b - j * b) (drop (j * b) l)) <$> seq 0 m)
               = take (m * b) l) as Hm.
  { induction m as [|m IH]; [done|].
    rewrite seq_S, fmap_app, concat_app, IH. simpl.
    rewrite app_nil_r. replace (m * b + b - m * b) with b by lia.
    rewrite take_take_drop. f_equal. lia. }
  unfold compose. rewrite Hm. apply take_ge.
  pose proof (Nat.div_mod_eq (length l + b - 1) b) as Hdiv.
  pose proof (Nat.mod_upper_bound (length l + b - 1) b) as Hmod.
  nia.
Qed.

(** X4.  For a model that encodes every text on its own (the batch
    fails when one of its texts does), the batching of
    [generate_embeddings] changes nothing: the result is the one of
    encoding all texts at once. *)
Theorem generate_embeddings_batching `{Backend}
    (encode_text : string → option Vec) (texts : list string) :
  (∀ batch, encode batch = mapM encode_text batch) →
  generate_embeddings texts = encode texts.
Proof.
  intros Hrow. unfold generate_embeddings.
  destruct texts as [|t texts]; [by rewrite Hrow|].
  set (all := t :: texts).
  rewrite (mapM_ext _ (λ i, mapM encode_text (Py.slice all i (i + 32))))
    by (intros i; apply Hrow).
  rewrite (mapM_compose (mapM encode_text) (λ i, Py.slice all i (i + 32))).
  rewrite <- mapM_concat, concat_slices by lia. by rewrite Hrow.
Qed.

Lemma fixture_encode_by_text (batch : list string) :
  encode (Backend := Fixture.backend) batch
  = mapM (λ text, if decide (text = "<unreadable>") then None
                  else Some (Fixture.embed_text text)) batch.
Proof.
  simpl. induction batch as [|text batch IH]; csimpl; [done|].
  destruct (decide (text = "<unreadable>")) as [->|Hne].
  - rewrite decide_True by constructor. done.
  - change ((if decide ("<unreadable>" ∈ text :: batch)
             then None
             else Some (Fixture.embed_text text :: (Fixture.embed_text <$> batch)))
            = mapM (λ text, if decide (text = "<unreadable>") then None
                            else Some (Fixture.embed_text text)) batch
              ≫= λ k, Some (Fixture.embed_text text :: k)).
    rewrite <- IH.
    destruct (decide ("<unreadable>" ∈ batch)) as [Hin|Hnin].
    + rewrite decide_True by (by constructor). done.
    + rewrite decide_False; [done|].
      intros [Heq|Hin]%elem_of_cons; [by apply Hne|by apply Hnin].
Qed.

(** X4 at the sample backend. *)
Lemma generate_embeddings_batching_witness :
  generate_embeddings (H := Fixture.backend) ["Math content"; "Science content"]
  = Some [Fixture.e1; Fixture.e2].
Proof.
  rewrite (generate_embeddings_batching _ _ fixture_encode_by_text).
  reflexivity.
Defined.

(** ** The read side of [ClassIsolationService] *)

Section ReadSideProperties.
Context `{Backend}.

Lemma verify_student_access_true self student_id class_id :
  verify_student_access self student_id class_id = true ↔
  (∃ class_obj, classes (db self) !! class_id = Some class_obj
                ∧ class_enabled class_obj = true)
  ∧ (∃ access, access ∈ student_access (db self)
               ∧ sa_student_id access = student_id
               ∧ sa_class_id access = class_id
               ∧ sa_enabled access = true).
Proof.
  unfold verify_student_access.
  destruct (classes (db self) !! class_id) as [class_obj|] eqn:Hc.
  - destruct (class_enabled class_obj) eqn:He; simpl.
    + rewrite bool_decide_eq_true, head_filter_is_Some. split.
      * intros (a & Ha & ? & ? & ?). split; eauto 10.
      * intros [_ (a & Ha & ? & ? & ?)]. eauto 10.
    + split; [done|]. intros [(c' & Hc' & He') _]. congruence.
  - split; [done|]. intros [(c' & Hc' & _) _]. done.
Qed.

Lemma get_class_documents_spec self class_id document_id :
  document_id ∈ get_class_documents self class_id ↔
  is_Some (classes (db self) !! class_id)
  ∧ assigned (db self) document_id class_id
  ∧ is_Some (documents (db self) !! document_id).
Proof.
  unfold get_class_documents.
  destruct (classes (db self) !! class_id) as [class_obj|].
  - rewrite documents_of_class_spec. split; [intros [? ?]|intros (_ & ? & ?)]; eauto.
  - rewrite elem_of_nil. split; [done|]. by intros [[? ?] _].
Qed.

Lemma get_class_documents_NoDup self class_id :
  NoDup (get_class_documents self class_id).
Proof.
  unfold get_class_documents. destruct (classes (db self) !! class_id).
  - apply documents_of_class_NoDup.
  - constructor.
Qed.
End ReadSideProperties.

(** X5.  [get_student_classes] and [verify_student_access] agree: the
    rows returned for a student are the stored rows of exactly the
    classes for which the student's access verifies, each once. *)
Theorem get_student_classes_are_the_verified `{Backend}
    (self : ClassIsolationService) (student_id : string) :
  NoDup (get_student_classes self student_id).*1
  ∧ ∀ class_id class_obj,
      (class_id, class_obj) ∈ get_student_classes self student_id ↔
      classes (db self) !! class_id = Some class_obj
      ∧ verify_student_access self student_id class_id = true.
Proof.
  split.
  - apply NoDup_fst_map_to_list.
  - intros class_id class_obj. unfold get_student_classes.
    rewrite elem_of_map_to_list, map_lookup_filter_Some.
    rewrite verify_student_access_true. cbn [fst snd].
    rewrite list_elem_of_fmap. split.
    + intros (Hc & (a & -> & Ha) & He). apply list_elem_of_filter in Ha as [[? ?] ?].
      split; [done|]. split; eauto 10.
    + intros (Hc & (c' & Hc' & He) & (a & Ha & ? & ? & ?)).
      assert (c' = class_obj) as -> by congruence.
      split; [done|]. split; [|done].
      exists a. split; [done|]. by apply list_elem_of_filter.
Qed.

(** X6.  [verify_query_isolation] grants exactly when
    [verify_student_access] does.  A refusal lists no document and
    carries no count; a grant lists, each once, the stored documents
    assigned to the class, counts them, and reports the number of
    vectors of the class's index.  The query text has no part in the
    answer. *)
Theorem verify_query_isolation_answer `{Backend}
    (self : ClassIsolationService) (student_id class_id query : string) :
  allowed (verify_query_isolation self student_id class_id query)
  = verify_student_access self student_id class_id
  ∧ (verify_student_access self student_id class_id = false →
     accessible_documents (verify_query_isolation self student_id class_id query) = []
     ∧ document_count (verify_query_isolation self student_id class_id query) = None
     ∧ vector_index_size (verify_query_isolation self student_id class_id query) = None)
  ∧ (verify_student_access self student_id class_id = true →
     NoDup (accessible_documents (verify_query_isolation self student_id class_id query))
     ∧ (∀ document_id,
          document_id
            ∈ accessible_documents (verify_query_isolation self student_id class_id query)
          ↔ assigned (db self) document_id class_id
            ∧ is_Some (documents (db self) !! document_id))
     ∧ document_count (verify_query_isolation self student_id class_id query)
       = Some (length (accessible_documents
                         (verify_query_isolation self student_id class_id query)))
     ∧ vector_index_size (verify_query_isolation self student_id class_id query)
       = Some (length (default [] (indexes (vector_db self) !! class_id))))
  ∧ ∀ other_query,
      verify_query_isolation self student_id class_id other_query
      = verify_query_isolation self student_id class_id query.
Proof.
  unfold verify_query_isolation.
  destruct (verify_student_access self student_id class_id) eqn:Hv; simpl.
  - split; [done|]. split; [done|]. split; [|done]. intros _.
    apply verify_student_access_true in Hv as [(class_obj & Hc & _) _].
    split; [apply get_class_documents_NoDup|]. split; [|split; [done|]].
    + intros document_id. rewrite get_class_documents_spec, Hc.
      split; [by intros (_ & ? & ?)|intros [? ?]; eauto].
    + unfold get_index_stats. by destruct (indexes (vector_db self) !! class_id).
  - done.
Qed.

Lemma filter_none {A} (P : A → Prop) `{!∀ x, Decision (P x)} (l : list A) :
  Forall (λ x, ¬ P x) l → filter P l = [].
Proof.
  induction 1 as [|x l Hx Hl IH]; [done|].
  by rewrite filter_cons, decide_False.
Qed.

Lemma omap_nil_iff {A B} (f : A → option B) (l : list A) :
  omap f l = [] ↔ ∀ x, x ∈ l → f x = None.
Proof.
  induction l as [|x l IH]; csimpl.
  - split; [|done]. by intros _ x ?%elem_of_nil.
  - destruct (f x) as [y|] eqn:Hx.
    + split; [done|]. intros Hall. specialize (Hall x). rewrite Hx in Hall.
      discriminate Hall. constructor.
    + rewrite IH. split.
      * intros Hall y [->|Hy]%elem_of_cons; auto.
      * intros Hall y Hy. apply Hall. by constructor.
Qed.

(** X7.  The verdict of [audit_class_isolation] is read off the
    relational tables alone.  For a class that exists the report says
    [SECURE] exactly when every stored document that has at least one
    chunk is assigned to the audited class, and [WARNING] otherwise;
    every listed leak is a stored document not assigned to the class,
    with its number of chunks; and whatever the vector database holds,
    verdict and leaks are the same. *)
Theorem audit_verdict_reads_tables_only `{Backend}
    (self : ClassIsolationService) (class_id : string) :
  is_Some (classes (db self) !! class_id) →
  ∃ report,
    audit_class_isolation self class_id = inr report
    ∧ (isolation_status report = "SECURE" ∨ isolation_status report = "WARNING")
    ∧ (isolation_status report = "SECURE" ↔
       ∀ chunk_id chunk,
         document_chunks (db self) !! chunk_id = Some chunk →
         is_Some (documents (db self) !! chunk_document_id chunk) →
         assigned (db self) (chunk_document_id chunk) class_id)
    ∧ (∀ leak, leak ∈ potential_leaks report →
         is_Some (documents (db self) !! leak_document_id leak)
         ∧ ¬ assigned (db self) (leak_document_id leak) class_id
         ∧ 0 < leak_chunk_count leak
         ∧ leak_chunk_count leak
           = length (chunks_of_document (db self) (leak_document_id leak)))
    ∧ assigned_documents report = length (get_class_documents self class_id)
    ∧ enabled_students report ≤ total_students report
    ∧ ∀ vdb,
        ∃ report',
          audit_class_isolation {| db := db self; vector_db := vdb |} class_id
          = inr report'
          ∧ isolation_status report' = isolation_status report
          ∧ potential_leaks report' = potential_leaks report.
Proof.
  intros [class_obj Hc]. unfold audit_class_isolation, get_class_documents.
  cbn [db]. rewrite Hc. eexists. split; [done|].
  cbn [isolation_status potential_leaks assigned_documents enabled_students
       total_students].
  set (leaks := omap _ (map_to_list (documents (db self)))).
  split; [by destruct leaks; auto|]. split; [|split; [|split; [done|split]]].
  - transitivity (leaks = []); [by destruct leaks|].
    unfold leaks. rewrite omap_nil_iff. split.
    + intros Hnone chunk_id chunk Hchunk [doc Hdoc].
      specialize (Hnone (chunk_document_id chunk, doc)).
      rewrite elem_of_map_to_list in Hnone. specialize (Hnone Hdoc).
      cbn [fst snd] in Hnone.
      destruct (decide (chunk_document_id chunk ∉ documents_of_class (db self) class_id))
        as [Hnot|Hin].
      * destruct (decide (0 < length (chunks_of_document (db self)
                                         (chunk_document_id chunk)))) as [?|Hnil];
          [done|].
        assert ((chunk_id, chunk) ∈ chunks_of_document (db self)
                                      (chunk_document_id chunk)) as Hin
          by (by apply chunks_of_document_spec).
        destruct (chunks_of_document _ _); [by apply elem_of_nil in Hin|].
        simpl in Hnil. lia.
      * apply dec_stable in Hin. by apply documents_of_class_spec in Hin as [? _].
    + intros Hall [doc_id doc] Hdoc%elem_of_map_to_list. cbn [fst snd].
      case_decide as Hnot; [|done]. case_decide as Hlen; [|done].
      exfalso. apply Hnot.
      destruct (chunks_of_document (db self) doc_id) as [|[chunk_id chunk] rest] eqn:Hch;
        [simpl in Hlen; lia|].
      assert ((chunk_id, chunk) ∈ chunks_of_document (db self) doc_id) as Hin
        by (rewrite Hch; constructor).
      apply chunks_of_document_spec in Hin as [Hchunk <-].
      apply documents_of_class_spec. split; [|by eexists].
      apply (Hall chunk_id chunk Hchunk). by eexists.
  - intros leak ([doc_id doc] & Hdoc%elem_of_map_to_list & Hleak)%list_elem_of_omap.
    cbn [fst snd] in Hleak.
    case_decide as Hnot; [|done]. case_decide as Hlen; [|done]. simplify_eq.
    cbn [leak_document_id leak_chunk_count].
    split; [by eexists|]. split; [|done].
    intros Ha. apply Hnot, documents_of_class_spec. split; [done|by eexists].
  - apply length_filter.
  - intros vdb. eexists. split; [done|]. done.
Qed.

(** X7 at the sample service after [doc1] was assigned to [class1]: the
    other three documents have chunks, and the audit of [class1] warns. *)
Lemma audit_verdict_reads_tables_only_witness :
  is_Some (classes (db Fixture.service_doc1) !! "class1")
  ∧ ∃ report,
      audit_class_isolation Fixture.service_doc1 "class1" = inr report
      ∧ isolation_status report = "WARNING"
      ∧ length (potential_leaks report) = 3.
Proof.
  assert (is_Some (classes (db Fixture.service_doc1) !! "class1")) as Hc
    by (vm_compute; eexists; reflexivity).
  split; [exact Hc|].
  destruct (audit_verdict_reads_tables_only Fixture.service_doc1 "class1" Hc)
    as (report & Hreport & _).
  exists report. split; [exact Hreport|].
  vm_compute in Hreport. injection Hreport as <-. split; reflexivity.
Defined.

(** ** [cleanup_orphaned_data] *)

Lemma foldl_delete_lookup {A} (m : gmap string A) (l : list (string * A)) (k : string) :
  foldl (λ m row, delete row.1 m) m l !! k
  = if decide (k ∈ l.*1) then None else m !! k.
Proof.
  revert m. induction l as [|[k' v] l IH]; intros m; [done|].
  cbn [foldl fst]. rewrite fmap_cons. cbn [fst].
  - rewrite IH. destruct (decide (k ∈ l.*1)) as [Hin|Hnin].
    + rewrite decide_True; [done|]. by right.
    + destruct (decide (k = k')) as [->|Hne].
      * rewrite lookup_delete_eq, decide_True; [done|]. by left.
      * rewrite lookup_delete_ne by done. rewrite decide_False; [done|].
        by intros [?|?]%elem_of_cons.
Qed.

(** Deleting from a table the rows a query selected leaves the rows the
    query did not select. *)
Lemma delete_selected_rows {A} (P : string * A → Prop) `{!∀ x, Decision (P x)}
    (m : gmap string A) :
  foldl (λ m row, delete row.1 m) m (map_to_list (filter P m))
  = filter (λ row, ¬ P row) m.
Proof.
  apply map_eq. intros k. rewrite foldl_delete_lookup.
  destruct (decide (k ∈ (map_to_list (filter P m)).*1)) as [Hin|Hnin].
  - symmetry. apply map_lookup_filter_None. right. intros v Hv HP.
    apply list_elem_of_fmap in Hin as ([k' v'] & -> & Hin).
    apply elem_of_map_to_list, map_lookup_filter_Some in Hin as [Hv' HP'].
    simpl in *. by simplify_eq.
  - destruct (m !! k) as [v|] eqn:Hv; symmetry.
    + apply map_lookup_filter_Some. split; [done|]. intros HP. apply Hnin.
      apply list_elem_of_fmap. exists (k, v). split; [done|].
      by apply elem_of_map_to_list, map_lookup_filter_Some.
    + apply map_lookup_filter_None. by left.
Qed.

Section CleanupProperties.
Context `{Backend}.

Lemma delete_orphaned_loop l db0 results :
  foldl delete_orphaned_chunk (db0, results) l
  = ({| classes := classes db0; documents := documents db0;
        document_chunks := foldl (λ m row, delete row.1 m) (document_chunks db0) l;
        student_access := student_access db0;
        class_documents := class_documents db0 |},
     {| orphaned_chunks := orphaned_chunks results + length l;
        empty_indexes := empty_indexes results;
        invalid_assignments := invalid_assignments results |}).
Proof.
  revert db0 results. induction l as [|row l IH]; intros db0 results.
  - destruct db0, results. simpl. do 2 f_equal. lia.
  - cbn [foldl]. unfold delete_orphaned_chunk at 2. rewrite IH. simpl.
    do 2 f_equal. lia.
Qed.

Lemma needs_rebuild_create self class_id other :
  needs_rebuild self class_id →
  needs_rebuild (create_class_collection self class_id).1 other
  ↔ needs_rebuild self other.
Proof.
  intros [Hzero Hdocs]. rewrite create_class_collection_unfold.
  destruct (classes (db self) !! class_id); [|done].
  unfold needs_rebuild, get_index_stats in *. cbn [fst db vector_db indexes
    chunk_mappings create_class_index].
  destruct (decide (other = class_id)) as [->|Hne].
  - rewrite lookup_insert_eq. cbn [total_vectors]. rewrite Hzero. done.
  - by rewrite !lookup_insert_ne.
Qed.

(** One turn of the second loop. *)
Lemma rebuild_empty_index_turn acc row :
  is_Some (classes (db acc.1) !! row.1) →
  let acc1 := rebuild_empty_index acc row in
  db acc1.1 = db acc.1
  ∧ orphaned_chunks acc1.2 = orphaned_chunks acc.2
  ∧ invalid_assignments acc1.2 = invalid_assignments acc.2
  ∧ (∀ other, needs_rebuild acc1.1 other ↔ needs_rebuild acc.1 other)
  ∧ (∀ other,
       indexes (vector_db acc1.1) !! other
       = if decide (other = row.1 ∧ needs_rebuild acc.1 other) then Some []
         else indexes (vector_db acc.1) !! other)
  ∧ (∀ other,
       chunk_mappings (vector_db acc1.1) !! other
       = if decide (other = row.1 ∧ needs_rebuild acc.1 other) then Some []
         else chunk_mappings (vector_db acc.1) !! other)
  ∧ empty_indexes acc1.2
    = empty_indexes acc.2 + (if decide (needs_rebuild acc.1 row.1) then 1 else 0).
Proof.
  destruct acc as [self results]. intros [class_obj Hc]. cbn [fst snd] in *.
  unfold rebuild_empty_index. fold (needs_rebuild self row.1).
  destruct (decide (needs_rebuild self row.1)) as [Hneeds|Hnot]; cbn [fst snd].
  - pose proof (needs_rebuild_create self row.1) as Hsame.
    rewrite create_class_collection_unfold in *. rewrite Hc in *. cbn [fst] in *.
    unfold create_class_index.
    cbn [fst db vector_db indexes chunk_mappings
         orphaned_chunks invalid_assignments empty_indexes].
    split; [done|]. split; [done|]. split; [done|].
    split; [intros other; by apply Hsame|].
    split; [|split; [|done]]; intros other;
      (destruct (decide (other = row.1)) as [->|Hne];
       [rewrite lookup_insert_eq, decide_True by done; done
       |rewrite lookup_insert_ne by done; rewrite decide_False; [done|];
        by intros [? _]]).
  - split; [done|]. split; [done|]. split; [done|]. split; [done|].
    split; [|split; [|lia]]; intros other;
      (rewrite decide_False; [done|]; by intros [-> ?]).
Qed.

Lemma rebuild_loop l acc :
  (∀ row, row ∈ l → is_Some (classes (db acc.1) !! row.1)) →
  let acc' := foldl rebuild_empty_index acc l in
  db acc'.1 = db acc.1
  ∧ orphaned_chunks acc'.2 = orphaned_chunks acc.2
  ∧ invalid_assignments acc'.2 = invalid_assignments acc.2
  ∧ (∀ other,
       indexes (vector_db acc'.1) !! other
       = if decide (other ∈ l.*1 ∧ needs_rebuild acc.1 other) then Some []
         else indexes (vector_db acc.1) !! other)
  ∧ (∀ other,
       chunk_mappings (vector_db acc'.1) !! other
       = if decide (other ∈ l.*1 ∧ needs_rebuild acc.1 other) then Some []
         else chunk_mappings (vector_db acc.1) !! other)
  ∧ empty_indexes acc'.2
    = empty_indexes acc.2
      + length (filter (λ row : string * Class, needs_rebuild acc.1 row.1) l).
Proof.
  revert acc. induction l as [|row l IH]; intros acc Hl; cbn zeta.
  - cbn [foldl filter list_filter length]. split; [done|]. split; [done|]. split; [done|].
    split; [|split; [|lia]]; intros other;
      (rewrite decide_False; [done|]; by intros [?%elem_of_nil _]).
  - cbn [foldl].
    destruct (rebuild_empty_index_turn acc row) as (Hdb & Ho & Hi & Hsame & Hix & Hm & He);
      [apply Hl; constructor|].
    set (acc1 := rebuild_empty_index acc row) in *.
    destruct (IH acc1) as (Hdb' & Ho' & Hi' & Hix' & Hm' & He').
    { intros row' Hrow'. rewrite Hdb. apply Hl. by constructor. }
    split; [congruence|]. split; [congruence|]. split; [congruence|].
    assert (∀ other,
              (other ∈ (row :: l).*1 ∧ needs_rebuild acc.1 other)
              ↔ (other ∈ l.*1 ∧ needs_rebuild acc1.1 other)
                ∨ (other = row.1 ∧ needs_rebuild acc.1 other)) as Hsplit.
    { intros other. rewrite Hsame, fmap_cons, elem_of_cons. tauto. }
    split; [|split].
    + intros other. rewrite Hix', Hix.
      destruct (decide (other ∈ l.*1 ∧ needs_rebuild acc1.1 other)) as [Hd|Hd].
      * rewrite decide_True; [done|]. apply Hsplit. by left.
      * destruct (decide (other = row.1 ∧ needs_rebuild acc.1 other)) as [Hd'|Hd'].
        -- rewrite decide_True; [done|]. apply Hsplit. by right.
        -- rewrite decide_False; [done|]. rewrite Hsplit. tauto.
    + intros other. rewrite Hm', Hm.
      destruct (decide (other ∈ l.*1 ∧ needs_rebuild acc1.1 other)) as [Hd|Hd].
      * rewrite decide_True; [done|]. apply Hsplit. by left.
      * destruct (decide (other = row.1 ∧ needs_rebuild acc.1 other)) as [Hd'|Hd'].
        -- rewrite decide_True; [done|]. apply Hsplit. by right.
        -- rewrite decide_False; [done|]. rewrite Hsplit. tauto.
    + rewrite He', He, filter_cons.
      rewrite (list_filter_iff _ (λ row : string * Class, needs_rebuild acc.1 row.1))
        by (intros ?; apply Hsame).
      destruct (decide (needs_rebuild acc.1 row.1)); simpl; lia.
Qed.

(** The state and the counters [cleanup_orphaned_data] ends with. *)
Lemma cleanup_orphaned_data_spec self :
  let self' := (cleanup_orphaned_data self).1 in
  let results := (cleanup_orphaned_data self).2 in
  classes (db self') = classes (db self)
  ∧ documents (db self') = documents (db self)
  ∧ student_access (db self') = student_access (db self)
  ∧ class_documents (db self') = class_documents (db self)
  ∧ document_chunks (db self') = filter (has_parent (db self)) (document_chunks (db self))
  ∧ orphaned_chunks results = length (orphaned_chunk_rows (db self))
  ∧ invalid_assignments results = 0
  ∧ empty_indexes results
    = length (filter (λ row : string * Class, needs_rebuild self row.1)
                     (map_to_list (classes (db self))))
  ∧ (∀ class_id,
       indexes (vector_db self') !! class_id
       = if decide (is_Some (classes (db self) !! class_id) ∧ needs_rebuild self class_id)
         then Some [] else indexes (vector_db self) !! class_id)
  ∧ (∀ class_id,
       chunk_mappings (vector_db self') !! class_id
       = if decide (is_Some (classes (db self) !! class_id) ∧ needs_rebuild self class_id)
         then Some [] else chunk_mappings (vector_db self) !! class_id).
Proof.
  cbn zeta. unfold cleanup_orphaned_data. rewrite delete_orphaned_loop.
  cbn [classes orphaned_chunks empty_indexes invalid_assignments].
  set (db1 := {| classes := classes (db self) |}).
  set (self1 := {| db := db1; vector_db := vector_db self |}).
  set (results1 := {| orphaned_chunks := 0 + _ |}).
  destruct (rebuild_loop (map_to_list (classes (db self))) (self1, results1))
    as (Hdb & Ho & Hi & Hix & Hm & He).
  { intros [class_id class_obj] Hrow%elem_of_map_to_list. by eexists. }
  cbn [fst snd] in *.
  assert (∀ class_id, needs_rebuild self1 class_id ↔ needs_rebuild self class_id)
    as Hsame by done.
  assert (∀ class_id,
            class_id ∈ (map_to_list (classes (db self))).*1
            ↔ is_Some (classes (db self) !! class_id)) as Hdom.
  { intros class_id. rewrite list_elem_of_fmap. split.
    - intros ([c class_obj] & -> & Hrow%elem_of_map_to_list). by eexists.
    - intros [class_obj Hc]. exists (class_id, class_obj).
      split; [done|]. by apply elem_of_map_to_list. }
  rewrite Hdb, Ho, Hi, He. cbn [db classes documents student_access class_documents
    document_chunks orphaned_chunks invalid_assignments empty_indexes results1 db1 self1].
  split; [done|]. split; [done|]. split; [done|]. split; [done|].
  split.
  { unfold orphaned_chunk_rows. rewrite delete_selected_rows.
    apply map_filter_ext. intros chunk_id chunk _. unfold has_parent. cbn [snd].
    split; [apply dec_stable|by intros ? ?]. }
  split; [done|]. split; [done|]. split.
  { by rewrite Nat.add_0_l. }
  split; intros class_id; [rewrite Hix|rewrite Hm]; cbn [vector_db self1];
    apply decide_ext; by rewrite Hdom, Hsame.
Qed.
End CleanupProperties.

Section CleanupTwice.
Context `{Backend}.

Lemma ClassIsolationService_eq (self1 self2 : ClassIsolationService) :
  classes (db self1) = classes (db self2) →
  documents (db self1) = documents (db self2) →
  document_chunks (db self1) = document_chunks (db self2) →
  student_access (db self1) = student_access (db self2) →
  class_documents (db self1) = class_documents (db self2) →
  indexes (vector_db self1) = indexes (vector_db self2) →
  chunk_mappings (vector_db self1) = chunk_mappings (vector_db self2) →
  self1 = self2.
Proof.
  destruct self1 as [[] []], self2 as [[] []]. simpl. by intros -> -> -> -> -> -> ->.
Qed.

Lemma documents_of_class_tables db1 db2 class_id :
  documents db1 = documents db2 →
  class_documents db1 = class_documents db2 →
  documents_of_class db1 class_id = documents_of_class db2 class_id.
Proof. unfold documents_of_class. by intros -> ->. Qed.

Lemma needs_rebuild_cleanup self class_id :
  needs_rebuild (cleanup_orphaned_data self).1 class_id ↔ needs_rebuild self class_id.
Proof.
  destruct (cleanup_orphaned_data_spec self)
    as (Hc & Hd & _ & Ha & _ & _ & _ & _ & Hix & _).
  cbn zeta in *. unfold needs_rebuild at 1, get_index_stats.
  rewrite Hix, (documents_of_class_tables _ (db self)) by done.
  destruct (decide (is_Some (classes (db self) !! class_id)
                    ∧ needs_rebuild self class_id)) as [[_ Hn]|Hn].
  - cbn [total_vectors Faiss.ntotal length]. split; [done|]. intros _.
    split; [done|]. apply Hn.
  - unfold needs_rebuild, get_index_stats.
    by destruct (indexes (vector_db self) !! class_id).
Qed.

End CleanupTwice.

(** X8.  [cleanup_orphaned_data] deletes exactly the chunk rows whose
    document is not stored: a chunk row is there afterwards exactly when
    it was there before and its document is stored; the counter
    [orphaned_chunks] is the number of rows that went; classes,
    documents, access records and assignments are as before, and
    [invalid_assignments] is reported as 0 whatever the assignments
    are. *)
Theorem cleanup_deletes_the_orphaned_chunks `{Backend} (self : ClassIsolationService) :
  (∀ chunk_id chunk,
     document_chunks (db (cleanup_orphaned_data self).1) !! chunk_id = Some chunk ↔
     document_chunks (db self) !! chunk_id = Some chunk
     ∧ is_Some (documents (db self) !! chunk_document_id chunk))
  ∧ orphaned_chunks (cleanup_orphaned_data self).2
    + size (document_chunks (db (cleanup_orphaned_data self).1))
    = size (document_chunks (db self))
  ∧ classes (db (cleanup_orphaned_data self).1) = classes (db self)
  ∧ documents (db (cleanup_orphaned_data self).1) = documents (db self)
  ∧ student_access (db (cleanup_orphaned_data self).1) = student_access (db self)
  ∧ class_documents (db (cleanup_orphaned_data self).1) = class_documents (db self)
  ∧ invalid_assignments (cleanup_orphaned_data self).2 = 0.
Proof.
  destruct (cleanup_orphaned_data_spec self)
    as (Hc & Hd & Hs & Ha & Hch & Ho & Hi & _).
  cbn zeta in *. split; [|split; [|done]].
  - intros chunk_id chunk. rewrite Hch. apply map_lookup_filter_Some.
  - rewrite Ho, Hch. unfold orphaned_chunk_rows. rewrite length_map_to_list.
    rewrite Nat.add_comm.
    change (filter _ (document_chunks (db self)))
      with (filter (λ row, ¬ has_parent (db self) row) (document_chunks (db self))) at 2.
    rewrite <- map_size_disj_union by apply map_disjoint_filter_complement.
    f_equal. apply map_filter_union_complement.
Qed.

(** X9.  The rebuilding step of [cleanup_orphaned_data] puts no vector
    back.  A class that has stored documents assigned and whose index is
    missing or empty ends with an empty index and an empty mapping, so
    that every search on it still returns nothing and the class still
    meets the test of the step; [empty_indexes] counts these classes.
    The index and the mapping of every other class are left as they
    are, with whatever ids of deleted chunks they hold. *)
Theorem cleanup_rebuild_restores_no_vector `{Backend} (self : ClassIsolationService) :
  (∀ class_id,
     is_Some (classes (db self) !! class_id) → needs_rebuild self class_id →
     indexes (vector_db (cleanup_orphaned_data self).1) !! class_id = Some []
     ∧ chunk_mappings (vector_db (cleanup_orphaned_data self).1) !! class_id = Some []
     ∧ (∀ q k, search (vector_db (cleanup_orphaned_data self).1) class_id q k = [])
     ∧ needs_rebuild (cleanup_orphaned_data self).1 class_id)
  ∧ (∀ class_id,
       ¬ (is_Some (classes (db self) !! class_id) ∧ needs_rebuild self class_id) →
       indexes (vector_db (cleanup_orphaned_data self).1) !! class_id
       = indexes (vector_db self) !! class_id
       ∧ chunk_mappings (vector_db (cleanup_orphaned_data self).1) !! class_id
         = chunk_mappings (vector_db self) !! class_id)
  ∧ empty_indexes (cleanup_orphaned_data self).2
    = length (filter (λ row : string * Class, needs_rebuild self row.1)
                     (map_to_list (classes (db self)))).
Proof.
  destruct (cleanup_orphaned_data_spec self)
    as (_ & _ & _ & _ & _ & _ & _ & He & Hix & Hm).
  cbn zeta in *. split; [|split; [|done]].
  - intros class_id Hc Hn.
    assert (indexes (vector_db (cleanup_orphaned_data self).1) !! class_id = Some [])
      as Hi by (by rewrite Hix, decide_True).
    split; [done|]. split; [by rewrite Hm, decide_True|].
    split; [|by apply needs_rebuild_cleanup].
    intros q k. unfold search. rewrite Hi.
    by destruct (chunk_mappings _ !! class_id).
  - intros class_id Hnot. by rewrite Hix, Hm, !decide_False.
Qed.

(** X10.  Running [cleanup_orphaned_data] again changes nothing and
    finds no orphaned chunk, yet reports the same number of empty
    indexes as the first run: the classes it rebuilt are rebuilt
    again. *)
Theorem cleanup_second_run `{Backend} (self : ClassIsolationService) :
  cleanup_orphaned_data (cleanup_orphaned_data self).1
  = ((cleanup_orphaned_data self).1,
     {| orphaned_chunks := 0;
        empty_indexes := empty_indexes (cleanup_orphaned_data self).2;
        invalid_assignments := 0 |}).
Proof.
  pose proof (needs_rebuild_cleanup self) as Hneeds.
  destruct (cleanup_orphaned_data_spec self)
    as (Hc & Hd & Hs & Ha & Hch & Ho & Hi & He & Hix & Hm).
  destruct (cleanup_orphaned_data_spec (cleanup_orphaned_data self).1)
    as (Hc' & Hd' & Hs' & Ha' & Hch' & Ho' & Hi' & He' & Hix' & Hm').
  cbn zeta in *.
  set (self' := (cleanup_orphaned_data self).1) in *.
  destruct (cleanup_orphaned_data self') as [self'' results''].
  cbn [fst snd] in *.
  assert (filter (has_parent (db self')) (document_chunks (db self'))
          = document_chunks (db self')) as Hkept.
  { apply map_filter_id. intros chunk_id chunk. rewrite Hch.
    intros [_ Hp]%map_lookup_filter_Some. unfold has_parent in *. by rewrite Hd. }
  f_equal.
  - apply ClassIsolationService_eq; try congruence.
    + apply map_eq. intros class_id. rewrite Hix'.
      case_decide as Hcase; [|done]. destruct Hcase as [Hex Hn%Hneeds].
      rewrite Hc in Hex. by rewrite Hix, decide_True.
    + apply map_eq. intros class_id. rewrite Hm'.
      case_decide as Hcase; [|done]. destruct Hcase as [Hex Hn%Hneeds].
      rewrite Hc in Hex. by rewrite Hm, decide_True.
  - destruct results''. cbn in *. f_equal;
      [|rewrite He', He, Hc; f_equal; apply list_filter_iff; intros row; apply Hneeds
       |done].
    rewrite Ho'. unfold orphaned_chunk_rows.
    replace (filter _ (document_chunks (db self'))) with (∅ : gmap string DocumentChunk);
      [by rewrite map_to_list_empty|].
    symmetry. apply map_empty_filter_2. intros chunk_id chunk Hchunk. cbn [snd].
    intros Hnot. apply Hnot. rewrite <- Hkept in Hchunk.
    by apply map_lookup_filter_Some in Hchunk as [_ ?].
Qed.

(** ** The files of the vector database *)

Section PersistentProperties.
Context `{Backend}.

(** [search] on a class reads the class's entries of the two
    dictionaries and nothing else. *)
Lemma search_ext vdb1 vdb2 class_id q k :
  indexes vdb1 !! class_id = indexes vdb2 !! class_id →
  chunk_mappings vdb1 !! class_id = chunk_mappings vdb2 !! class_id →
  search vdb1 class_id q k = search vdb2 class_id q k.
Proof. unfold search. by intros -> ->. Qed.

Lemma visible_mapping_ext vdb1 vdb2 class_id :
  indexes vdb1 !! class_id = indexes vdb2 !! class_id →
  chunk_mappings vdb1 !! class_id = chunk_mappings vdb2 !! class_id →
  visible_mapping vdb1 class_id = visible_mapping vdb2 class_id.
Proof. unfold visible_mapping. by intros -> ->. Qed.

(** The result of [save_index] is the one of the model without files. *)
Lemma save_index_result vdb files class_id :
  (Persistent.save_index vdb files class_id).2 = save_index vdb class_id.
Proof.
  unfold Persistent.save_index, save_index.
  destruct (indexes vdb !! class_id); [|done].
  by destruct (chunk_mappings vdb !! class_id).
Qed.

(** The services with the files threaded through are the services. *)
Lemma assign_document_to_class_files self files document_id class_id :
  (Persistent.assign_document_to_class self files document_id class_id).1.1
  = (assign_document_to_class self document_id class_id).1
  ∧ (Persistent.assign_document_to_class self files document_id class_id).2
    = (assign_document_to_class self document_id class_id).2.
Proof.
  unfold Persistent.assign_document_to_class, assign_document_to_class.
  destruct (documents (db self) !! document_id); [|done].
  destruct (classes (db self) !! class_id); [|done].
  case_decide; [done|].
  destruct (chunks_of_document _ _); [done|].
  destruct EmbeddingService_init; [|done].
  by destruct (generate_embeddings _).
Qed.

Lemma remove_document_from_class_files self files document_id class_id :
  (Persistent.remove_document_from_class self files document_id class_id).1.1
  = (remove_document_from_class self document_id class_id).1
  ∧ (Persistent.remove_document_from_class self files document_id class_id).2
    = (remove_document_from_class self document_id class_id).2.
Proof.
  unfold Persistent.remove_document_from_class, remove_document_from_class.
  destruct (documents (db self) !! document_id); [|done].
  by destruct (classes (db self) !! class_id).
Qed.

Lemma save_index_files vdb files class_id other :
  (Persistent.save_index vdb files class_id).2 = true →
  saved_index (Persistent.save_index vdb files class_id).1 other
  = (if decide (other = class_id) then indexes vdb !! class_id
     else saved_index files other)
  ∧ saved_mapping (Persistent.save_index vdb files class_id).1 other
    = (if decide (other = class_id) then chunk_mappings vdb !! class_id
       else saved_mapping files other).
Proof.
  unfold Persistent.save_index, saved_index, saved_mapping.
  destruct (indexes vdb !! class_id) as [index|]; [|done].
  destruct (chunk_mappings vdb !! class_id) as [m|]; [|done]. intros _.
  cbn [fst Persistent.index_files Persistent.mapping_files].
  destruct (decide (other = class_id)) as [->|Hne].
  - by rewrite !lookup_insert_eq.
  - by rewrite !lookup_insert_ne.
Qed.

Lemma load_index_lookup vdb files class_id other :
  indexes (Persistent.load_index vdb files class_id).1 !! other
  = (if decide (other = class_id ∧ is_Some (saved_index files class_id))
     then saved_index files class_id else indexes vdb !! other)
  ∧ chunk_mappings (Persistent.load_index vdb files class_id).1 !! other
    = (if decide (other = class_id ∧ is_Some (saved_mapping files class_id))
       then saved_mapping files class_id else chunk_mappings vdb !! other).
Proof.
  unfold Persistent.load_index, saved_index, saved_mapping.
  destruct (Persistent.index_files files !! class_id) as [index|];
    [|split; rewrite decide_False; try done; by intros [_ [? ?]]].
  destruct (Persistent.mapping_files files !! class_id) as [[m|]|];
    cbn [fst indexes chunk_mappings].
  - destruct (decide (other = class_id)) as [->|Hne].
    + rewrite !lookup_insert_eq, !decide_True; done.
    + rewrite !lookup_insert_ne by done.
      split; rewrite decide_False; try done; by intros [? _].
  - destruct (decide (other = class_id)) as [->|Hne].
    + rewrite !lookup_insert_eq, decide_True by done.
      split; [done|]. rewrite decide_False; [done|]. by intros [_ [? ?]].
    + rewrite !lookup_insert_ne by done.
      split; rewrite decide_False; try done; by intros [? _].
  - split; rewrite decide_False; try done; by intros [_ [? ?]].
Qed.

Lemma load_loop_lookup (l : list (string * Class)) vdb files other :
  let vdb' := foldl (λ vdb class_obj, (Persistent.load_index vdb files class_obj.1).1)
                    vdb l in
  indexes vdb' !! other
  = (if decide (other ∈ l.*1 ∧ is_Some (saved_index files other))
     then saved_index files other else indexes vdb !! other)
  ∧ chunk_mappings vdb' !! other
    = (if decide (other ∈ l.*1 ∧ is_Some (saved_mapping files other))
       then saved_mapping files other else chunk_mappings vdb !! other).
Proof.
  revert vdb. induction l as [|row l IH]; intros vdb; cbn zeta.
  - cbn [foldl]. split; rewrite decide_False; try done; by intros [?%elem_of_nil _].
  - cbn [foldl]. destruct (IH (Persistent.load_index vdb files row.1).1) as [Hi Hm].
    cbn zeta in Hi, Hm. rewrite Hi, Hm.
    destruct (load_index_lookup vdb files row.1 other) as [-> ->].
    rewrite fmap_cons. split.
    + destruct (decide (other ∈ l.*1 ∧ is_Some (saved_index files other))) as [[? ?]|Hd].
      * rewrite decide_True; [done|]. split; [by right|done].
      * destruct (decide (other = row.1 ∧ is_Some (saved_index files row.1)))
          as [[-> ?]|Hd'].
        -- rewrite decide_True; [done|]. split; [by left|done].
        -- rewrite decide_False; [done|]. intros [[->|?]%elem_of_cons ?]; tauto.
    + destruct (decide (other ∈ l.*1 ∧ is_Some (saved_mapping files other)))
        as [[? ?]|Hd].
      * rewrite decide_True; [done|]. split; [by right|done].
      * destruct (decide (other = row.1 ∧ is_Some (saved_mapping files row.1)))
          as [[-> ?]|Hd'].
        -- rewrite decide_True; [done|]. split; [by left|done].
        -- rewrite decide_False; [done|]. intros [[->|?]%elem_of_cons ?]; tauto.
Qed.

(** What a new query service holds for a class: what the directory
    gives for it when the class is stored, and nothing otherwise. *)
Lemma RAGService_init_lookup db0 files rag class_id :
  Persistent.RAGService_init db0 files = Some rag →
  rag_db rag = db0
  ∧ indexes (rag_vector_db rag) !! class_id
    = (if decide (is_Some (classes db0 !! class_id)) then saved_index files class_id
       else None)
  ∧ chunk_mappings (rag_vector_db rag) !! class_id
    = (if decide (is_Some (classes db0 !! class_id)) then saved_mapping files class_id
       else None).
Proof.
  unfold Persistent.RAGService_init, Persistent._load_existing_indexes.
  destruct EmbeddingService_init; [|done]. intros [= <-]. cbn [rag_db rag_vector_db].
  split; [done|].
  destruct (load_loop_lookup (map_to_list (classes db0)) VectorDatabase_init files class_id)
    as [-> ->].
  assert (class_id ∈ (map_to_list (classes db0)).*1 ↔ is_Some (classes db0 !! class_id))
    as Hdom.
  { rewrite list_elem_of_fmap. split.
    - intros ([c class_obj] & -> & Hrow%elem_of_map_to_list). by eexists.
    - intros [class_obj Hc]. exists (class_id, class_obj).
      split; [done|]. by apply elem_of_map_to_list. }
  cbn [VectorDatabase_init indexes chunk_mappings]. rewrite !lookup_empty.
  destruct (decide (is_Some (classes db0 !! class_id))) as [Hc|Hc].
  - split.
    + destruct (saved_index files class_id) eqn:Hs.
      * rewrite decide_True; [done|]. split; [by apply Hdom|by eexists].
      * by case_decide.
    + destruct (saved_mapping files class_id) eqn:Hs.
      * rewrite decide_True; [done|]. split; [by apply Hdom|by eexists].
      * by case_decide.
  - split; rewrite decide_False; try done; intros [?%Hdom _]; done.
Qed.
End PersistentProperties.

(** X11.  Saving and loading round-trip.  When [save_index] succeeds
    for a class, [load_index] of that class into any vector database
    succeeds and puts there the index and the mapping that were saved,
    so that every search on the class returns what it returned on the
    database that was saved; the entries of the other classes of the
    receiving database, and the files of the other classes, are
    untouched. *)
Theorem load_index_after_save_index `{Backend}
    (vdb vdb0 : VectorDatabase) (files : Persistent.DataDir) (class_id : string) :
  (Persistent.save_index vdb files class_id).2 = true →
  let files' := (Persistent.save_index vdb files class_id).1 in
  (Persistent.load_index vdb0 files' class_id).2 = true
  ∧ indexes (Persistent.load_index vdb0 files' class_id).1 !! class_id
    = indexes vdb !! class_id
  ∧ chunk_mappings (Persistent.load_index vdb0 files' class_id).1 !! class_id
    = chunk_mappings vdb !! class_id
  ∧ (∀ q k, search (Persistent.load_index vdb0 files' class_id).1 class_id q k
            = search vdb class_id q k)
  ∧ (∀ other, other ≠ class_id →
       indexes (Persistent.load_index vdb0 files' class_id).1 !! other
       = indexes vdb0 !! other
       ∧ chunk_mappings (Persistent.load_index vdb0 files' class_id).1 !! other
         = chunk_mappings vdb0 !! other
       ∧ Persistent.index_files files' !! other = Persistent.index_files files !! other
       ∧ Persistent.mapping_files files' !! other
         = Persistent.mapping_files files !! other).
Proof.
  intros Hsaved. cbn zeta.
  destruct (save_index_files vdb files class_id class_id Hsaved) as [Hsi Hsm].
  rewrite decide_True in Hsi by done. rewrite decide_True in Hsm by done.
  assert (is_Some (indexes vdb !! class_id) ∧ is_Some (chunk_mappings vdb !! class_id))
    as [[index Hi] [m Hm]].
  { revert Hsaved. unfold Persistent.save_index.
    destruct (indexes vdb !! class_id); [|done].
    destruct (chunk_mappings vdb !! class_id); [|done]. by split; eexists. }
  set (files' := (Persistent.save_index vdb files class_id).1) in *.
  assert (indexes (Persistent.load_index vdb0 files' class_id).1 !! class_id
          = indexes vdb !! class_id
          ∧ chunk_mappings (Persistent.load_index vdb0 files' class_id).1 !! class_id
            = chunk_mappings vdb !! class_id) as [Hli Hlm].
  { destruct (load_index_lookup vdb0 files' class_id class_id) as [-> ->].
    rewrite Hsi, Hsm, Hi, Hm. by rewrite !decide_True by (split; [done|by eexists]). }
  split; [|split; [done|split; [done|split]]].
  - revert Hsi Hsm. unfold saved_index, saved_mapping, Persistent.load_index.
    rewrite Hi, Hm.
    destruct (Persistent.index_files files' !! class_id); [|done].
    by destruct (Persistent.mapping_files files' !! class_id) as [[?|]|].
  - intros q k. by apply search_ext.
  - intros other Hne.
    destruct (load_index_lookup vdb0 files' class_id other) as [-> ->].
    rewrite !decide_False by (by intros [? _]). split; [done|]. split; [done|].
    unfold files', Persistent.save_index. rewrite Hi, Hm.
    cbn [fst Persistent.index_files Persistent.mapping_files].
    by rewrite !lookup_insert_ne.
Qed.

(** X11 at the sample index of two documents, loaded into an empty
    database. *)
Lemma load_index_after_save_index_witness :
  (Persistent.save_index Fixture.vdb_two_documents
     (Persistent.mkDataDir ∅ ∅) "class1").2 = true
  ∧ chunk_mappings
      (Persistent.load_index VectorDatabase_init
         (Persistent.save_index Fixture.vdb_two_documents
            (Persistent.mkDataDir ∅ ∅) "class1").1 "class1").1 !! "class1"
    = Some ["chunk1"; "chunk2"].
Proof.
  assert ((Persistent.save_index Fixture.vdb_two_documents
             (Persistent.mkDataDir ∅ ∅) "class1").2 = true) as Hsaved by reflexivity.
  split; [exact Hsaved|].
  destruct (load_index_after_save_index Fixture.vdb_two_documents VectorDatabase_init
              (Persistent.mkDataDir ∅ ∅) "class1" Hsaved) as (_ & _ & Hm & _).
  rewrite Hm. reflexivity.
Defined.

(** X12.  A new query service holds, for every stored class, what the
    directory gives: the saved index when both files of the class
    exist, and the saved mapping when the mapping file holds one.  For
    a class that is not stored, or a class without both files, it holds
    no index, and every search on that class returns nothing. *)
Theorem new_query_service_reads_the_files `{Backend}
    (db0 : Session) (files : Persistent.DataDir) (rag : RAGService) (class_id : string) :
  Persistent.RAGService_init db0 files = Some rag →
  (is_Some (classes db0 !! class_id) →
   indexes (rag_vector_db rag) !! class_id = saved_index files class_id
   ∧ chunk_mappings (rag_vector_db rag) !! class_id = saved_mapping files class_id)
  ∧ (classes db0 !! class_id = None ∨ saved_index files class_id = None →
     indexes (rag_vector_db rag) !! class_id = None
     ∧ ∀ q k, search (rag_vector_db rag) class_id q k = []).
Proof.
  intros Hinit.
  destruct (RAGService_init_lookup _ _ _ class_id Hinit) as (_ & Hi & Hm).
  split.
  - intros Hc. by rewrite Hi, Hm, !decide_True.
  - intros Hnone.
    assert (indexes (rag_vector_db rag) !! class_id = None) as Hnoindex.
    { rewrite Hi. destruct Hnone as [Hc| ->]; [|by case_decide].
      rewrite decide_False; [done|]. rewrite Hc. by intros [? ?]. }
    split; [done|]. intros q k. unfold search. by rewrite Hnoindex.
Qed.

(** ** Services built anew for each request

    Every endpoint of [api/isolation.py] builds a
    [ClassIsolationService], whose vector database starts empty, and
    every endpoint of [api/queries.py] a [RAGService], which loads the
    saved files. *)

Section NewServiceProperties.
Context `{Backend}.

Lemma RAGService_init_classes db1 db2 files :
  classes db1 = classes db2 →
  rag_vector_db <$> Persistent.RAGService_init db1 files
  = rag_vector_db <$> Persistent.RAGService_init db2 files.
Proof.
  unfold Persistent.RAGService_init, Persistent._load_existing_indexes.
  intros ->. by destruct EmbeddingService_init.
Qed.

Lemma RAGService_init_visible db0 files rag class_id :
  Persistent.RAGService_init db0 files = Some rag →
  is_Some (classes db0 !! class_id) →
  visible_mapping (rag_vector_db rag) class_id
  = default [] (saved_mapping files class_id).
Proof.
  intros Hinit Hc.
  destruct (RAGService_init_lookup _ _ _ class_id Hinit) as (_ & Hi & Hm).
  unfold visible_mapping. rewrite Hi, Hm, !decide_True by done.
  unfold saved_index, saved_mapping.
  destruct (Persistent.index_files files !! class_id); [|done].
  by destruct (Persistent.mapping_files files !! class_id) as [[?|]|].
Qed.

(** What an assignment made by a new service leaves in the directory. *)
Lemma new_service_assignment db0 files document_id class_id embeddings :
  is_Some (documents db0 !! document_id) →
  is_Some (classes db0 !! class_id) →
  ¬ assigned db0 document_id class_id →
  chunks_of_document db0 document_id ≠ [] →
  EmbeddingService_init = Some () →
  generate_embeddings ((λ chunk, content chunk.2) <$> chunks_of_document db0 document_id)
  = Some embeddings →
  embeddings ≠ [] →
  Persistent.assign_document_to_class (ClassIsolationService_init db0) files
    document_id class_id
  = ({| db := append_assignment db0 document_id class_id;
        vector_db :=
          {| indexes := {[ class_id := l2_normalize <$> embeddings ]};
             chunk_mappings :=
               {[ class_id := (chunks_of_document db0 document_id).*1 ]} |} |},
     {| Persistent.index_files :=
          <[class_id := l2_normalize <$> embeddings]> (Persistent.index_files files);
        Persistent.mapping_files :=
          <[class_id := Some (chunks_of_document db0 document_id).*1]>
            (Persistent.mapping_files files) |},
     true).
Proof.
  intros [document Hd] [class_obj Hc] Hna Hchunks Hinit Hgen Hne.
  unfold Persistent.assign_document_to_class, ClassIsolationService_init.
  cbn [db vector_db]. rewrite Hd, Hc, decide_False by done.
  change (chunks_of_document (append_assignment db0 document_id class_id) document_id)
    with (chunks_of_document db0 document_id).
  destruct (chunks_of_document db0 document_id) as [|chunk chunks] eqn:Hch; [done|].
  rewrite Hinit, Hgen.
  rewrite add_embeddings_ok by (apply well_formed_init || done).
  rewrite visible_mapping_init. cbn [fst VectorDatabase_init indexes chunk_mappings].
  rewrite lookup_empty. cbn [default app].
  unfold Persistent.save_index. cbn [indexes chunk_mappings].
  rewrite !lookup_insert_eq. cbn [fst Persistent.index_files Persistent.mapping_files].
  rewrite !insert_empty. done.
Qed.
End NewServiceProperties.

(** X12 at the sample data and the saved index of two documents:
    [class1] is read back, [class2] has no file. *)
Lemma new_query_service_reads_the_files_witness :
  Persistent.RAGService_init Fixture.sample_data Saved.files_two_documents
  = Some Saved.rag_loaded
  ∧ chunk_mappings (rag_vector_db Saved.rag_loaded) !! "class1"
    = Some ["chunk1"; "chunk2"]
  ∧ search (rag_vector_db Saved.rag_loaded) "class2" Fixture.e1 5 = [].
Proof.
  assert (Persistent.RAGService_init Fixture.sample_data Saved.files_two_documents
          = Some Saved.rag_loaded) as Hinit by (vm_compute; reflexivity).
  destruct (new_query_service_reads_the_files _ _ _ "class1" Hinit) as [Hone _].
  destruct (new_query_service_reads_the_files _ _ _ "class2" Hinit) as [_ Htwo].
  split; [exact Hinit|]. split.
  - destruct Hone as [_ Hm]; [vm_compute; eexists; reflexivity|].
    rewrite Hm. vm_compute. reflexivity.
  - apply Htwo. right. vm_compute. reflexivity.
Defined.

(** X13.  An assignment made by a new [ClassIsolationService] saves the
    index of that one document.  When the document and the class are
    stored, the document is not yet assigned to the class, has chunks,
    and the model embeds them one vector each, the call succeeds and the
    two files of the class then hold the normalised vectors and the ids
    of the chunks of that document and nothing else, whatever the files
    held before; the files of the other classes are as before.  A query
    service built afterwards reads for the class exactly those ids. *)
Theorem new_service_assignment_saves_one_document `{Backend}
    (db0 : Session) (files : Persistent.DataDir) (document_id class_id : string) :
  is_Some (documents db0 !! document_id) →
  is_Some (classes db0 !! class_id) →
  ¬ assigned db0 document_id class_id →
  chunks_of_document db0 document_id ≠ [] →
  embeds_well db0 document_id →
  let r := Persistent.assign_document_to_class (ClassIsolationService_init db0) files
             document_id class_id in
  r.2 = true
  ∧ assigned (db r.1.1) document_id class_id
  ∧ saved_mapping r.1.2 class_id = Some (chunks_of_document db0 document_id).*1
  ∧ (∃ embeddings,
       generate_embeddings
         ((λ chunk, content chunk.2) <$> chunks_of_document db0 document_id)
       = Some embeddings
       ∧ saved_index r.1.2 class_id = Some (l2_normalize <$> embeddings))
  ∧ (∀ other, other ≠ class_id →
       saved_index r.1.2 other = saved_index files other
       ∧ saved_mapping r.1.2 other = saved_mapping files other)
  ∧ ∀ rag,
      Persistent.RAGService_init (db r.1.1) r.1.2 = Some rag →
      visible_mapping (rag_vector_db rag) class_id
      = (chunks_of_document db0 document_id).*1.
Proof.
  intros Hd Hc Hna Hchunks (Hinit & embeddings & Hgen & Hlen). cbn zeta.
  assert (embeddings ≠ []) as Hne.
  { intros ->. destruct (chunks_of_document db0 document_id); [done|discriminate Hlen]. }
  rewrite (new_service_assignment _ _ _ _ embeddings) by done.
  cbn [fst snd db].
  set (files' := {| Persistent.index_files := _ |}).
  assert (saved_mapping files' class_id = Some (chunks_of_document db0 document_id).*1)
    as Hsaved.
  { unfold saved_mapping, files'. cbn [Persistent.index_files Persistent.mapping_files].
    by rewrite !lookup_insert_eq. }
  split; [done|]. split; [apply assigned_append; by left|]. split; [done|].
  split; [|split].
  - exists embeddings. split; [done|]. unfold saved_index, files'.
    cbn [Persistent.index_files Persistent.mapping_files]. by rewrite !lookup_insert_eq.
  - intros other Hne'. unfold saved_index, saved_mapping, files'.
    cbn [Persistent.index_files Persistent.mapping_files].
    by rewrite !lookup_insert_ne.
  - intros rag Hrag. rewrite (RAGService_init_visible _ _ _ _ Hrag) by done.
    by rewrite Hsaved.
Qed.

(** X13 at the sample data: [doc1] assigned to [class1] by a new
    service while the directory holds the index of two documents. *)
Lemma new_service_assignment_saves_one_document_witness :
  is_Some (documents Fixture.sample_data !! "doc1")
  ∧ is_Some (classes Fixture.sample_data !! "class1")
  ∧ ¬ assigned Fixture.sample_data "doc1" "class1"
  ∧ chunks_of_document Fixture.sample_data "doc1" ≠ []
  ∧ embeds_well (H := Fixture.backend) Fixture.sample_data "doc1"
  ∧ saved_mapping Saved.files_two_documents "class1" = Some ["chunk1"; "chunk2"]
  ∧ saved_mapping
      (Persistent.assign_document_to_class (ClassIsolationService_init Fixture.sample_data)
         Saved.files_two_documents "doc1" "class1").1.2 "class1"
    = Some ["chunk1"].
Proof.
  assert (is_Some (documents Fixture.sample_data !! "doc1")) as Hd
    by (vm_compute; eexists; reflexivity).
  assert (is_Some (classes Fixture.sample_data !! "class1")) as Hc
    by (vm_compute; eexists; reflexivity).
  assert (¬ assigned Fixture.sample_data "doc1" "class1") as Hna
    by (unfold assigned; simpl; apply not_elem_of_empty).
  assert (chunks_of_document Fixture.sample_data "doc1" ≠ []) as Hchunks
    by (vm_compute; discriminate).
  assert (embeds_well (H := Fixture.backend) Fixture.sample_data "doc1") as Hembeds
    by (split; [reflexivity|eexists; split; vm_compute; reflexivity]).
  destruct (new_service_assignment_saves_one_document Fixture.sample_data
              Saved.files_two_documents "doc1" "class1" Hd Hc Hna Hchunks Hembeds)
    as (_ & _ & Hsaved & _).
  split; [exact Hd|]. split; [exact Hc|]. split; [exact Hna|].
  split; [exact Hchunks|]. split; [exact Hembeds|].
  split; [vm_compute; reflexivity|].
  rewrite Hsaved. vm_compute. reflexivity.
Defined.

(** X14.  A removal made by a new [ClassIsolationService] writes no
    file: its vector database holds no index, so nothing is removed
    from a mapping and [save_index] gives up.  The directory is as it
    was, and a query service built after the removal holds the same
    vector database as one built before it. *)
Theorem new_service_removal_writes_no_file `{Backend}
    (db0 : Session) (files : Persistent.DataDir) (document_id class_id : string) :
  (Persistent.remove_document_from_class (ClassIsolationService_init db0) files
     document_id class_id).1.2 = files
  ∧ vector_db (Persistent.remove_document_from_class (ClassIsolationService_init db0)
                 files document_id class_id).1.1
    = VectorDatabase_init
  ∧ rag_vector_db
      <$> Persistent.RAGService_init
            (db (Persistent.remove_document_from_class (ClassIsolationService_init db0)
                   files document_id class_id).1.1)
            files
    = rag_vector_db <$> Persistent.RAGService_init db0 files.
Proof.
  unfold Persistent.remove_document_from_class, ClassIsolationService_init.
  cbn [db vector_db].
  destruct (documents db0 !! document_id); [|done].
  destruct (classes db0 !! class_id); [|done].
  unfold remove_document_embeddings, Persistent.save_index.
  cbn [VectorDatabase_init indexes]. rewrite !lookup_empty. cbn [fst snd db vector_db].
  split; [done|]. split; [done|].
  apply RAGService_init_classes. by case_decide.
Qed.

(** ** The response of [process_query] *)

Lemma Qsum_lower_bound (t : Q) (l : list Q) :
  Forall (λ x, (t <= x)%Q) l →
  (t * inject_Z (Z.of_nat (length l)) <= foldr Qplus 0%Q l)%Q.
Proof.
  induction 1 as [|x l Hx Hl IH]; simpl length; simpl foldr.
  - change (inject_Z (Z.of_nat 0)) with 0%Q. lra.
  - rewrite Nat2Z.inj_succ, <- Z.add_1_r, inject_Z_plus.
    change (inject_Z 1) with 1%Q. lra.
Qed.

Lemma mean_lower_bound (t : Q) (l : list Q) :
  l ≠ [] → Forall (λ x, (t <= x)%Q) l → (t <= mean l)%Q.
Proof.
  intros Hne Hall. apply Qle_shift_div_l.
  - destruct l; [done|]. simpl length.
    change 0%Q with (inject_Z 0). rewrite <- Zlt_Qlt. lia.
  - by apply Qsum_lower_bound.
Qed.

Lemma string_length_append (s1 s2 : string) :
  String.length (String.append s1 s2) = String.length s1 + String.length s2.
Proof. induction s1 as [|c s1 IH]; simpl; [done|]. by rewrite IH. Qed.

Lemma string_length_substring (n : nat) (s : string) :
  String.length (substring 0 n s) = n `min` String.length s.
Proof.
  revert s. induction n as [|n IH]; intros [|c s]; simpl; try done.
  by rewrite IH.
Qed.

Section ResponseProperties.
Context `{Backend}.

Lemma _search_relevant_chunks_elem self class_id q r :
  r ∈ _search_relevant_chunks self class_id q →
  (r.1.1, r.2) ∈ search (rag_vector_db self) class_id q (max_chunks * 2)
  ∧ (similarity_threshold <= r.2)%Q
  ∧ document_chunks (rag_db self) !! r.1.1 = Some r.1.2.
Proof.
  rewrite _search_relevant_chunks_unfold. intros Hin%subseteq_take.
  apply sort_desc_elem, list_elem_of_omap in Hin as ([id s] & Hin & Hp).
  destruct r as [[chunk_id chunk] score].
  apply passes_Some in Hp as (-> & -> & ? & ?). done.
Qed.

Lemma _search_relevant_chunks_descending self class_id q :
  descending snd (_search_relevant_chunks self class_id q).
Proof.
  rewrite _search_relevant_chunks_unfold. apply descending_take, sort_desc_sorted.
Qed.

Lemma _search_relevant_chunks_length self class_id q :
  length (_search_relevant_chunks self class_id q) ≤ max_chunks.
Proof. rewrite _search_relevant_chunks_unfold, length_take. lia. Qed.

(** Once a constructor has raised, the loop is over. *)
Lemma cite_rejected self rejected (l : list RelevantChunk) :
  foldl (cite self) (inl rejected) l = inl rejected.
Proof. induction l as [|r l IH]; [done|]. simpl. apply IH. Qed.

(** The loop of [_generate_response], from any state.  When it ends
    without a validation error, every citation asked for was accepted:
    the citations are those of the chunks whose document is stored, in
    order, and the used documents are extended by the documents cited
    for the first time.  Otherwise it ends at the first citation the
    schema rejects. *)
Lemma collect_citations_loop self (l : list RelevantChunk) context_parts citations used :
  match foldl (cite self) (inr (context_parts, citations, used)) l with
  | inr (context_parts', citations', used') =>
      Forall (λ citation, citation_is_valid citation = true) (omap (citation_of self) l)
      ∧ context_parts' = context_parts ++ ((λ r : RelevantChunk, content r.1.2) <$> l)
      ∧ citations' = citations ++ omap (citation_of self) l
      ∧ (NoDup used.*1 → NoDup used'.*1)
      ∧ (∀ d, d ∈ used'.*1 ↔
              d ∈ used.*1 ∨ d ∈ citation_document_id <$> omap (citation_of self) l)
      ∧ (Forall (λ entry, reference_id entry.2 = entry.1) used →
         Forall (λ entry, reference_id entry.2 = entry.1) used')
  | inl rejected =>
      ∃ accepted others,
        omap (citation_of self) l = accepted ++ rejected :: others
        ∧ Forall (λ citation, citation_is_valid citation = true) accepted
        ∧ citation_is_valid rejected = false
  end.
Proof.
  revert context_parts citations used.
  induction l as [|[[chunk_id chunk] score] l IH]; intros context_parts citations used.
  - cbn [foldl]. rewrite !app_nil_r. split; [constructor|]. split; [done|].
    split; [done|]. split; [done|]. split; [|done].
    intros d. csimpl. rewrite elem_of_nil. tauto.
  - assert (omap (citation_of self) (((chunk_id, chunk), score) :: l)
            = match documents (rag_db self) !! chunk_document_id chunk with
              | Some document =>
                  citation_fields chunk_id chunk document score
                  :: omap (citation_of self) l
              | None => omap (citation_of self) l
              end) as Hhead.
    { csimpl. unfold citation_of at 1. cbn [fst snd].
      by destruct (documents (rag_db self) !! chunk_document_id chunk). }
    cbn [foldl fst snd]. unfold cite at 2.
    destruct (documents (rag_db self) !! chunk_document_id chunk) as [document|] eqn:Hdoc.
    + destruct (citation_is_valid (citation_fields chunk_id chunk document score))
        eqn:Hvalid.
      * match goal with
        | |- context [foldl (cite self) (inr (?cp, ?cs, ?u)) l] =>
            specialize (IH cp cs u);
            destruct (foldl (cite self) (inr (cp, cs, u)) l)
              as [rejected|[[context_parts' citations'] used']]
        end; rewrite ?fmap_cons; setoid_rewrite Hhead.
        -- destruct IH as (accepted & others & -> & Hacc & Hrej).
           exists (citation_fields chunk_id chunk document score :: accepted), others.
           split; [done|]. split; [by constructor|done].
        -- destruct IH as (Hall & -> & -> & Hnd & Hmem & Hids).
           rewrite <- !app_assoc. split; [by constructor|]. split; [done|].
           split; [done|]. split; [|split].
           ++ intros Hused. apply Hnd. case_decide as Hin; [done|].
              rewrite fmap_app. apply NoDup_app. split; [done|].
              split; [|apply NoDup_singleton].
              intros d Hd ->%list_elem_of_singleton. done.
           ++ intros d. rewrite Hmem, fmap_cons, elem_of_cons.
              cbn [citation_document_id citation_fields]. case_decide as Hin.
              ** split; [tauto|]. intros [?|[->|?]]; auto.
              ** rewrite fmap_app, elem_of_app. cbn [fmap list_fmap fst].
                 rewrite list_elem_of_singleton. tauto.
           ++ intros Hused. apply Hids. case_decide; [done|].
              apply Forall_app. split; [done|]. by constructor.
      * rewrite cite_rejected. setoid_rewrite Hhead.
        exists [], (omap (citation_of self) l). split; [done|]. split; [constructor|done].
    + match goal with
      | |- context [foldl (cite self) (inr (?cp, ?cs, ?u)) l] =>
          specialize (IH cp cs u);
          destruct (foldl (cite self) (inr (cp, cs, u)) l)
            as [rejected|[[context_parts' citations'] used']]
      end; rewrite ?fmap_cons; setoid_rewrite Hhead; [done|].
      destruct IH as (Hall & -> & -> & Hnd & Hmem & Hids).
      rewrite <- !app_assoc. done.
Qed.

Lemma collect_citations_spec self (l : list RelevantChunk) :
  match collect_citations self l with
  | inr (context_parts, citations, used) =>
      Forall (λ citation, citation_is_valid citation = true) (omap (citation_of self) l)
      ∧ citations = omap (citation_of self) l
      ∧ NoDup used.*1
      ∧ (∀ d, d ∈ used.*1 ↔ d ∈ citation_document_id <$> omap (citation_of self) l)
      ∧ used.*1 = reference_id <$> used.*2
  | inl rejected =>
      ∃ accepted others,
        omap (citation_of self) l = accepted ++ rejected :: others
        ∧ Forall (λ citation, citation_is_valid citation = true) accepted
        ∧ citation_is_valid rejected = false
  end.
Proof.
  pose proof (collect_citations_loop self l [] [] []) as Hloop.
  fold (collect_citations self l) in Hloop.
  destruct (collect_citations self l) as [rejected|[[context_parts citations] used]];
    [done|].
  destruct Hloop as (Hall & _ & Hcs & Hnd & Hmem & Hids).
  split; [done|]. split; [done|]. split; [apply Hnd; constructor|]. split.
  - intros d. rewrite Hmem. csimpl. rewrite elem_of_nil. tauto.
  - specialize (Hids (Forall_nil_2 _)). clear Hnd Hmem.
    induction Hids as [|[d ref] used' Hd _ IH]; [done|]. csimpl. f_equal; [done|apply IH].
Qed.

(** The schema accepts every citation asked for exactly when the loop
    ends without a validation error. *)
Lemma collect_citations_accepted self (l : list RelevantChunk) :
  Forall (λ citation, citation_is_valid citation = true) (omap (citation_of self) l)
  ↔ ∃ acc, collect_citations self l = inr acc.
Proof.
  pose proof (collect_citations_spec self l) as Hspec.
  destruct (collect_citations self l) as [rejected|[[context_parts citations] used]].
  - destruct Hspec as (accepted & others & Heq & _ & Hrej). split.
    + rewrite Heq. intros [_ [Hc _]%Forall_cons]%Forall_app. congruence.
    + by intros [acc ?].
  - destruct Hspec as (Hall & _). split; [by eexists|done].
Qed.
End ResponseProperties.

Lemma omap_descending {A B} (f : A → option B) (score : A → Q) (score' : B → Q)
    (l : list A) :
  (∀ x y, f x = Some y → score' y = score x) →
  descending score l → descending score' (omap f l).
Proof.
  intros Hf. unfold descending.
  induction 1 as [|x l Hl IH Hall]; csimpl; [constructor|].
  destruct (f x) as [y|] eqn:Hx; [|done].
  constructor; [done|]. apply Forall_forall.
  intros y' (x' & Hin & Hx')%list_elem_of_omap.
  rewrite (Hf _ _ Hx), (Hf _ _ Hx'). rewrite Forall_forall in Hall. by apply Hall.
Qed.

Section ProcessQueryProperties.
Context `{Backend}.
Variable answer_fn : string → string → string.
Variable err : string.
Variable invalid : CitationResponse + Q → string.

(** The response built from a non-empty list of retained chunks whose
    scores reach the threshold: the error response when the schema
    rejects a citation, and otherwise the successful response carrying
    the citations and the capped mean of the scores. *)
Lemma _generate_response_spec self query (l : list RelevantChunk) class_id :
  l ≠ [] →
  Forall (λ r : RelevantChunk, (similarity_threshold <= r.2)%Q) l →
  let response := _generate_response answer_fn invalid self query l class_id in
  ((similarity_threshold <= mean (snd <$> l))%Q)
  ∧ ((Forall (λ citation, citation_is_valid citation = true) (omap (citation_of self) l)
      ∧ citations response = omap (citation_of self) l
      ∧ confidence response = Qmin (mean (snd <$> l)) 1
      ∧ success response = true
      ∧ error response = None
      ∧ NoDup (reference_id <$> used_documents response)
      ∧ ∀ d, d ∈ reference_id <$> used_documents response
             ↔ d ∈ citation_document_id <$> omap (citation_of self) l)
     ∨ (∃ accepted rejected others,
          omap (citation_of self) l = accepted ++ rejected :: others
          ∧ Forall (λ citation, citation_is_valid citation = true) accepted
          ∧ citation_is_valid rejected = false
          ∧ response = _create_error_response (invalid (inl rejected)) 0)).
Proof.
  intros Hne Hscores. cbn zeta.
  assert (similarity_threshold <= mean (snd <$> l))%Q as Hmean.
  { apply mean_lower_bound; [by destruct l|].
    apply Forall_fmap. eapply Forall_impl; [exact Hscores|]. done. }
  split; [done|].
  pose proof (collect_citations_spec self l) as Hspec.
  unfold _generate_response. destruct l as [|r l]; [done|].
  destruct (collect_citations self (r :: l))
    as [rejected|[[context_parts cs] used]].
  - right. destruct Hspec as (accepted & others & Heq & Hacc & Hrej).
    by exists accepted, rejected, others.
  - left. destruct Hspec as (Hall & -> & Hnd & Hmem & Hids).
    fold (mean (snd <$> r :: l)) in *.
    replace (foldr Qplus 0 (snd <$> r :: l) / inject_Z (Z.of_nat (length (r :: l))))%Q
      with (mean (snd <$> r :: l))
      by (unfold mean; by rewrite length_fmap).
    assert (Qle_bool 0 (Qmin (mean (snd <$> r :: l)) 1) = true) as ->.
    { apply Qle_bool_iff, Q.min_glb; [|done].
      eapply Qle_trans; [|exact Hmean]. done. }
    cbn [citations confidence success error used_documents].
    rewrite <- Hids. done.
Qed.

(** The response of [process_query] is an error response, the
    no-results response, or the response generated from the retained
    chunks. *)
Lemma process_query_cases self query class_id student_id elapsed :
  let response :=
    process_query answer_fn err invalid self query class_id student_id elapsed in
  (∃ message, response = _create_error_response message elapsed)
  ∨ response = _create_no_results_response elapsed
  ∨ ∃ q, is_Some (classes (rag_db self) !! class_id)
         ∧ generate_single_embedding query = Some q
         ∧ _search_relevant_chunks self class_id q ≠ []
         ∧ response
           = set_processing_time
               (_generate_response answer_fn invalid self query
                  (_search_relevant_chunks self class_id q) class_id)
               elapsed.
Proof.
  cbn zeta. unfold process_query.
  destruct (classes (rag_db self) !! class_id); [|by left; eexists].
  destruct (generate_single_embedding query) as [q|]; [|by left; eexists].
  destruct (_search_relevant_chunks self class_id q) as [|r l] eqn:Hl; [by right; left|].
  right; right. exists q. by rewrite Hl.
Qed.
End ProcessQueryProperties.

Lemma preview_short (s : string) : String.length s ≤ 200 → preview s = s.
Proof. intros Hs. unfold preview. by rewrite decide_False by lia. Qed.

Lemma preview_long (s : string) :
  200 < String.length s → String.length (preview s) = 203.
Proof.
  intros Hs. unfold preview. rewrite decide_True by done.
  rewrite string_length_append, string_length_substring.
  change (String.length "...") with 3. lia.
Qed.

(** The schema accepts the citation of a chunk exactly when the
    similarity score lies between 0 and 1 and the text of the chunk has
    at most 200 characters. *)
Lemma citation_is_valid_fields chunk_id chunk document score :
  citation_is_valid (citation_fields chunk_id chunk document score) = true
  ↔ (0 <= score)%Q ∧ (score <= 1)%Q ∧ String.length (content chunk) ≤ 200.
Proof.
  unfold citation_is_valid, citation_fields. cbn [relevance_score content_preview].
  rewrite !andb_true_iff, !Qle_bool_iff, Nat.leb_le.
  destruct (decide (String.length (content chunk) ≤ 200)) as [Hshort|Hlong].
  - rewrite preview_short by done. tauto.
  - rewrite preview_long by lia. split; [lia|tauto].
Qed.

(** X15.  The outcome of [process_query].  The response carries
    confidence 0, no citation and no used document, or it is successful
    with a confidence between the similarity threshold 0.7 and 1, the
    mean of the similarity scores of the retained chunks capped at 1.
    For an existing class, a query the model embeds and a non-empty
    list of retained chunks, the response is successful exactly when
    the schema accepts the citation of every retained chunk whose
    document is stored; one such chunk with a text of more than 200
    characters, or with a similarity score above 1, turns the response
    into the error response, without citations. *)
Theorem process_query_confidence_range `{Backend}
    (answer_fn : string → string → string) (err : string)
    (invalid : CitationResponse + Q → string)
    (self : RAGService) (query class_id student_id : string) (elapsed : nat) :
  let response :=
    process_query answer_fn err invalid self query class_id student_id elapsed in
  ((confidence response = 0%Q ∧ citations response = [] ∧ used_documents response = [])
   ∨ (success response = true
      ∧ error response = None
      ∧ (∃ q,
           generate_single_embedding query = Some q
           ∧ _search_relevant_chunks self class_id q ≠ []
           ∧ confidence response
             = Qmin (mean (snd <$> _search_relevant_chunks self class_id q)) 1)
      ∧ (similarity_threshold <= confidence response)%Q
      ∧ (confidence response <= 1)%Q))
  ∧ (∀ q,
       is_Some (classes (rag_db self) !! class_id) →
       generate_single_embedding query = Some q →
       _search_relevant_chunks self class_id q ≠ [] →
       (success response = true
        ↔ Forall (λ citation, citation_is_valid citation = true)
            (omap (citation_of self) (_search_relevant_chunks self class_id q)))
       ∧ (∀ r document,
            r ∈ _search_relevant_chunks self class_id q →
            documents (rag_db self) !! chunk_document_id r.1.2 = Some document →
            200 < String.length (content r.1.2) ∨ (1 < r.2)%Q →
            success response = false
            ∧ citations response = []
            ∧ used_documents response = []
            ∧ confidence response = 0%Q
            ∧ ∃ rejected,
                rejected ∈ omap (citation_of self) (_search_relevant_chunks self class_id q)
                ∧ citation_is_valid rejected = false
                ∧ error response = Some (invalid (inl rejected)))).
Proof.
  cbn zeta. split.
  - destruct (process_query_cases answer_fn err invalid self query class_id student_id
                elapsed)
      as [[message ->]|[->|(q & _ & Hq & Hne & ->)]]; [by left|by left|].
    destruct (_generate_response_spec answer_fn invalid self query _ class_id Hne)
      as (Hmean & [(_ & _ & Hconf & Hsucc & Herr & _)
                  |(accepted & rejected & others & _ & _ & _ & ->)]).
    { apply Forall_forall. intros r Hr.
      by apply _search_relevant_chunks_elem in Hr as (_ & ? & _). }
    + right. cbn [set_processing_time confidence success error].
      split; [done|]. split; [done|]. split; [by exists q|].
      rewrite Hconf. split; [|apply Q.le_min_r].
      apply Q.min_glb; [done|done].
    + by left.
  - intros q [class_obj Hc] Hq Hne.
    assert (process_query answer_fn err invalid self query class_id student_id elapsed
            = set_processing_time
                (_generate_response answer_fn invalid self query
                   (_search_relevant_chunks self class_id q) class_id) elapsed) as ->.
    { unfold process_query. rewrite Hc, Hq.
      by destruct (_search_relevant_chunks self class_id q). }
    destruct (_generate_response_spec answer_fn invalid self query _ class_id Hne)
      as (_ & [(Hall & _ & _ & Hsucc & _)
              |(accepted & rejected & others & Heq & _ & Hrej & ->)]).
    { apply Forall_forall. intros r Hr.
      by apply _search_relevant_chunks_elem in Hr as (_ & ? & _). }
    + cbn [set_processing_time success]. split; [by rewrite Hsucc|].
      intros r document Hr Hdoc Hbad. exfalso.
      rewrite Forall_forall in Hall.
      assert (citation_is_valid (citation_fields r.1.1 r.1.2 document r.2) = true)
        as Hvalid.
      { apply Hall, list_elem_of_omap. exists r. split; [done|].
        unfold citation_of. by rewrite Hdoc. }
      apply citation_is_valid_fields in Hvalid as (_ & Hone & Hshort).
      destruct Hbad as [Hlong|Hhigh]; [lia|].
      by apply Qlt_not_le in Hhigh.
    + cbn [set_processing_time _create_error_response success citations
             used_documents confidence error].
      split.
      * split; [done|]. rewrite Heq.
        intros [_ [Hc' _]%Forall_cons]%Forall_app. congruence.
      * intros r document Hr Hdoc Hbad. split; [done|]. split; [done|].
        split; [done|]. split; [done|]. exists rejected.
        split; [|done]. rewrite Heq, elem_of_app, elem_of_cons. auto.
Qed.

(** X16.  What [process_query] cites.  There are at most five
    citations, in descending order of relevance.  Every citation is for
    a stored chunk whose id is in the mapping a search on the queried
    class reads, whose similarity to the query lies between the
    threshold and 1, whose text has at most 200 characters and whose
    document is stored: the citation carries the id and name of that
    document, the page and section of the chunk, and the whole text of
    the chunk as preview.  The used documents are the cited documents,
    each listed once.  A successful response generated from retained
    chunks cites every one of them whose document is stored. *)
Theorem process_query_citations `{Backend}
    (answer_fn : string → string → string) (err : string)
    (invalid : CitationResponse + Q → string)
    (self : RAGService) (query class_id student_id : string) (elapsed : nat) :
  let response :=
    process_query answer_fn err invalid self query class_id student_id elapsed in
  length (citations response) ≤ max_chunks
  ∧ descending relevance_score (citations response)
  ∧ (∀ citation, citation ∈ citations response →
       citation_chunk_id citation ∈ visible_mapping (rag_vector_db self) class_id
       ∧ (similarity_threshold <= relevance_score citation)%Q
       ∧ (relevance_score citation <= 1)%Q
       ∧ ∃ chunk document,
           document_chunks (rag_db self) !! citation_chunk_id citation = Some chunk
           ∧ documents (rag_db self) !! citation_document_id citation = Some document
           ∧ chunk_document_id chunk = citation_document_id citation
           ∧ citation_document_name citation = document_name document
           ∧ citation_page_number citation = page_number chunk
           ∧ citation_section citation = section chunk
           ∧ String.length (content chunk) ≤ 200
           ∧ content_preview citation = content chunk)
  ∧ NoDup (reference_id <$> used_documents response)
  ∧ (∀ document_id,
       document_id ∈ reference_id <$> used_documents response
       ↔ document_id ∈ citation_document_id <$> citations response)
  ∧ (∀ q,
       is_Some (classes (rag_db self) !! class_id) →
       generate_single_embedding query = Some q →
       _search_relevant_chunks self class_id q ≠ [] →
       success response = true →
       citations response
       = omap (citation_of self) (_search_relevant_chunks self class_id q)).
Proof.
  cbn zeta.
  assert (∀ q, is_Some (classes (rag_db self) !! class_id) →
               generate_single_embedding query = Some q →
               _search_relevant_chunks self class_id q ≠ [] →
               process_query answer_fn err invalid self query class_id student_id elapsed
               = set_processing_time
                   (_generate_response answer_fn invalid self query
                      (_search_relevant_chunks self class_id q) class_id) elapsed)
    as Hgenerated.
  { intros q [class_obj Hc] Hq Hne. unfold process_query. rewrite Hc, Hq.
    by destruct (_search_relevant_chunks self class_id q). }
  assert (∀ q, Forall (λ r : RelevantChunk, (similarity_threshold <= r.2)%Q)
                 (_search_relevant_chunks self class_id q)) as Hscores.
  { intros q. apply Forall_forall. intros r Hr.
    by apply _search_relevant_chunks_elem in Hr as (_ & ? & _). }
  assert (∀ q,
            is_Some (classes (rag_db self) !! class_id) →
            generate_single_embedding query = Some q →
            _search_relevant_chunks self class_id q ≠ [] →
            success (process_query answer_fn err invalid self query class_id
                       student_id elapsed) = true →
            citations (process_query answer_fn err invalid self query class_id
                         student_id elapsed)
            = omap (citation_of self) (_search_relevant_chunks self class_id q))
    as Hevery.
  { intros q Hc Hq Hne. rewrite (Hgenerated q Hc Hq Hne).
    destruct (_generate_response_spec answer_fn invalid self query _ class_id Hne
                (Hscores q))
      as (_ & [(_ & Hcs & _)|(accepted & rejected & others & _ & _ & _ & ->)]);
      [|done].
    intros _. exact Hcs. }
  cut (length (citations (process_query answer_fn err invalid self query class_id
                            student_id elapsed)) ≤ max_chunks
       ∧ descending relevance_score
           (citations (process_query answer_fn err invalid self query class_id
                         student_id elapsed))
       ∧ (∀ citation,
            citation ∈ citations (process_query answer_fn err invalid self query
                                    class_id student_id elapsed) →
            citation_chunk_id citation ∈ visible_mapping (rag_vector_db self) class_id
            ∧ (similarity_threshold <= relevance_score citation)%Q
            ∧ (relevance_score citation <= 1)%Q
            ∧ ∃ chunk document,
                document_chunks (rag_db self) !! citation_chunk_id citation = Some chunk
                ∧ documents (rag_db self) !! citation_document_id citation
                  = Some document
                ∧ chunk_document_id chunk = citation_document_id citation
                ∧ citation_document_name citation = document_name document
                ∧ citation_page_number citation = page_number chunk
                ∧ citation_section citation = section chunk
                ∧ String.length (content chunk) ≤ 200
                ∧ content_preview citation = content chunk)
       ∧ NoDup (reference_id <$> used_documents
                  (process_query answer_fn err invalid self query class_id
                     student_id elapsed))
       ∧ (∀ document_id,
            document_id ∈ reference_id <$> used_documents
                            (process_query answer_fn err invalid self query class_id
                               student_id elapsed)
            ↔ document_id ∈ citation_document_id <$> citations
                              (process_query answer_fn err invalid self query class_id
                                 student_id elapsed))).
  { intros (H1 & H2 & H3 & H4 & H5). done. }
  clear Hevery Hgenerated.
  destruct (process_query_cases answer_fn err invalid self query class_id student_id
              elapsed)
    as [[message ->]|[->|(q & Hc & Hq & Hne & ->)]].
  - cbn. split; [lia|]. split; [constructor|].
    split; [by intros ? ?%elem_of_nil|]. split; [constructor|done].
  - cbn. split; [lia|]. split; [constructor|].
    split; [by intros ? ?%elem_of_nil|]. split; [constructor|done].
  - destruct (_generate_response_spec answer_fn invalid self query _ class_id Hne
                (Hscores q))
      as (_ & [(Hall & Hcs & _ & _ & _ & Hnd & Hmem)
              |(accepted & rejected & others & _ & _ & _ & ->)]).
    + cbn [set_processing_time citations used_documents success]. rewrite Hcs.
      split; [|split; [|split; [|by split]]].
      * etrans; [apply omap_length_le|apply _search_relevant_chunks_length].
      * apply (omap_descending _ snd); [|apply _search_relevant_chunks_descending].
        intros r citation. unfold citation_of.
        destruct (documents (rag_db self) !! chunk_document_id r.1.2); [|done].
        by intros [= <-].
      * intros citation Hcited.
        assert (citation_is_valid citation = true) as Hvalid
          by (rewrite Forall_forall in Hall; by apply Hall).
        apply list_elem_of_omap in Hcited as (r & Hr & Hcite).
        apply _search_relevant_chunks_elem in Hr as (Hsearch & Hscore & Hchunk).
        unfold citation_of in Hcite.
        destruct (documents (rag_db self) !! chunk_document_id r.1.2)
          as [document|] eqn:Hd; [|done].
        injection Hcite as <-.
        apply citation_is_valid_fields in Hvalid as (_ & Hone & Hshort).
        cbn [citation_fields citation_chunk_id relevance_score content_preview
             citation_document_id citation_document_name citation_page_number
             citation_section].
        split; [by eapply search_in_visible_mapping|]. split; [done|].
        split; [done|]. exists r.1.2, document.
        rewrite preview_short by done. done.
    + cbn. split; [lia|]. split; [constructor|].
      split; [by intros ? ?%elem_of_nil|]. split; [constructor|done].
Qed.

(** A chunk of more than 200 characters breaks the query it answers:
    the chunk is retained with similarity 1, its citation is rejected,
    and the response is the error response. *)
Example long_chunk_is_not_cited :
  String.length Fixture.long_text = 201
  ∧ (λ r : RelevantChunk, (r.1.1, r.2))
      <$> _search_relevant_chunks Fixture.rag_long "class1" Fixture.e1
    = [("long", 1%Q)]
  ∧ process_query _generate_answer_from_context "model unavailable" (λ _, "invalid")
      Fixture.rag_long "Math content" "class1" "student1" 12
    = {| answer := "I'm sorry, I encountered an error processing your question. Please try again.";
         citations := [];
         used_documents := [];
         confidence := 0;
         processing_time := 12;
         success := false;
         error := Some "invalid" |}.
Proof. split; [reflexivity|]. split; vm_compute; reflexivity. Qed.

(** ** Texts *)

Section TextProperties.
Import DocumentProcessor.

Lemma lstrip_spec (s : list ascii) :
  ∃ l, s = l ++ lstrip s
       ∧ Forall whitespace l
       ∧ ∀ c, head (lstrip s) = Some c → ¬ whitespace c.
Proof.
  induction s as [|c s (l & Hs & Hl & Hhead)]; [by exists []|].
  simpl. destruct (isspace c) eqn:Hc.
  - exists (c :: l). split; [simpl; by f_equal|]. split; [by constructor|done].
  - exists []. split; [done|]. split; [constructor|].
    intros c' [= <-]. unfold whitespace. by rewrite Hc.
Qed.

Lemma lstrip_stripped (s : list ascii) :
  (∀ c, head s = Some c → ¬ whitespace c) → lstrip s = s.
Proof.
  destruct s as [|c s]; [done|]. intros Hhead. simpl.
  destruct (isspace c) eqn:Hc; [|done]. by destruct (Hhead c).
Qed.

Lemma head_rev {A} (l : list A) : head (rev l) = last l.
Proof.
  induction l as [|x l IH] using rev_ind; [done|].
  by rewrite rev_app_distr, last_snoc.
Qed.

Lemma last_rev {A} (l : list A) : last (rev l) = head l.
Proof. by rewrite <- head_rev, rev_involutive. Qed.

(** [strip] takes whitespace off both ends, and all of it. *)
Lemma strip_spec (s : list ascii) :
  ∃ l r, s = l ++ strip s ++ r
         ∧ Forall whitespace l ∧ Forall whitespace r ∧ stripped (strip s).
Proof.
  destruct (lstrip_spec s) as (l & Hs & Hl & Hhead).
  destruct (lstrip_spec (rev (lstrip s))) as (k & Hrev & Hk & Hlast).
  assert (lstrip s = strip s ++ rev k) as Hu.
  { unfold strip. rewrite <- (rev_involutive (lstrip s)) at 1.
    rewrite Hrev at 1. by rewrite rev_app_distr. }
  exists l, (rev k). split; [by rewrite <- Hu|]. split; [done|].
  split; [by apply Forall_rev|]. split.
  - intros c Hc. apply Hhead. rewrite Hu. by destruct (strip s).
  - intros c Hc. apply Hlast. unfold strip in Hc. by rewrite last_rev in Hc.
Qed.

Lemma strip_stripped (s : list ascii) : stripped s → strip s = s.
Proof.
  intros [Hhead Hlast]. unfold strip. rewrite (lstrip_stripped s) by done.
  rewrite lstrip_stripped; [apply rev_involutive|].
  intros c. rewrite head_rev. apply Hlast.
Qed.

Lemma strip_length (s : list ascii) : length (strip s) ≤ length s.
Proof.
  destruct (strip_spec s) as (l & r & Hs & _). rewrite Hs at 2.
  rewrite !length_app. lia.
Qed.

Lemma elem_of_strip (c : ascii) (s : list ascii) : c ∈ strip s → c ∈ s.
Proof.
  destruct (strip_spec s) as (l & r & Hs & _). rewrite Hs at 2.
  rewrite !elem_of_app. auto.
Qed.

(** *** [_clean_text] *)

Lemma sub_whitespace_spaces (in_run : bool) (text : list ascii) (c : ascii) :
  c ∈ sub_whitespace in_run text → whitespace c → c = " "%char.
Proof.
  revert in_run. induction text as [|c' text IH]; intros in_run; simpl.
  - by intros ?%elem_of_nil.
  - destruct (isspace c') eqn:Hc'.
    + destruct in_run; [by apply IH|].
      intros [->|Hin]%elem_of_cons; [done|]. by apply (IH true).
    + intros [->|Hin]%elem_of_cons; [|by apply (IH false)].
      unfold whitespace. by rewrite Hc'.
Qed.

Lemma sub_whitespace_length (in_run : bool) (text : list ascii) :
  length (sub_whitespace in_run text) ≤ length text.
Proof.
  revert in_run. induction text as [|c text IH]; intros in_run; simpl; [done|].
  destruct (isspace c); [destruct in_run|]; simpl;
    [specialize (IH true)|specialize (IH true)|specialize (IH false)]; lia.
Qed.

Lemma replace_crlf_id (text : list ascii) : CR ∉ text → replace_crlf text = text.
Proof.
  induction text as [|c text IH]; [done|]. intros Hnot.
  apply not_elem_of_cons in Hnot as [Hc Hnot]. specialize (IH Hnot).
  destruct text as [|c' text]; [done|].
  change (replace_crlf (c :: c' :: text))
    with (if decide (c = CR ∧ c' = LF) then LF :: replace_crlf text
          else c :: replace_crlf (c' :: text)).
  rewrite decide_False by (by intros [-> _]). by rewrite IH.
Qed.

Lemma replace_cr_id (text : list ascii) : CR ∉ text → replace_cr text = text.
Proof.
  unfold replace_cr. induction text as [|c text IH]; [done|]. intros Hnot.
  apply not_elem_of_cons in Hnot as [Hc Hnot]. csimpl.
  rewrite decide_False by done. by rewrite IH.
Qed.

Lemma clean_text_unfold (text : list ascii) :
  clean_text text
  = strip (filter (λ c, is_kept c = true) (sub_whitespace false text)).
Proof.
  unfold clean_text. cbn zeta.
  assert (CR ∉ filter (λ c, is_kept c = true) (sub_whitespace false text)) as Hnot.
  { intros [_ Hin%sub_whitespace_spaces]%list_elem_of_filter; done. }
  by rewrite replace_crlf_id, replace_cr_id.
Qed.
Lemma clean_text_chars (text : list ascii) (c : ascii) :
  c ∈ clean_text text → is_kept c = true ∧ (whitespace c → c = " "%char).
Proof.
  rewrite clean_text_unfold.
  intros [Hk Hin]%elem_of_strip%list_elem_of_filter. split; [done|].
  by apply (sub_whitespace_spaces false text).
Qed.
End TextProperties.

(** X17.  What [_clean_text] returns holds only characters of the kept
    classes, its only whitespace character is the space, and it neither
    begins nor ends with one; it is no longer than the text; and the
    two replacements of carriage returns change nothing, no carriage
    return being left when they run. *)
Theorem clean_text_is_clean (text : list ascii) :
  (∀ c, c ∈ DocumentProcessor.clean_text text →
        DocumentProcessor.is_kept c = true ∧ (whitespace c → c = " "%char))
  ∧ stripped (DocumentProcessor.clean_text text)
  ∧ length (DocumentProcessor.clean_text text) ≤ length text
  ∧ DocumentProcessor.clean_text text
    = DocumentProcessor.strip
        (filter (λ c, DocumentProcessor.is_kept c = true)
                (DocumentProcessor.sub_whitespace false text)).
Proof.
  rewrite clean_text_unfold. split; [|split; [|split; [|done]]].
  - intros c [Hk Hin]%elem_of_strip%list_elem_of_filter. split; [done|].
    by apply (sub_whitespace_spaces false text).
  - by destruct (strip_spec (filter (λ c, DocumentProcessor.is_kept c = true)
                               (DocumentProcessor.sub_whitespace false text)))
      as (_ & _ & _ & _ & _ & ?).
  - etrans; [apply strip_length|]. etrans; [apply length_filter|].
    apply sub_whitespace_length.
Qed.

(** ** [_get_overlap_text] *)

Section OverlapProperties.
Import DocumentProcessor.

Lemma split_from_words (text acc : list ascii) :
  Forall (λ c, ¬ whitespace c) acc →
  Forall is_a_word (split_from text acc).
Proof.
  revert acc. induction text as [|c text IH]; intros acc Hacc; simpl.
  - destruct acc as [|a acc]; [constructor|].
    constructor; [|constructor]. split; [|by apply Forall_rev].
    simpl. by destruct (rev acc).
  - destruct (isspace c) eqn:Hc.
    + destruct acc as [|a acc]; [by apply IH|].
      constructor; [|by apply IH]. split; [|by apply Forall_rev].
      simpl. by destruct (rev acc).
    + apply IH. constructor; [|done]. unfold whitespace. by rewrite Hc.
Qed.

Lemma split_words (text : list ascii) : Forall is_a_word (split text).
Proof. by apply split_from_words. Qed.

Lemma split_from_word (w rest acc : list ascii) :
  Forall (λ c, ¬ whitespace c) w →
  split_from (w ++ rest) acc = split_from rest (rev w ++ acc).
Proof.
  revert acc. induction w as [|c w IH]; intros acc Hw; [done|].
  apply Forall_cons in Hw as [Hc Hw]. simpl.
  destruct (isspace c) eqn:Hsp; [done|].
  rewrite IH by done. by rewrite <- app_assoc.
Qed.

(** Splitting what was joined with single spaces gives the words back. *)
Lemma split_join (words : list (list ascii)) :
  Forall is_a_word words → split (join [" "%char] words) = words.
Proof.
  unfold split. induction 1 as [|w words [Hne Hw] Hwords IH]; [done|].
  destruct words as [|w' words].
  - cbn [join]. rewrite <- (app_nil_r w) at 1.
    rewrite split_from_word, app_nil_r by done. simpl.
    rewrite rev_involutive. destruct (rev w) eqn:Hrev; [|done].
    apply (f_equal (@rev ascii)) in Hrev. rewrite rev_involutive in Hrev. done.
  - change (join [" "%char] (w :: w' :: words))
      with (w ++ " "%char :: join [" "%char] (w' :: words)).
    rewrite split_from_word, app_nil_r by done.
    cbn [split_from]. change (isspace " ") with true. cbn iota.
    rewrite rev_involutive, IH. destruct (rev w) eqn:Hrev; [|done].
    apply (f_equal (@rev ascii)) in Hrev. rewrite rev_involutive in Hrev. done.
Qed.

Lemma last_words_words words n :
  Forall is_a_word words → Forall is_a_word (last_words words n).
Proof. intros Hw. destruct n; [done|]. by apply Forall_drop. Qed.
End OverlapProperties.

(** X18.  [_get_overlap_text] reads the overlap in words, a quarter of
    the token count.  A text of no more words than that comes back as
    it is.  Of a text of more words it returns the last words, that
    many, joined by single spaces.  When the overlap is below four
    tokens, so that no word is asked for, it returns all the words of
    the text joined by single spaces. *)
Theorem get_overlap_text_words (text : list ascii) (overlap_tokens : nat) :
  let words := DocumentProcessor.split text in
  let overlap_words := overlap_tokens `div` 4 in
  (length words ≤ overlap_words →
   DocumentProcessor.get_overlap_text text overlap_tokens = text)
  ∧ (0 < overlap_words < length words →
     DocumentProcessor.split (DocumentProcessor.get_overlap_text text overlap_tokens)
     = drop (length words - overlap_words) words
     ∧ length (DocumentProcessor.split
                 (DocumentProcessor.get_overlap_text text overlap_tokens))
       = overlap_words)
  ∧ (overlap_words = 0 → words ≠ [] →
     DocumentProcessor.split (DocumentProcessor.get_overlap_text text overlap_tokens)
     = words).
Proof.
  cbn zeta. unfold DocumentProcessor.get_overlap_text.
  pose proof (split_words text) as Hwords.
  set (words := DocumentProcessor.split text) in *.
  split; [|split].
  - intros Hle. rewrite decide_False; [done|lia].
  - intros [Hpos Hlt]. rewrite decide_True by done.
    rewrite split_join by (by apply last_words_words).
    unfold DocumentProcessor.last_words.
    destruct (overlap_tokens `div` 4) as [|n]; [lia|].
    split; [done|]. rewrite length_drop. lia.
  - intros -> Hne. rewrite decide_True by (destruct words; [done|simpl; lia]).
    by rewrite split_join.
Qed.

(** ** [_create_chunks] *)

Lemma occurs_in_after (l t x : list ascii) :
  Forall whitespace l →
  (∀ c, head x = Some c → ¬ whitespace c) → x ≠ [] →
  occurs_in x (l ++ t) → occurs_in x t.
Proof.
  intros Hl Hhead Hne. induction Hl as [|w l Hw Hl IH]; [done|].
  intros (p & q & Heq). apply IH. destruct p as [|c p].
  - destruct x as [|c x]; [done|]. simpl in Heq. injection Heq as -> _.
    by destruct (Hhead c).
  - simpl in Heq. injection Heq as _ Heq. by exists p, q.
Qed.

Lemma occurs_in_rev (x s : list ascii) : occurs_in x s → occurs_in (rev x) (rev s).
Proof.
  intros (p & q & ->). exists (rev q), (rev p).
  by rewrite !rev_app_distr, <- app_assoc.
Qed.

Lemma occurs_in_strip (x s : list ascii) :
  x ≠ [] → stripped x → occurs_in x s → occurs_in x (DocumentProcessor.strip s).
Proof.
  intros Hne [Hhead Hlast] Hin.
  destruct (strip_spec s) as (l & r & Hs & Hl & Hr & _).
  rewrite Hs in Hin. apply occurs_in_after in Hin; [|done..].
  apply occurs_in_rev in Hin. rewrite rev_app_distr in Hin.
  apply occurs_in_after in Hin.
  - apply occurs_in_rev in Hin. by rewrite !rev_involutive in Hin.
  - by apply Forall_rev.
  - intros c. rewrite head_rev. apply Hlast.
  - intros Hrev. apply (f_equal (@rev ascii)) in Hrev.
    by rewrite rev_involutive in Hrev.
Qed.

Lemma occurs_in_nonempty (x s : list ascii) : x ≠ [] → occurs_in x s → s ≠ [].
Proof. intros Hne (p & q & ->) Hnil. by apply app_eq_nil in Hnil as [_ [? _]%app_eq_nil]. Qed.

Lemma split_sentences_stripped (text s : list ascii) :
  s ∈ DocumentProcessor.split_sentences text → 10 < length s ∧ stripped s.
Proof.
  unfold DocumentProcessor.split_sentences.
  intros (fragment & _ & Hs)%list_elem_of_omap.
  case_decide as Hlong; [|done]. injection Hs as <-. split; [done|].
  by destruct (strip_spec fragment) as (_ & _ & _ & _ & _ & ?).
Qed.

Section ChunkingProperties.
Import DocumentProcessor.
Variables chunk_size chunk_overlap : nat.
Variable uuid4 : nat → string.
Variable drawn : nat.
Variable document_id : string.

Lemma _create_chunk_well_made (current_chunk : list ascii) (k : nat) :
  strip current_chunk ≠ [] →
  well_made uuid4 drawn document_id k
    (_create_chunk (uuid4 (drawn + k)) (strip current_chunk) document_id k)
  ∧ chunk_text (_create_chunk (uuid4 (drawn + k)) (strip current_chunk) document_id k)
    = strip current_chunk.
Proof.
  intros Hne. unfold well_made, chunk_text, _create_chunk. simpl.
  rewrite list_ascii_of_string_of_list_ascii.
  split; [|done]. do 4 (split; [done|]). split; [|done].
  by destruct (strip_spec current_chunk) as (_ & _ & _ & _ & _ & ?).
Qed.

Lemma chunking_invariant_turn processed state sentence :
  Forall (λ s, s ≠ [] ∧ stripped s) processed →
  sentence ≠ [] → stripped sentence →
  chunking_invariant uuid4 drawn document_id processed state →
  chunking_invariant uuid4 drawn document_id (processed ++ [sentence])
    (add_sentence chunk_size chunk_overlap uuid4 drawn document_id state sentence)
  ∧ (sum_list_with estimate_tokens (processed ++ [sentence]) ≤ chunk_size →
     state.2 = 0 →
     (add_sentence chunk_size chunk_overlap uuid4 drawn document_id state sentence).2 = 0).
Proof.
  intros Hprocessed Hne Hstripped.
  destruct state as [[[chunks current_chunk] current_tokens] chunk_index].
  intros (Hlen & Hmade & Hcur & Hkept & Hcount & Htokens).
  unfold add_sentence.
  assert (∀ prefix, strip (prefix ++ " "%char :: sentence) ≠ []) as Hnew.
  { intros prefix. apply (occurs_in_nonempty sentence); [done|].
    apply occurs_in_strip; [done..|]. exists (prefix ++ [" "%char]), [].
    by rewrite app_nil_r, <- app_assoc. }
  assert (∀ prefix, prefix ++ " "%char :: sentence ≠ []) as Hnew'
    by (intros [|? ?]; done).
  destruct (decide (chunk_size < current_tokens + estimate_tokens sentence
                    ∧ current_chunk ≠ [])) as [Hfull|Hfull].
  - destruct Hfull as [Hover Hcurrent]. destruct Hcur as [?|Hcur]; [done|].
    destruct (_create_chunk_well_made current_chunk chunk_index Hcur) as [Hwell Htext].
    split.
    + split; [rewrite length_app; simpl; lia|]. split; [|split; [|split; [|split]]].
      * intros k chunk [Hk|[Hk Heq]]%lookup_app_Some; [by apply Hmade|].
        rewrite Hlen in Hk, Heq. destruct (k - chunk_index) as [|?] eqn:Hd; [|done].
        injection Heq as <-. replace k with chunk_index by lia. done.
      * right. apply Hnew.
      * intros s [Hs| ->%list_elem_of_singleton]%elem_of_app.
        -- left. destruct (Hkept s Hs) as [(chunk & Hin & Hocc)|Hocc].
           ++ exists chunk. split; [|done]. apply elem_of_app. by left.
           ++ eexists. split; [apply elem_of_app; right; by constructor|].
              rewrite Htext. rewrite Forall_forall in Hprocessed.
              destruct (Hprocessed s Hs). by apply occurs_in_strip.
        -- right. eexists _, []. by rewrite app_nil_r, (cons_middle " "%char), app_assoc.
      * rewrite length_app, decide_False by apply Hnew'. simpl.
        rewrite decide_False in Hcount by done. lia.
      * lia.
    + intros Hsum Hzero. simpl in Hzero. subst chunk_index.
      rewrite Htokens in Hover by done.
      rewrite sum_list_with_app in Hsum. simpl in Hsum. lia.
  - split.
    + split; [done|]. split; [done|]. split; [right; apply Hnew|].
      split; [|split].
      * intros s [Hs| ->%list_elem_of_singleton]%elem_of_app.
        -- destruct (Hkept s Hs) as [?|(p & q & ->)]; [by left|]. right.
           exists p, (q ++ " "%char :: sentence). by rewrite <- !app_assoc.
        -- right. exists (current_chunk ++ [" "%char]), [].
           by rewrite app_nil_r, <- app_assoc.
      * rewrite length_app, decide_False by apply Hnew'. simpl.
        destruct (decide (current_chunk = [])); lia.
      * intros Hzero. rewrite Htokens by done.
        rewrite sum_list_with_app. simpl. lia.
    + done.
Qed.

Lemma chunking_invariant_loop sentences processed state :
  Forall (λ s, s ≠ [] ∧ stripped s) processed →
  Forall (λ s, s ≠ [] ∧ stripped s) sentences →
  chunking_invariant uuid4 drawn document_id processed state →
  chunking_invariant uuid4 drawn document_id (processed ++ sentences)
    (foldl (add_sentence chunk_size chunk_overlap uuid4 drawn document_id) state sentences)
  ∧ (sum_list_with estimate_tokens (processed ++ sentences) ≤ chunk_size →
     state.2 = 0 →
     (foldl (add_sentence chunk_size chunk_overlap uuid4 drawn document_id)
            state sentences).2 = 0).
Proof.
  revert processed state.
  induction sentences as [|s sentences IH]; intros processed state Hp Hs Hinv.
  - by rewrite app_nil_r.
  - apply Forall_cons in Hs as [[Hne Hst] Hs]. cbn [foldl].
    destruct (chunking_invariant_turn processed state s Hp Hne Hst Hinv)
      as [Hinv' Hzero'].
    destruct (IH (processed ++ [s]) _
                 ltac:(apply Forall_app; split; [done|by constructor]) Hs Hinv')
      as [Hloop Hzero].
    rewrite <- app_assoc in Hloop, Hzero. simpl in Hloop, Hzero.
    split; [done|]. intros Hsum Hstart. apply Hzero; [done|]. apply Hzero'; [|done].
    rewrite !sum_list_with_app in *. simpl in *. lia.
Qed.

(** What [_create_chunks] returns for a text. *)
Lemma create_chunks_spec (text : list ascii) :
  let sentences := split_sentences (clean_text text) in
  let chunks := create_chunks chunk_size chunk_overlap uuid4 drawn text document_id in
  (∀ k chunk, chunks !! k = Some chunk → well_made uuid4 drawn document_id k chunk)
  ∧ (∀ s, s ∈ sentences → ∃ chunk, chunk ∈ chunks ∧ occurs_in s (chunk_text chunk))
  ∧ length chunks ≤ length sentences
  ∧ (sum_list_with estimate_tokens sentences ≤ chunk_size → length chunks ≤ 1).
Proof.
  cbn zeta. unfold create_chunks.
  set (sentences := split_sentences (clean_text text)).
  assert (Forall (λ s, s ≠ [] ∧ stripped s) sentences) as Hsentences.
  { apply Forall_forall. intros s [Hlong Hs]%split_sentences_stripped.
    split; [|done]. intros ->. simpl in Hlong. lia. }
  destruct (chunking_invariant_loop sentences [] ([], [], 0, 0)) as [Hinv Hzero];
    [constructor|done|..].
  { split; [done|]. split; [by intros k chunk ?|]. split; [by left|].
    split; [by intros s ?%elem_of_nil|]. split; [simpl; lia|done]. }
  rewrite app_nil_l in Hinv, Hzero. cbn [snd] in Hzero.
  destruct (foldl _ _ sentences) as [[[chunks current_chunk] current_tokens] chunk_index].
  destruct Hinv as (Hlen & Hmade & Hcur & Hkept & Hcount & _). cbn [snd] in Hzero.
  destruct (strip current_chunk) as [|c rest] eqn:Hstrip.
  - destruct Hcur as [->|?]; [|done].
    split; [done|]. split; [|split; [simpl in Hcount; lia|]].
    + intros s Hs. destruct (Hkept s Hs) as [?|Hocc]; [done|].
      rewrite Forall_forall in Hsentences. destruct (Hsentences s Hs) as [Hne _].
      by destruct (occurs_in_nonempty s [] Hne Hocc).
    + intros Hsum. rewrite Hlen, Hzero by done. lia.
  - assert (strip current_chunk ≠ []) as Hne by (by rewrite Hstrip).
    destruct (_create_chunk_well_made current_chunk chunk_index Hne) as [Hwell Htext].
    rewrite <- Hstrip. split; [|split; [|split]].
    + intros k chunk [Hk|[Hk Heq]]%lookup_app_Some; [by apply Hmade|].
      rewrite Hlen in Hk, Heq. destruct (k - chunk_index) as [|?] eqn:Hd; [|done].
      injection Heq as <-. replace k with chunk_index by lia. done.
    + intros s Hs. destruct (Hkept s Hs) as [(chunk & Hin & Hocc)|Hocc].
      * exists chunk. split; [|done]. apply elem_of_app. by left.
      * eexists. split; [apply elem_of_app; right; by constructor|].
        rewrite Htext. rewrite Forall_forall in Hsentences.
        destruct (Hsentences s Hs). by apply occurs_in_strip.
    + rewrite length_app. simpl.
      rewrite decide_False in Hcount by (intros ->; done). lia.
    + intros Hsum. rewrite length_app, Hlen, Hzero by done. simpl. lia.
Qed.
End ChunkingProperties.

(** X19.  The chunks [_create_chunks] returns are numbered from 0 in
    the order of the list, and the chunk numbered [k] carries the id
    drawn for it, the document id, a text that is not empty and has no
    whitespace at either end, and the token estimate, page and section
    of that text.  There are no more chunks than sentences, so a text
    without a sentence of more than ten characters gives no chunk; and
    when the token estimates of the sentences sum to no more than the
    chunk size there is at most one chunk. *)
Theorem create_chunks_well_made
    (chunk_size chunk_overlap : nat) (uuid4 : nat → string) (drawn : nat)
    (text : list ascii) (document_id : string) :
  let sentences := DocumentProcessor.split_sentences (DocumentProcessor.clean_text text) in
  let chunks :=
    DocumentProcessor.create_chunks chunk_size chunk_overlap uuid4 drawn text document_id in
  (∀ k chunk, chunks !! k = Some chunk → well_made uuid4 drawn document_id k chunk)
  ∧ length chunks ≤ length sentences
  ∧ (sentences = [] → chunks = [])
  ∧ (sum_list_with DocumentProcessor.estimate_tokens sentences ≤ chunk_size →
     length chunks ≤ 1).
Proof.
  destruct (create_chunks_spec chunk_size chunk_overlap uuid4 drawn document_id text)
    as (Hmade & _ & Hlen & Hone).
  cbn zeta in *. split; [done|]. split; [done|]. split; [|done].
  intros Hnil. rewrite Hnil in Hlen.
  by destruct (DocumentProcessor.create_chunks _ _ _ _ _ _); [|simpl in Hlen; lia].
Qed.

(** X20.  [_create_chunks] loses no sentence: every sentence of the
    cleaned text occurs, character for character, in the text of one of
    the chunks. *)
Theorem create_chunks_keep_every_sentence
    (chunk_size chunk_overlap : nat) (uuid4 : nat → string) (drawn : nat)
    (text : list ascii) (document_id : string) (sentence : list ascii) :
  sentence ∈ DocumentProcessor.split_sentences (DocumentProcessor.clean_text text) →
  ∃ chunk,
    chunk ∈ DocumentProcessor.create_chunks chunk_size chunk_overlap uuid4 drawn
              text document_id
    ∧ occurs_in sentence (chunk_text chunk).
Proof.
  destruct (create_chunks_spec chunk_size chunk_overlap uuid4 drawn document_id text)
    as (_ & Hkept & _).
  apply Hkept.
Qed.

(** X20 at a text of two sentences. *)
Lemma create_chunks_keep_every_sentence_witness :
  list_ascii_of_string "Geometry studies shapes and space."
    ∈ DocumentProcessor.split_sentences (DocumentProcessor.clean_text Saved.two_sentences)
  ∧ ∃ chunk,
      chunk ∈ DocumentProcessor.create_chunks 700 100 Saved.uuid4 0
                Saved.two_sentences "doc1"
      ∧ occurs_in (list_ascii_of_string "Geometry studies shapes and space.")
                  (chunk_text chunk).
Proof.
  assert (list_ascii_of_string "Geometry studies shapes and space."
            ∈ DocumentProcessor.split_sentences
                (DocumentProcessor.clean_text Saved.two_sentences)) as Hin
    by (vm_compute; right; left).
  split; [exact Hin|].
  exact (create_chunks_keep_every_sentence 700 100 Saved.uuid4 0 Saved.two_sentences
           "doc1" _ Hin).
Defined.

(** ** Page and slide markers *)

Section MarkerProperties.
Import DocumentProcessor.

Lemma uint_digits (d : Decimal.uint) :
  Forall (λ c, is_digit c = true) (list_ascii_of_string (NilEmpty.string_of_uint d)).
Proof. induction d; simpl; constructor; done. Qed.

Lemma int_uint (d : Decimal.uint) (acc : nat) :
  foldl (λ n c, 10 * n + (nat_of_ascii c - 48)) acc
        (list_ascii_of_string (NilEmpty.string_of_uint d))
  = Nat.of_uint_acc d acc.
Proof.
  revert acc. induction d as [|d IH|d IH|d IH|d IH|d IH|d IH|d IH|d IH|d IH|d IH];
    intros acc; [done|..];
    cbn [NilEmpty.string_of_uint list_ascii_of_string foldl Nat.of_uint_acc];
    rewrite IH; f_equal; rewrite Nat.tail_mul_spec;
    match goal with |- context [nat_of_ascii ?c] =>
      let n := eval vm_compute in (nat_of_ascii c) in
      change (nat_of_ascii c) with n
    end; lia.
Qed.

(** [str] gives the decimal digits [int] reads back. *)
Lemma str_spec (n : nat) :
  str n ≠ [] ∧ Forall (λ c, is_digit c = true) (str n) ∧ int (str n) = n.
Proof.
  unfold str, int. split; [|split].
  - pose proof (DecimalFacts.unorm_nonnil (Nat.to_uint n)) as Hnonnil.
    rewrite <- Unsigned.to_of, Unsigned.of_to in Hnonnil.
    by destruct (Nat.to_uint n).
  - apply uint_digits.
  - rewrite int_uint. apply Unsigned.of_to.
Qed.

Lemma span_length_run (p : ascii → bool) (w : list ascii) (c : ascii) (rest : list ascii) :
  Forall (λ c, p c = true) w → p c = false →
  span_length p (w ++ c :: rest) = length w.
Proof.
  intros Hw Hc. induction Hw as [|a w Ha Hw IH]; simpl; [by rewrite Hc|].
  by rewrite Ha, IH.
Qed.

Lemma match_numbered_digits (keyword digits : list ascii) (c : ascii) (rest : list ascii) :
  digits ≠ [] → Forall (λ c, is_digit c = true) digits → is_digit c = false →
  match_numbered keyword (keyword ++ digits ++ c :: rest) = Some digits.
Proof.
  intros Hne Hdigits Hc. unfold match_numbered.
  rewrite take_app_length, decide_True by done.
  rewrite drop_app_length, span_length_run by done.
  destruct digits as [|d digits]; [done|].
  change (0 <? length (d :: digits))%nat with true. cbn iota.
  by rewrite take_app_length.
Qed.

Lemma match_marker_digits (keyword digits rest : list ascii) :
  digits ≠ [] → Forall (λ c, is_digit c = true) digits →
  match_marker keyword (keyword ++ digits ++ "]"%char :: rest) = Some digits.
Proof.
  intros Hne Hdigits. unfold match_marker.
  rewrite match_numbered_digits by done. csimpl.
  rewrite app_assoc, <- length_app, drop_app_length. done.
Qed.

Lemma search_from_head {A} (match_at : list ascii → option A) (s : list ascii) (group : A) :
  match_at s = Some group → search_from match_at s = Some group.
Proof. intros Hm. destruct s; simpl; by rewrite Hm. Qed.

(** A text that begins with a page marker has the page of the marker. *)
Lemma extract_page_number_marker (page_num : nat) (rest : list ascii) :
  extract_page_number
    (list_ascii_of_string "[PAGE " ++ str page_num ++ "]"%char :: rest)
  = Some page_num.
Proof.
  destruct (str_spec page_num) as (Hne & Hdigits & Hint).
  unfold extract_page_number.
  rewrite (search_from_head _ _ (str page_num)) by (by apply match_marker_digits).
  simpl. by rewrite Hint.
Qed.

(** A text that begins with a slide marker has the section of the
    marker. *)
Lemma extract_section_marker (slide_num : nat) (rest : list ascii) :
  extract_section
    (list_ascii_of_string "[SLIDE " ++ str slide_num ++ "]"%char :: rest)
  = Some (list_ascii_of_string "Slide " ++ str slide_num).
Proof.
  destruct (str_spec slide_num) as (Hne & Hdigits & Hint).
  unfold extract_section.
  by rewrite (search_from_head _ _ (str slide_num)) by (by apply match_marker_digits).
Qed.

Lemma sub_whitespace_word (in_run : bool) (w rest : list ascii) :
  w ≠ [] → Forall (λ c, isspace c = false) w →
  sub_whitespace in_run (w ++ rest) = w ++ sub_whitespace false rest.
Proof.
  intros Hne Hw. revert in_run. induction Hw as [|c w Hc Hw IH]; [done|].
  intros in_run. simpl. rewrite Hc. f_equal.
  destruct w as [|c' w]; [done|]. by apply IH.
Qed.

Lemma is_digit_not_space (c : ascii) : is_digit c = true → isspace c = false.
Proof.
  unfold is_digit, between, isspace. intros [H1 H2]%andb_prop.
  apply Nat.leb_le in H1, H2.
  repeat match goal with
         | |- context [(?a <=? ?b)%nat] => destruct (Nat.leb_spec a b)
         | |- context [(?a =? ?b)%nat] => destruct (Nat.eqb_spec a b)
         end; simpl; try done; lia.
Qed.

Lemma is_digit_kept (c : ascii) : is_digit c = true → is_kept c = true.
Proof. unfold is_kept, is_word. by intros ->. Qed.

(** [strip] leaves alone a beginning that has no whitespace at either
    end. *)
Lemma strip_keeps_beginning (x s : list ascii) :
  x ≠ [] → stripped x → ∃ tail, strip (x ++ s) = x ++ tail.
Proof.
  intros Hne [Hhead Hlast].
  destruct (strip_spec (x ++ s)) as (l & r & Hs & Hl & Hr & _).
  destruct l as [|w l].
  - simpl in Hs. apply app_eq_inv in Hs as [(k & Hx & Hk)|(k & Hx & Hk)].
    + destruct k as [|c k] using rev_ind.
      * exists []. by rewrite app_nil_r in *.
      * exfalso. apply (Hlast c).
        -- by rewrite Hx, app_assoc, last_snoc.
        -- rewrite Forall_forall in Hr. apply Hr. rewrite Hk.
           rewrite !elem_of_app, list_elem_of_singleton. auto.
    + by exists k.
  - exfalso. destruct x as [|c x]; [done|]. simpl in Hs. injection Hs as -> _.
    apply (Hhead w); [done|]. by apply Forall_cons in Hl as [? _].
Qed.

Lemma page_marker_stripped (page_num : nat) :
  stripped (list_ascii_of_string "[PAGE " ++ str page_num ++ ["]"%char]).
Proof.
  split.
  - intros c [= <-]. done.
  - intros c. rewrite app_assoc, last_snoc. by intros [= <-].
Qed.

(** Cleaning keeps a page marker at the beginning of a text. *)
Lemma clean_text_page_block (page_num : nat) (page_text : list ascii) :
  ∃ tail,
    clean_text (page_block page_num page_text)
    = list_ascii_of_string "[PAGE " ++ str page_num ++ "]"%char :: tail.
Proof.
  destruct (str_spec page_num) as (Hne & Hdigits & _).
  rewrite clean_text_unfold. unfold page_block.
  assert (sub_whitespace false
            (list_ascii_of_string "[PAGE " ++ str page_num ++ "]"%char :: LF :: page_text)
          = list_ascii_of_string "[PAGE " ++ str page_num
            ++ "]"%char :: " "%char :: sub_whitespace true page_text) as ->.
  { cbn -[str]. do 6 f_equal.
    rewrite (cons_middle "]"%char), app_assoc.
    rewrite sub_whitespace_word.
    - by rewrite <- app_assoc.
    - by destruct (str page_num).
    - apply Forall_app. split; [|by constructor].
      eapply Forall_impl; [exact Hdigits|]. apply is_digit_not_space. }
  rewrite !filter_app.
  assert (filter (λ c, is_kept c = true) (str page_num) = str page_num) as ->.
  { apply filter_all. eapply Forall_impl; [exact Hdigits|]. apply is_digit_kept. }
  rewrite filter_cons, decide_True by done.
  change (filter (λ c, is_kept c = true) (list_ascii_of_string "[PAGE "))
    with (list_ascii_of_string "[PAGE ").
  rewrite (cons_middle "]"%char), !app_assoc.
  destruct (strip_keeps_beginning
              ((list_ascii_of_string "[PAGE " ++ str page_num) ++ ["]"%char])
              (filter (λ c, is_kept c = true) (" "%char :: sub_whitespace true page_text)))
    as [tail ->].
  - by destruct (list_ascii_of_string "[PAGE " ++ str page_num).
  - rewrite <- app_assoc. apply page_marker_stripped.
  - exists tail. by rewrite <- !app_assoc.
Qed.

Lemma join_cons_beginning (sep part : list ascii) (parts : list (list ascii)) :
  ∃ tail, join sep (part :: parts) = part ++ tail.
Proof.
  destruct parts as [|part' parts]; [exists []; by rewrite app_nil_r|].
  by eexists.
Qed.

(** The text of a PDF begins with the block of its first page that has
    text. *)
Lemma extract_pdf_text_first (skipped : list (option (list ascii)))
    (page_text : list ascii) (rest : list (option (list ascii))) :
  Forall (λ page, ∀ text, page = Some text → strip text = []) skipped →
  strip page_text ≠ [] →
  ∃ tail,
    extract_pdf_text (skipped ++ Some page_text :: rest)
    = page_block (length skipped + 1) page_text ++ tail.
Proof.
  intros Hskipped Htext. unfold extract_pdf_text.
  rewrite imap_app, omap_app.
  replace (omap _ (imap pair skipped)) with (@nil (list ascii)).
  - cbn [imap app]. csimpl. rewrite decide_True by done.
    rewrite Nat.add_0_r. apply join_cons_beginning.
  - symmetry. apply omap_nil_iff. intros [i page] Hin.
    apply elem_of_lookup_imap in Hin as (i' & page' & [= <- <-] & Hpage).
    destruct page as [text|]; [|done]. csimpl.
    rewrite Forall_forall in Hskipped.
    rewrite decide_False; [done|]. intros Hne. apply Hne.
    apply (Hskipped (Some text)); [|done]. by eapply list_elem_of_lookup_2.
Qed.
(** The text of a presentation begins with the marker of its first
    slide that has a shape with text. *)
Lemma extract_pptx_text_first (skipped : list (list (list ascii)))
    (shapes : list (list ascii)) (rest : list (list (list ascii))) :
  Forall (Forall (λ text, strip text = [])) skipped →
  Exists (λ text, strip text ≠ []) shapes →
  ∃ tail,
    extract_pptx_text (skipped ++ shapes :: rest)
    = slide_marker (length skipped + 1) ++ tail.
Proof.
  intros Hskipped Hshapes. unfold extract_pptx_text.
  rewrite imap_app, omap_app.
  replace (omap _ (imap pair skipped)) with (@nil (list ascii)).
  - cbn [imap app]. csimpl. rewrite Nat.add_0_r.
    destruct (filter (λ text, strip text ≠ []) shapes) as [|shape kept] eqn:Hkept.
    + exfalso. apply Exists_exists in Hshapes as (text & Hin & Htext).
      assert (text ∈ filter (λ text, strip text ≠ []) shapes) as Hfiltered
        by (by apply list_elem_of_filter).
      rewrite Hkept in Hfiltered. by apply elem_of_nil in Hfiltered.
    + rewrite decide_True by (simpl; lia).
      match goal with
      | |- ∃ tail, join _ (?part :: ?parts) = _ =>
          destruct (join_cons_beginning [LF; LF] part parts) as [tail ->]
      end.
      exists (LF :: join [LF] (shape :: kept) ++ tail).
      unfold slide_marker. simpl. rewrite <- !app_assoc. simpl. done.
  - symmetry. apply omap_nil_iff. intros [i slide] Hin.
    apply elem_of_lookup_imap in Hin as (i' & slide' & [= <- <-] & Hslide).
    rewrite Forall_forall in Hskipped.
    rewrite filter_none; [by rewrite decide_False by (simpl; lia)|].
    eapply Forall_impl; [apply (Hskipped slide); by eapply list_elem_of_lookup_2|].
    intros text Hblank Hne. by apply Hne.
Qed.
End MarkerProperties.

(** X21.  The page marker reads back.  The page block [_extract_pdf_text]
    writes for a page has the number of that page as its page number,
    before and after [_clean_text]; and the text of a PDF whose first
    page with text is preceded by pages without text, or whose text
    could not be read, has as page number the position of that page in
    the PDF, the pages before it counted. *)
Theorem page_marker_reads_back (page_num : nat) (page_text : list ascii) :
  DocumentProcessor.extract_page_number
    (DocumentProcessor.page_block page_num page_text) = Some page_num
  ∧ DocumentProcessor.extract_page_number
      (DocumentProcessor.clean_text (DocumentProcessor.page_block page_num page_text))
    = Some page_num
  ∧ ∀ skipped rest,
      Forall (λ page, ∀ text, page = Some text → DocumentProcessor.strip text = [])
             skipped →
      DocumentProcessor.strip page_text ≠ [] →
      DocumentProcessor.extract_page_number
        (DocumentProcessor.extract_pdf_text (skipped ++ Some page_text :: rest))
      = Some (length skipped + 1).
Proof.
  split; [apply extract_page_number_marker|]. split.
  - destruct (clean_text_page_block page_num page_text) as [tail ->].
    apply extract_page_number_marker.
  - intros skipped rest Hskipped Htext.
    destruct (extract_pdf_text_first skipped page_text rest Hskipped Htext)
      as [tail ->].
    unfold DocumentProcessor.page_block. rewrite <- !app_assoc. simpl.
    apply extract_page_number_marker.
Qed.

(** X22.  The slide marker reads back, and comes before any heading: a
    text that begins with the marker [_extract_pptx_text] writes for a
    slide has the section [Slide n], whatever follows the marker; and
    the text of a presentation whose first slide with a text shape is
    preceded by slides without one has as section the position of that
    slide in the presentation, the slides before it counted. *)
Theorem slide_marker_reads_back (slide_num : nat) (rest : list ascii) :
  DocumentProcessor.extract_section (DocumentProcessor.slide_marker slide_num ++ rest)
  = Some (list_ascii_of_string "Slide " ++ DocumentProcessor.str slide_num)
  ∧ ∀ skipped shapes slides,
      Forall (Forall (λ text, DocumentProcessor.strip text = [])) skipped →
      Exists (λ text, DocumentProcessor.strip text ≠ []) shapes →
      DocumentProcessor.extract_section
        (DocumentProcessor.extract_pptx_text (skipped ++ shapes :: slides))
      = Some (list_ascii_of_string "Slide "
              ++ DocumentProcessor.str (length skipped + 1)).
Proof.
  assert (∀ n tail,
            DocumentProcessor.extract_section (DocumentProcessor.slide_marker n ++ tail)
            = Some (list_ascii_of_string "Slide " ++ DocumentProcessor.str n)) as Hmarker.
  { intros n tail. unfold DocumentProcessor.slide_marker. rewrite <- !app_assoc. simpl.
    apply extract_section_marker. }
  split; [apply Hmarker|]. intros skipped shapes slides Hskipped Hshapes.
  destruct (extract_pptx_text_first skipped shapes slides Hskipped Hshapes) as [tail ->].
  apply Hmarker.
Qed.

(** ** [index_document] *)

Section IndexingProperties.
Context `{Backend}.
Variable uuid4 : nat → string.

Lemma assigned_classes_spec db0 document_id class_id :
  class_id ∈ Indexing.assigned_classes db0 document_id ↔
  assigned db0 document_id class_id ∧ is_Some (classes db0 !! class_id).
Proof.
  unfold Indexing.assigned_classes, assigned. rewrite list_elem_of_omap. split.
  - intros ([c d] & Hin & Hf). apply elem_of_elements in Hin.
    case_decide as Hdec; [|done]. destruct Hdec as [-> Hd]. by simplify_eq.
  - intros [Hin Hc]. exists (class_id, document_id).
    split; [by apply elem_of_elements|]. by rewrite decide_True.
Qed.

Lemma assigned_classes_NoDup db0 document_id :
  NoDup (Indexing.assigned_classes db0 document_id).
Proof.
  unfold Indexing.assigned_classes. apply NoDup_omap_inj; [|apply NoDup_elements].
  intros [c1 d1] [c2 d2] z Hx Hy.
  case_decide as H1; [|done]. case_decide as H2; [|done].
  destruct H1 as [-> _], H2 as [-> _]. congruence.
Qed.

Lemma add_chunks_tables db0 chunks :
  classes (foldl Indexing.add_chunk db0 chunks) = classes db0
  ∧ documents (foldl Indexing.add_chunk db0 chunks) = documents db0
  ∧ student_access (foldl Indexing.add_chunk db0 chunks) = student_access db0
  ∧ class_documents (foldl Indexing.add_chunk db0 chunks) = class_documents db0.
Proof.
  revert db0. induction chunks as [|chunk chunks IH]; intros db0; [done|].
  cbn [foldl]. destruct (IH (Indexing.add_chunk db0 chunk)) as (-> & -> & -> & ->).
  done.
Qed.

Lemma add_chunks_lookup_old db0 chunks chunk_id :
  chunk_id ∉ DocumentProcessor.new_chunk_id <$> chunks →
  document_chunks (foldl Indexing.add_chunk db0 chunks) !! chunk_id
  = document_chunks db0 !! chunk_id.
Proof.
  revert db0. induction chunks as [|chunk chunks IH]; intros db0 Hnot; [done|].
  rewrite fmap_cons in Hnot. apply not_elem_of_cons in Hnot as [Hne Hnot].
  cbn [foldl]. rewrite IH by done. cbn [Indexing.add_chunk document_chunks].
  by rewrite lookup_insert_ne.
Qed.

Lemma add_chunks_lookup_new db0 chunks chunk_id :
  chunk_id ∈ DocumentProcessor.new_chunk_id <$> chunks →
  ∃ chunk, chunk ∈ chunks
           ∧ DocumentProcessor.new_chunk_id chunk = chunk_id
           ∧ document_chunks (foldl Indexing.add_chunk db0 chunks) !! chunk_id
             = Some (DocumentProcessor.new_chunk_row chunk).
Proof.
  revert db0. induction chunks as [|chunk chunks IH]; intros db0 Hin;
    [by apply elem_of_nil in Hin|].
  cbn [foldl].
  destruct (decide (chunk_id ∈ DocumentProcessor.new_chunk_id <$> chunks)) as [Hlater|Hnot].
  - destruct (IH (Indexing.add_chunk db0 chunk) Hlater) as (chunk' & ? & ? & ?).
    exists chunk'. split; [by right|done].
  - rewrite fmap_cons in Hin. apply elem_of_cons in Hin as [->|?]; [|done].
    exists chunk. split; [by left|]. split; [done|].
    rewrite add_chunks_lookup_old by done. cbn [Indexing.add_chunk document_chunks].
    by rewrite lookup_insert_eq.
Qed.

Lemma index_loop_sound embeddings chunk_ids classes acc class_id chunk_id :
  chunk_id
    ∈ visible_mapping (foldl (Indexing.index_in_class embeddings chunk_ids) acc classes).1
        class_id →
  chunk_id ∈ visible_mapping acc.1 class_id
  ∨ (class_id ∈ classes ∧ chunk_id ∈ chunk_ids).
Proof.
  revert acc. induction classes as [|c classes IH]; intros acc; [by left|].
  cbn [foldl]. intros [Hin|[? ?]]%IH; [|right; split; [by right|done]].
  cbn [Indexing.index_in_class fst] in Hin.
  apply visible_mapping_add in Hin as [?|[-> ?]]; [by left|].
  right. split; [by left|done].
Qed.

(** One turn of the loop over the assigned classes, on a well-formed
    database and a batch of one vector per chunk. *)
Lemma index_in_class_turn embeddings chunk_ids acc class_id :
  well_formed acc.1 → embeddings ≠ [] → length embeddings = length chunk_ids →
  let acc' := Indexing.index_in_class embeddings chunk_ids acc class_id in
  well_formed acc'.1
  ∧ (∀ other,
       visible_mapping acc'.1 other
       = if decide (other = class_id) then visible_mapping acc.1 class_id ++ chunk_ids
         else visible_mapping acc.1 other)
  ∧ (∀ other,
       saved_mapping acc'.2 other
       = if decide (other = class_id)
         then Some (visible_mapping acc.1 class_id ++ chunk_ids)
         else saved_mapping acc.2 other).
Proof.
  intros Hwf Hne Hlen. cbn zeta. unfold Indexing.index_in_class.
  pose proof (well_formed_add acc.1 class_id embeddings chunk_ids Hwf Hne Hlen) as Hwf'.
  rewrite add_embeddings_ok in * by done. cbn [fst snd] in *.
  set (vdb := {| indexes := _ |}) in *.
  assert (indexes vdb !! class_id
          = Some (default [] (indexes acc.1 !! class_id) ++ (l2_normalize <$> embeddings))
          ∧ chunk_mappings vdb !! class_id
            = Some (visible_mapping acc.1 class_id ++ chunk_ids)) as [Hi Hm].
  { unfold vdb. cbn [indexes chunk_mappings]. by rewrite !lookup_insert_eq. }
  split; [done|]. split.
  - intros other. destruct (decide (other = class_id)) as [->|Hother].
    + unfold visible_mapping at 1. by rewrite Hi, Hm.
    + unfold visible_mapping, vdb. cbn [indexes chunk_mappings].
      by rewrite !lookup_insert_ne.
  - intros other.
    assert ((Persistent.save_index vdb acc.2 class_id).2 = true) as Hsaved.
    { unfold Persistent.save_index. by rewrite Hi, Hm. }
    destruct (save_index_files vdb acc.2 class_id other Hsaved) as [_ ->].
    by rewrite Hm.
Qed.

Lemma index_loop_complete embeddings chunk_ids classes acc :
  well_formed acc.1 → embeddings ≠ [] → length embeddings = length chunk_ids →
  NoDup classes →
  let acc' := foldl (Indexing.index_in_class embeddings chunk_ids) acc classes in
  well_formed acc'.1
  ∧ (∀ other,
       visible_mapping acc'.1 other
       = if decide (other ∈ classes) then visible_mapping acc.1 other ++ chunk_ids
         else visible_mapping acc.1 other)
  ∧ (∀ other,
       saved_mapping acc'.2 other
       = if decide (other ∈ classes) then Some (visible_mapping acc.1 other ++ chunk_ids)
         else saved_mapping acc.2 other).
Proof.
  intros Hwf Hne Hlen Hnodup. revert acc Hwf.
  induction Hnodup as [|c classes Hc Hnodup IH]; intros acc Hwf; cbn zeta.
  - split; [done|]. split; intros other; rewrite decide_False; try done;
      by intros ?%elem_of_nil.
  - cbn [foldl].
    destruct (index_in_class_turn embeddings chunk_ids acc c Hwf Hne Hlen)
      as (Hwf1 & Hv1 & Hs1).
    destruct (IH _ Hwf1) as (Hwf' & Hv' & Hs'). cbn zeta in *.
    split; [done|]. split; intros other; [rewrite Hv', Hv1|rewrite Hs', Hv1, Hs1].
    + destruct (decide (other ∈ classes)) as [Hin|Hnin].
      * rewrite decide_False by (by intros ->). rewrite decide_True; [done|by right].
      * destruct (decide (other = c)) as [->|Hother].
        -- rewrite decide_True; [done|by left].
        -- rewrite decide_False; [done|]. by intros [?|?]%elem_of_cons.
    + destruct (decide (other ∈ classes)) as [Hin|Hnin].
      * rewrite decide_False by (by intros ->). rewrite decide_True; [done|by right].
      * destruct (decide (other = c)) as [->|Hother].
        -- rewrite decide_True; [done|by left].
        -- rewrite decide_False; [done|]. by intros [?|?]%elem_of_cons.
Qed.

(** The shape of a call of [index_document] that reaches the
    embedding of the chunks. *)
Lemma index_document_unfold drawn text_content self files document_id :
  text_content ≠ [] →
  let chunks :=
    DocumentProcessor.create_chunks DocumentProcessor.default_chunk_size
      DocumentProcessor.default_chunk_overlap uuid4
      (drawn + length (DocumentProcessor.create_chunks
                         DocumentProcessor.default_chunk_size
                         DocumentProcessor.default_chunk_overlap uuid4 drawn
                         text_content document_id))
      text_content document_id in
  let db1 := foldl Indexing.add_chunk (rag_db self) chunks in
  Indexing.index_document uuid4 drawn (Some text_content) self files document_id
  = match generate_embeddings
            ((λ chunk, content (DocumentProcessor.new_chunk_row chunk)) <$> chunks) with
    | None =>
        ({| rag_db := db1; rag_vector_db := rag_vector_db self |}, files,
         Some "error", false)
    | Some embeddings =>
        let loop :=
          foldl (Indexing.index_in_class embeddings
                   (DocumentProcessor.new_chunk_id <$> chunks))
                (rag_vector_db self, files)
                (Indexing.assigned_classes db1 document_id) in
        ({| rag_db := db1; rag_vector_db := loop.1 |}, loop.2, Some "ready", true)
    end.
Proof.
  intros Hne. cbn zeta. unfold Indexing.index_document, DocumentProcessor.process_document.
  destruct text_content as [|c text]; [done|]. cbn [negb].
  destruct (generate_embeddings _); [|done].
  by destruct (foldl _ _ _).
Qed.
End IndexingProperties.

Section IndexDocumentProperties.
Context `{Backend}.
Variable uuid4 : nat → string.

Lemma indexed_chunks_made drawn text_content document_id chunk :
  chunk ∈ indexed_chunks uuid4 drawn text_content document_id →
  (∃ k, DocumentProcessor.new_chunk_id chunk = uuid4 k)
  ∧ chunk_document_id (DocumentProcessor.new_chunk_row chunk) = document_id.
Proof.
  intros (k & Hk)%list_elem_of_lookup_1. unfold indexed_chunks in Hk.
  destruct (create_chunks_spec DocumentProcessor.default_chunk_size
              DocumentProcessor.default_chunk_overlap uuid4
              (drawn + length (DocumentProcessor.create_chunks
                                 DocumentProcessor.default_chunk_size
                                 DocumentProcessor.default_chunk_overlap uuid4 drawn
                                 text_content document_id))
              document_id text_content) as (Hmade & _).
  destruct (Hmade k chunk Hk) as (_ & Hid & Hdoc & _). split; [by eexists|done].
Qed.

(** Storing the chunks of a document whose ids are new keeps a sound
    service sound, whatever mapping entries are added for the classes
    the document is assigned to. *)
Lemma rag_sound_indexed self drawn text_content document_id vdb :
  (∀ k, document_chunks (rag_db self) !! uuid4 k = None) →
  rag_sound self →
  (∀ class_id chunk_id,
     chunk_id ∈ visible_mapping vdb class_id →
     chunk_id ∈ visible_mapping (rag_vector_db self) class_id
     ∨ (class_id
          ∈ Indexing.assigned_classes
              (foldl Indexing.add_chunk (rag_db self)
                     (indexed_chunks uuid4 drawn text_content document_id))
              document_id
        ∧ chunk_id ∈ DocumentProcessor.new_chunk_id
                       <$> indexed_chunks uuid4 drawn text_content document_id)) →
  rag_sound
    {| rag_db := foldl Indexing.add_chunk (rag_db self)
                       (indexed_chunks uuid4 drawn text_content document_id);
       rag_vector_db := vdb |}.
Proof.
  intros Hfresh Hsound Hvisible class_id chunk_id Hin. cbn [rag_db rag_vector_db] in *.
  set (chunks := indexed_chunks uuid4 drawn text_content document_id) in *.
  destruct (add_chunks_tables (rag_db self) chunks) as (Hc & _ & _ & Ha).
  unfold assigned. rewrite Ha.
  destruct (Hvisible _ _ Hin) as [Hold|[Hclass Hnew]].
  - destruct (Hsound _ _ Hold) as (chunk & Hchunk & Hassigned).
    exists chunk. split; [|done]. rewrite add_chunks_lookup_old; [done|].
    intros (new & -> & [[k Hk] _]%indexed_chunks_made)%list_elem_of_fmap.
    rewrite Hk, Hfresh in Hchunk. done.
  - destruct (add_chunks_lookup_new (rag_db self) chunks chunk_id Hnew)
      as (new & [_ Hdoc]%indexed_chunks_made & _ & Hstored).
    exists (DocumentProcessor.new_chunk_row new). split; [done|].
    rewrite Hdoc. apply assigned_classes_spec in Hclass as [Hassigned _].
    unfold assigned in Hassigned. by rewrite Ha in Hassigned.
Qed.

Lemma index_document_sound drawn extracted self files document_id :
  (∀ k, document_chunks (rag_db self) !! uuid4 k = None) →
  rag_sound self →
  rag_sound (Indexing.index_document uuid4 drawn extracted self files document_id).1.1.1.
Proof.
  intros Hfresh Hsound.
  destruct extracted as [[|c text]|]; [done| |done].
  rewrite index_document_unfold by done. cbn zeta.
  fold (indexed_chunks uuid4 drawn (c :: text) document_id).
  destruct (generate_embeddings _) as [embeddings|]; cbn [fst].
  - apply rag_sound_indexed; [done..|]. intros class_id chunk_id.
    apply index_loop_sound.
  - apply rag_sound_indexed; [done..|]. by left.
Qed.
End IndexDocumentProperties.

(** X23.  [index_document] keeps isolation.  When the ids drawn for
    new chunks are ids of no stored chunk, and every id a search can
    read on a class is the id of a stored chunk of a document assigned
    to that class, the same holds after the call, whatever the call
    returns: the chunks it stores belong to the document, and their ids
    enter the mappings of the classes the document is assigned to and
    of no other class. *)
Theorem index_document_keeps_isolation `{Backend}
    (uuid4 : nat → string) (drawn : nat) (extracted : option (list ascii))
    (self : RAGService) (files : Persistent.DataDir) (document_id : string) :
  (∀ k, document_chunks (rag_db self) !! uuid4 k = None) →
  rag_sound self →
  rag_sound (Indexing.index_document uuid4 drawn extracted self files document_id).1.1.1.
Proof.
  intros Hfresh Hsound.
  destruct extracted as [[|c text]|]; [done| |done].
  rewrite index_document_unfold by done. cbn zeta.
  fold (indexed_chunks uuid4 drawn (c :: text) document_id).
  destruct (generate_embeddings _) as [embeddings|]; cbn [fst].
  - apply rag_sound_indexed; [done..|]. intros class_id chunk_id.
    apply index_loop_sound.
  - apply rag_sound_indexed; [done..|]. by left.
Qed.

Lemma rag_blank_fresh (k : nat) :
  document_chunks (rag_db Saved.rag_blank) !! Saved.uuid4 k = None.
Proof. apply lookup_empty. Qed.

Lemma rag_blank_sound : rag_sound Saved.rag_blank.
Proof.
  intros class_id chunk_id. cbn [Saved.rag_blank rag_vector_db].
  rewrite visible_mapping_init. by intros ?%elem_of_nil.
Qed.

Lemma rag_blank_classes (class_id : string) :
  assigned (rag_db Saved.rag_blank) "doc1" class_id →
  is_Some (classes (rag_db Saved.rag_blank) !! class_id).
Proof.
  unfold assigned. cbn [Saved.rag_blank rag_db class_documents].
  intros [= ->]%elem_of_singleton. vm_compute. by eexists.
Qed.

Lemma uuid4_inj (i j : nat) : Saved.uuid4 i = Saved.uuid4 j → i = j.
Proof.
  unfold Saved.uuid4. intros [= Heq]. apply Unsigned.to_uint_inj.
  apply (f_equal NilEmpty.uint_of_string) in Heq.
  rewrite !NilEmpty.usu in Heq. by injection Heq.
Qed.

(** X23 at the blank sample service and a text of two sentences. *)
Lemma index_document_keeps_isolation_witness :
  (∀ k, document_chunks (rag_db Saved.rag_blank) !! Saved.uuid4 k = None)
  ∧ rag_sound Saved.rag_blank
  ∧ rag_sound
      (Indexing.index_document Saved.uuid4 0 (Some Saved.two_sentences) Saved.rag_blank
         Saved.empty_dir "doc1").1.1.1.
Proof.
  split; [exact rag_blank_fresh|]. split; [exact rag_blank_sound|].
  exact (index_document_keeps_isolation Saved.uuid4 0 (Some Saved.two_sentences)
           Saved.rag_blank Saved.empty_dir "doc1" rag_blank_fresh rag_blank_sound).
Defined.

Section IndexDocumentReach.
Context `{Backend}.
Variable uuid4 : nat → string.

Lemma indexed_chunks_stored drawn text_content document_id db0 chunk :
  (∀ i j, uuid4 i = uuid4 j → i = j) →
  chunk ∈ indexed_chunks uuid4 drawn text_content document_id →
  document_chunks
    (foldl Indexing.add_chunk db0 (indexed_chunks uuid4 drawn text_content document_id))
  !! DocumentProcessor.new_chunk_id chunk
  = Some (DocumentProcessor.new_chunk_row chunk).
Proof.
  intros Hinj Hin.
  destruct (add_chunks_lookup_new db0
              (indexed_chunks uuid4 drawn text_content document_id)
              (DocumentProcessor.new_chunk_id chunk))
    as (chunk' & Hin' & Hid & ->); [by apply list_elem_of_fmap_2|].
  apply list_elem_of_lookup_1 in Hin as [k Hk], Hin' as [k' Hk'].
  unfold indexed_chunks in Hk, Hk'.
  destruct (create_chunks_spec DocumentProcessor.default_chunk_size
              DocumentProcessor.default_chunk_overlap uuid4
              (drawn + length (DocumentProcessor.create_chunks
                                 DocumentProcessor.default_chunk_size
                                 DocumentProcessor.default_chunk_overlap uuid4 drawn
                                 text_content document_id))
              document_id text_content) as (Hmade & _).
  destruct (Hmade k chunk Hk) as (_ & Hidk & _).
  destruct (Hmade k' chunk' Hk') as (_ & Hidk' & _).
  rewrite Hidk, Hidk' in Hid. apply Hinj in Hid.
  assert (k' = k) as -> by lia. congruence.
Qed.
End IndexDocumentReach.

(** X24.  A successful [index_document] reaches every class the
    document is assigned to, and no other.  For a text that gives at
    least one chunk, a model that returns one vector per chunk, distinct
    ids, and a vector database in which every index has a mapping no
    longer than it: the call returns success and writes the status
    [ready]; every new chunk is stored under its id; the mapping a
    search reads for a stored class the document is assigned to is
    extended by the ids of the new chunks, in order, and that mapping is
    the one saved for the class; for every other class the mapping and
    the saved mapping are as before. *)
Theorem index_document_reaches_assigned_classes `{Backend}
    (uuid4 : nat → string) (drawn : nat) (text_content : list ascii)
    (self : RAGService) (files : Persistent.DataDir) (document_id : string)
    (embeddings : list Vec) :
  (∀ i j, uuid4 i = uuid4 j → i = j) →
  well_formed (rag_vector_db self) →
  indexed_chunks uuid4 drawn text_content document_id ≠ [] →
  generate_embeddings
    ((λ chunk, content (DocumentProcessor.new_chunk_row chunk))
       <$> indexed_chunks uuid4 drawn text_content document_id)
  = Some embeddings →
  length embeddings = length (indexed_chunks uuid4 drawn text_content document_id) →
  let r := Indexing.index_document uuid4 drawn (Some text_content) self files
             document_id in
  let chunk_ids :=
    DocumentProcessor.new_chunk_id
      <$> indexed_chunks uuid4 drawn text_content document_id in
  r.2 = true
  ∧ r.1.2 = Some "ready"
  ∧ (∀ chunk, chunk ∈ indexed_chunks uuid4 drawn text_content document_id →
       document_chunks (rag_db r.1.1.1) !! DocumentProcessor.new_chunk_id chunk
       = Some (DocumentProcessor.new_chunk_row chunk))
  ∧ (∀ class_id,
       assigned (rag_db self) document_id class_id →
       is_Some (classes (rag_db self) !! class_id) →
       visible_mapping (rag_vector_db r.1.1.1) class_id
       = visible_mapping (rag_vector_db self) class_id ++ chunk_ids
       ∧ saved_mapping r.1.1.2 class_id
         = Some (visible_mapping (rag_vector_db self) class_id ++ chunk_ids))
  ∧ (∀ class_id,
       ¬ (assigned (rag_db self) document_id class_id
          ∧ is_Some (classes (rag_db self) !! class_id)) →
       visible_mapping (rag_vector_db r.1.1.1) class_id
       = visible_mapping (rag_vector_db self) class_id
       ∧ saved_mapping r.1.1.2 class_id = saved_mapping files class_id).
Proof.
  intros Hinj Hwf Hchunks Hgen Hlen. cbn zeta.
  assert (text_content ≠ []) as Htext.
  { intros ->. apply Hchunks. reflexivity. }
  rewrite index_document_unfold by done. cbn zeta.
  fold (indexed_chunks uuid4 drawn text_content document_id).
  set (chunks := indexed_chunks uuid4 drawn text_content document_id) in *.
  rewrite Hgen. cbn [fst snd rag_db rag_vector_db].
  assert (embeddings ≠ []) as Hne.
  { intros ->. destruct chunks; [done|discriminate Hlen]. }
  destruct (index_loop_complete embeddings (DocumentProcessor.new_chunk_id <$> chunks)
              (Indexing.assigned_classes (foldl Indexing.add_chunk (rag_db self) chunks)
                 document_id)
              (rag_vector_db self, files))
    as (_ & Hvisible & Hsaved);
    [done|done|by rewrite length_fmap|apply assigned_classes_NoDup|].
  cbn zeta in Hvisible, Hsaved. cbn [fst snd] in Hvisible, Hsaved.
  assert (∀ class_id,
            class_id ∈ Indexing.assigned_classes
                         (foldl Indexing.add_chunk (rag_db self) chunks) document_id
            ↔ assigned (rag_db self) document_id class_id
              ∧ is_Some (classes (rag_db self) !! class_id)) as Hclasses.
  { intros class_id. rewrite assigned_classes_spec. unfold assigned.
    destruct (add_chunks_tables (rag_db self) chunks) as (-> & _ & _ & ->). done. }
  split; [done|]. split; [done|]. split; [|split].
  - intros chunk Hin. by apply indexed_chunks_stored.
  - intros class_id Ha Hc. rewrite Hvisible, Hsaved.
    by rewrite !decide_True by (by apply Hclasses).
  - intros class_id Hnot. rewrite Hvisible, Hsaved.
    by rewrite !decide_False by (by rewrite Hclasses).
Qed.

(** X24 at the blank sample service: the one chunk of the text is
    stored, and its id is read for [class1]. *)
Lemma index_document_reaches_assigned_classes_witness :
  (∀ i j, Saved.uuid4 i = Saved.uuid4 j → i = j)
  ∧ well_formed (rag_vector_db Saved.rag_blank)
  ∧ indexed_chunks Saved.uuid4 0 Saved.two_sentences "doc1" ≠ []
  ∧ generate_embeddings (H := Fixture.backend)
      ((λ chunk, content (DocumentProcessor.new_chunk_row chunk))
         <$> indexed_chunks Saved.uuid4 0 Saved.two_sentences "doc1")
    = Some [[3 # 5; 4 # 5]]
  ∧ length [[3 # 5; 4 # 5]]
    = length (indexed_chunks Saved.uuid4 0 Saved.two_sentences "doc1")
  ∧ visible_mapping
      (rag_vector_db
         (Indexing.index_document Saved.uuid4 0 (Some Saved.two_sentences)
            Saved.rag_blank Saved.empty_dir "doc1").1.1.1) "class1"
    = ["u1"].
Proof.
  assert (indexed_chunks Saved.uuid4 0 Saved.two_sentences "doc1" ≠ []) as Hchunks
    by (vm_compute; discriminate).
  assert (generate_embeddings (H := Fixture.backend)
            ((λ chunk, content (DocumentProcessor.new_chunk_row chunk))
               <$> indexed_chunks Saved.uuid4 0 Saved.two_sentences "doc1")
          = Some [[3 # 5; 4 # 5]]) as Hgen by (vm_compute; reflexivity).
  assert (length [[3 # 5; 4 # 5]]
          = length (indexed_chunks Saved.uuid4 0 Saved.two_sentences "doc1")) as Hlen
    by (vm_compute; reflexivity).
  destruct (index_document_reaches_assigned_classes Saved.uuid4 0 Saved.two_sentences
              Saved.rag_blank Saved.empty_dir "doc1" [[3 # 5; 4 # 5]]
              uuid4_inj well_formed_init Hchunks Hgen Hlen)
    as (_ & _ & _ & Hassigned & _).
  split; [exact uuid4_inj|]. split; [exact well_formed_init|].
  split; [exact Hchunks|]. split; [exact Hgen|]. split; [exact Hlen|].
  destruct (Hassigned "class1") as [Hvisible _].
  - unfold assigned. cbn [Saved.rag_blank rag_db class_documents].
    by apply elem_of_singleton.
  - vm_compute. by eexists.
  - rewrite Hvisible. vm_compute. reflexivity.
Defined.

(** X25.  What [index_document] does when it does not index.  When the
    text cannot be extracted or is empty it returns failure and
    changes nothing, the status of the document included.  When the
    model fails on the chunks it returns failure and writes the status
    [error], with the new chunks stored and the vector database and
    the files as before.  When the text has no sentence of more than
    ten characters it returns success and writes the status [ready],
    with no chunk stored. *)
Theorem index_document_without_index `{Backend}
    (uuid4 : nat → string) (drawn : nat) (self : RAGService)
    (files : Persistent.DataDir) (document_id : string) :
  Indexing.index_document uuid4 drawn None self files document_id
  = (self, files, None, false)
  ∧ Indexing.index_document uuid4 drawn (Some []) self files document_id
    = (self, files, None, false)
  ∧ (∀ text_content,
       text_content ≠ [] →
       generate_embeddings
         ((λ chunk, content (DocumentProcessor.new_chunk_row chunk))
            <$> indexed_chunks uuid4 drawn text_content document_id)
       = None →
       Indexing.index_document uuid4 drawn (Some text_content) self files document_id
       = ({| rag_db := foldl Indexing.add_chunk (rag_db self)
                             (indexed_chunks uuid4 drawn text_content document_id);
             rag_vector_db := rag_vector_db self |},
          files, Some "error", false))
  ∧ (∀ text_content,
       text_content ≠ [] →
       DocumentProcessor.split_sentences (DocumentProcessor.clean_text text_content) = [] →
       let r := Indexing.index_document uuid4 drawn (Some text_content) self files
                  document_id in
       r.2 = true ∧ r.1.2 = Some "ready" ∧ rag_db r.1.1.1 = rag_db self).
Proof.
  split; [done|]. split; [done|]. split.
  - intros text_content Hne Hgen. rewrite index_document_unfold by done. cbn zeta.
    fold (indexed_chunks uuid4 drawn text_content document_id). by rewrite Hgen.
  - intros text_content Hne Hnone. cbn zeta.
    rewrite index_document_unfold by done. cbn zeta.
    fold (indexed_chunks uuid4 drawn text_content document_id).
    assert (indexed_chunks uuid4 drawn text_content document_id = []) as ->.
    { destruct (create_chunks_spec DocumentProcessor.default_chunk_size
                  DocumentProcessor.default_chunk_overlap uuid4
                  (drawn + length (DocumentProcessor.create_chunks
                                     DocumentProcessor.default_chunk_size
                                     DocumentProcessor.default_chunk_overlap uuid4 drawn
                                     text_content document_id))
                  document_id text_content) as (_ & _ & Hlen & _).
      cbn zeta in Hlen. rewrite Hnone in Hlen. unfold indexed_chunks.
      by destruct (DocumentProcessor.create_chunks _ _ _ _ _ _);
        [|simpl in Hlen; lia]. }
    done.
Qed.

(** ** [reindex_document] *)

Section ReindexProperties.
Context `{Backend}.
Variable uuid4 : nat → string.

Lemma filter_filter_same {A} (P : A → Prop) `{!∀ x, Decision (P x)} (l : list A) :
  filter P (filter P l) = filter P l.
Proof. apply filter_all, Forall_forall. by intros x [? _]%list_elem_of_filter. Qed.

Lemma removal_loop_visible classes vdb document_id chunk_ids class_id :
  visible_mapping
    (foldl (λ vdb class_id,
              (remove_document_embeddings vdb class_id document_id chunk_ids).1)
           vdb classes)
    class_id
  = if decide (class_id ∈ classes)
    then filter (λ chunk_id, chunk_id ∉ chunk_ids) (visible_mapping vdb class_id)
    else visible_mapping vdb class_id.
Proof.
  revert vdb. induction classes as [|c classes IH]; intros vdb.
  - rewrite decide_False; [done|]. by intros ?%elem_of_nil.
  - cbn [foldl]. rewrite IH, visible_mapping_remove.
    destruct (decide (class_id ∈ classes)) as [Hin|Hnin].
    + rewrite (decide_True (P := class_id ∈ c :: classes)) by (by right).
      case_decide as Hc; [|done]. subst. apply filter_filter_same.
    + destruct (decide (class_id = c)) as [->|Hne].
      * rewrite decide_True; [done|by left].
      * rewrite decide_False; [done|]. by intros [?|?]%elem_of_cons.
Qed.

Lemma delete_loop db0 (rows : list (string * DocumentChunk)) :
  foldl (λ db chunk, delete_chunk db chunk.1) db0 rows
  = {| classes := classes db0; documents := documents db0;
       document_chunks := foldl (λ m row, delete row.1 m) (document_chunks db0) rows;
       student_access := student_access db0;
       class_documents := class_documents db0 |}.
Proof.
  revert db0. induction rows as [|row rows IH]; intros db0; [by destruct db0|].
  cbn [foldl]. by rewrite IH.
Qed.

(** The service [reindex_document] hands to [index_document]: the
    rows of the document are gone, and so are their ids from the
    mappings of the classes the document is assigned to. *)
Lemma reindex_document_cleared self document_id :
  (∀ class_id,
     assigned (rag_db self) document_id class_id →
     is_Some (classes (rag_db self) !! class_id)) →
  rag_sound self →
  let existing_chunks := chunks_of_document (rag_db self) document_id in
  let cleared :=
    {| rag_db := foldl (λ db chunk, delete_chunk db chunk.1) (rag_db self) existing_chunks;
       rag_vector_db :=
         foldl (λ vdb class_id,
                  (remove_document_embeddings vdb class_id document_id
                     existing_chunks.*1).1)
               (rag_vector_db self)
               (Indexing.assigned_classes (rag_db self) document_id) |} in
  rag_sound cleared
  ∧ document_chunks (rag_db cleared)
    = filter (λ row, chunk_document_id row.2 ≠ document_id) (document_chunks (rag_db self)).
Proof.
  intros Hclasses Hsound. cbn zeta. cbn [rag_db rag_vector_db].
  rewrite delete_loop. cbn [document_chunks].
  assert (foldl (λ m row, delete row.1 m) (document_chunks (rag_db self))
                (chunks_of_document (rag_db self) document_id)
          = filter (λ row, chunk_document_id row.2 ≠ document_id)
                   (document_chunks (rag_db self))) as Hdeleted
    by apply (delete_selected_rows (λ row, chunk_document_id row.2 = document_id)).
  split; [|done].
  intros class_id chunk_id. cbn [rag_db rag_vector_db document_chunks].
  rewrite removal_loop_visible, Hdeleted. unfold assigned. cbn [class_documents].
  intros Hin.
  assert (chunk_id ∈ visible_mapping (rag_vector_db self) class_id
          ∧ (class_id ∈ Indexing.assigned_classes (rag_db self) document_id →
             chunk_id ∉ (chunks_of_document (rag_db self) document_id).*1))
    as [Hold Hkept].
  { case_decide as Hc.
    - apply list_elem_of_filter in Hin as [? ?]. done.
    - done. }
  destruct (Hsound _ _ Hold) as (chunk & Hchunk & Hassigned).
  exists chunk. split; [|done].
  apply map_lookup_filter_Some. split; [done|]. cbn [snd]. intros Hdoc.
  apply Hkept.
  - apply assigned_classes_spec. rewrite <- Hdoc. split; [done|].
    apply Hclasses. by rewrite <- Hdoc.
  - apply chunk_ids_of_document_spec. by exists chunk.
Qed.
End ReindexProperties.

(** X26.  [reindex_document] deletes the chunks of the old text, in
    the tables and in the mappings held in memory, and saves nothing
    unless it indexes anew.  When the ids drawn for new chunks are ids
    of no stored chunk, the classes the document is assigned to are
    stored, and every id a search of this service can read on a class
    is the id of a stored chunk of a document assigned to that class,
    the same holds of this service after the call; whatever the call
    returns, no chunk row the document had before is stored afterwards,
    and no search of this service can read the id of one.  When the
    call returns failure (the text can no longer be extracted, or the
    model fails), the files are what they were: a service constructed
    afterwards reads for every stored class the mapping saved before
    the call, with the ids of the deleted rows if they were saved. *)
Theorem reindex_document_replaces_chunks `{Backend}
    (uuid4 : nat → string) (drawn : nat) (extracted : option (list ascii))
    (self : RAGService) (files : Persistent.DataDir) (document_id : string) :
  (∀ k, document_chunks (rag_db self) !! uuid4 k = None) →
  (∀ class_id,
     assigned (rag_db self) document_id class_id →
     is_Some (classes (rag_db self) !! class_id)) →
  rag_sound self →
  let r := Indexing.reindex_document uuid4 drawn extracted self files document_id in
  rag_sound r.1.1.1
  ∧ (∀ chunk_id chunk,
       document_chunks (rag_db self) !! chunk_id = Some chunk →
       chunk_document_id chunk = document_id →
       document_chunks (rag_db r.1.1.1) !! chunk_id = None
       ∧ ∀ class_id, chunk_id ∉ visible_mapping (rag_vector_db r.1.1.1) class_id)
  ∧ (r.2 = false →
     r.1.1.2 = files
     ∧ ∀ rag class_id,
         Persistent.RAGService_init (rag_db r.1.1.1) r.1.1.2 = Some rag →
         is_Some (classes (rag_db self) !! class_id) →
         visible_mapping (rag_vector_db rag) class_id
         = default [] (saved_mapping files class_id)).
Proof.
  intros Hfresh Hclasses Hsound. cbn zeta. unfold Indexing.reindex_document.
  destruct (reindex_document_cleared self document_id Hclasses Hsound)
    as [Hcleared Hrows].
  cbn zeta in Hcleared, Hrows.
  set (cleared := {| rag_db := _ |}) in *.
  assert (classes (rag_db cleared) = classes (rag_db self)) as Hsame.
  { unfold cleared. cbn [rag_db]. by rewrite delete_loop. }
  assert (∀ k, document_chunks (rag_db cleared) !! uuid4 k = None) as Hfresh'.
  { intros k. rewrite Hrows. apply map_lookup_filter_None. left. apply Hfresh. }
  pose proof (index_document_sound uuid4 drawn extracted cleared files document_id
                Hfresh' Hcleared) as Hafter.
  split; [done|]. split.
  - intros chunk_id chunk Hchunk Hdoc.
    assert (document_chunks
              (rag_db (Indexing.index_document uuid4 drawn extracted cleared files
                         document_id).1.1.1)
            !! chunk_id = None) as Hgone.
    { assert (document_chunks (rag_db cleared) !! chunk_id = None) as Hdeleted.
      { rewrite Hrows. apply map_lookup_filter_None. right.
        intros chunk' Hchunk'. cbn [snd]. intros Hne. apply Hne. congruence. }
      destruct extracted as [[|c text]|]; [done| |done].
      rewrite index_document_unfold by done. cbn zeta.
      fold (indexed_chunks uuid4 drawn (c :: text) document_id).
      assert (document_chunks
                (foldl Indexing.add_chunk (rag_db cleared)
                       (indexed_chunks uuid4 drawn (c :: text) document_id))
              !! chunk_id = None) as Hstill.
      { rewrite add_chunks_lookup_old; [done|].
        intros (new & -> & [[k Hk] _]%indexed_chunks_made)%list_elem_of_fmap.
        rewrite Hk, Hfresh in Hchunk. done. }
      by destruct (generate_embeddings _). }
    split; [done|]. intros class_id Hin.
    destruct (Hafter _ _ Hin) as (chunk' & Hchunk' & _). congruence.
  - intros Hfailed.
    assert ((Indexing.index_document uuid4 drawn extracted cleared files
               document_id).1.1.2 = files
            ∧ classes (rag_db (Indexing.index_document uuid4 drawn extracted cleared
                                 files document_id).1.1.1)
              = classes (rag_db self)) as [Hfiles Hcls].
    { destruct extracted as [[|c text]|]; [done| |done].
      rewrite index_document_unfold in Hfailed |- * by done. cbn zeta in *.
      destruct (generate_embeddings _); [done|]. cbn [fst snd rag_db].
      split; [done|]. by destruct (add_chunks_tables (rag_db cleared)
        (DocumentProcessor.create_chunks DocumentProcessor.default_chunk_size
           DocumentProcessor.default_chunk_overlap uuid4
           (drawn + length (DocumentProcessor.create_chunks
                              DocumentProcessor.default_chunk_size
                              DocumentProcessor.default_chunk_overlap uuid4 drawn
                              (c :: text) document_id))
           (c :: text) document_id)) as (-> & _). }
    split; [done|]. intros rag class_id Hinit Hclass.
    rewrite Hfiles in Hinit.
    apply (RAGService_init_visible _ _ _ class_id Hinit). by rewrite Hcls.
Qed.

Lemma rag_indexed_fresh (k : nat) :
  document_chunks (rag_db Saved.rag_indexed) !! Saved.uuid4 k = None.
Proof.
  cbn [Saved.rag_indexed rag_db document_chunks Fixture.sample_data].
  rewrite !lookup_insert_ne by done. by apply lookup_singleton_ne.
Qed.

Lemma rag_indexed_classes (class_id : string) :
  assigned (rag_db Saved.rag_indexed) "doc1" class_id →
  is_Some (classes (rag_db Saved.rag_indexed) !! class_id).
Proof.
  unfold assigned. cbn [Saved.rag_indexed rag_db class_documents].
  intros [[= ->]%elem_of_singleton|[= ]%elem_of_singleton]%elem_of_union.
  vm_compute. by eexists.
Qed.

Lemma rag_indexed_sound : rag_sound Saved.rag_indexed.
Proof.
  intros class_id chunk_id. cbn [Saved.rag_indexed rag_db rag_vector_db].
  assert (Fixture.vdb_two_documents
          = {| indexes := {[ "class1" := [Fixture.e1; Fixture.e2] ]};
               chunk_mappings := {[ "class1" := ["chunk1"; "chunk2"] ]} |}) as ->
    by (vm_compute; reflexivity).
  unfold visible_mapping. cbn [indexes chunk_mappings].
  destruct (decide (class_id = "class1")) as [->|Hne].
  - rewrite !lookup_singleton_eq.
    intros [->|[->|?%elem_of_nil]%elem_of_cons]%elem_of_cons; [| |done].
    + eexists. split; [vm_compute; reflexivity|].
      apply (bool_decide_unpack _). vm_compute. exact I.
    + eexists. split; [vm_compute; reflexivity|].
      apply (bool_decide_unpack _). vm_compute. exact I.
  - rewrite lookup_singleton_ne by done. by intros ?%elem_of_nil.
Qed.

(** X26 at the sample service with the chunks of [doc1] and [doc2]
    indexed and saved for [class1], when the text of [doc1] can no
    longer be extracted: the row of [chunk1] is deleted and its id is
    gone from the mapping in memory, the call returns failure, and the
    service constructed afterwards reads [chunk1] back from the
    files. *)
Lemma reindex_document_replaces_chunks_witness :
  (∀ k, document_chunks (rag_db Saved.rag_indexed) !! Saved.uuid4 k = None)
  ∧ (∀ class_id,
       assigned (rag_db Saved.rag_indexed) "doc1" class_id →
       is_Some (classes (rag_db Saved.rag_indexed) !! class_id))
  ∧ rag_sound Saved.rag_indexed
  ∧ document_chunks (rag_db Saved.rag_indexed) !! "chunk1"
    = Some (mkDocumentChunk "doc1" "Math content" None None)
  ∧ visible_mapping (rag_vector_db Saved.rag_indexed) "class1" = ["chunk1"; "chunk2"]
  ∧ saved_mapping Saved.files_two_documents "class1" = Some ["chunk1"; "chunk2"]
  ∧ (Indexing.reindex_document Saved.uuid4 0 None Saved.rag_indexed
       Saved.files_two_documents "doc1").2 = false
  ∧ document_chunks
      (rag_db (Indexing.reindex_document Saved.uuid4 0 None Saved.rag_indexed
                 Saved.files_two_documents "doc1").1.1.1) !! "chunk1" = None
  ∧ ("chunk1"
     ∉ visible_mapping
         (rag_vector_db (Indexing.reindex_document Saved.uuid4 0 None Saved.rag_indexed
                           Saved.files_two_documents "doc1").1.1.1) "class1")
  ∧ ∃ rag,
      Persistent.RAGService_init
        (rag_db (Indexing.reindex_document Saved.uuid4 0 None Saved.rag_indexed
                   Saved.files_two_documents "doc1").1.1.1)
        (Indexing.reindex_document Saved.uuid4 0 None Saved.rag_indexed
           Saved.files_two_documents "doc1").1.1.2 = Some rag
      ∧ visible_mapping (rag_vector_db rag) "class1" = ["chunk1"; "chunk2"].
Proof.
  assert (document_chunks (rag_db Saved.rag_indexed) !! "chunk1"
          = Some (mkDocumentChunk "doc1" "Math content" None None)) as Hrow
    by (vm_compute; reflexivity).
  assert (saved_mapping Saved.files_two_documents "class1"
          = Some ["chunk1"; "chunk2"]) as Hsaved by (vm_compute; reflexivity).
  assert ((Indexing.reindex_document Saved.uuid4 0 None Saved.rag_indexed
             Saved.files_two_documents "doc1").2 = false) as Hfailed
    by (vm_compute; reflexivity).
  destruct (reindex_document_replaces_chunks Saved.uuid4 0 None Saved.rag_indexed
              Saved.files_two_documents "doc1"
              rag_indexed_fresh rag_indexed_classes rag_indexed_sound)
    as (_ & Hgone & Hfiles).
  destruct (Hgone "chunk1" _ Hrow eq_refl) as [Hdeleted Hhidden].
  destruct (Hfiles Hfailed) as [Hkept Hread].
  split; [exact rag_indexed_fresh|]. split; [exact rag_indexed_classes|].
  split; [exact rag_indexed_sound|]. split; [exact Hrow|].
  split; [vm_compute; reflexivity|]. split; [exact Hsaved|].
  split; [exact Hfailed|]. split; [exact Hdeleted|]. split; [exact (Hhidden "class1")|].
  destruct (Persistent.RAGService_init
              (rag_db (Indexing.reindex_document Saved.uuid4 0 None Saved.rag_indexed
                         Saved.files_two_documents "doc1").1.1.1)
              (Indexing.reindex_document Saved.uuid4 0 None Saved.rag_indexed
                 Saved.files_two_documents "doc1").1.1.2) as [rag|] eqn:Hinit;
    [|vm_compute in Hinit; discriminate Hinit].
  exists rag. split; [reflexivity|].
  rewrite (Hread rag "class1" eq_refl) by (vm_compute; eexists; reflexivity).
  by rewrite Hsaved.
Defined.

(** ** [RAGService.assign_document_to_class] and
    [RAGService.remove_document_from_class] *)

Section RagAssignProperties.
Context `{Backend}.

Lemma well_formed_stats vdb class_id :
  well_formed vdb →
  chunk_count (get_index_stats vdb class_id) = length (visible_mapping vdb class_id)
  ∧ total_vectors (get_index_stats vdb class_id)
    = length (default [] (indexes vdb !! class_id)).
Proof.
  intros Hwf. unfold get_index_stats, visible_mapping.
  destruct (indexes vdb !! class_id) as [index|] eqn:Hi; [|done].
  destruct (Hwf _ _ Hi) as (m & -> & _). done.
Qed.

(** A successful call of the method of [RAGService], written out. *)
Lemma rag_assign_document_to_class_ok self files document_id class_id embeddings :
  well_formed (rag_vector_db self) →
  chunks_of_document (rag_db self) document_id ≠ [] →
  generate_embeddings
    ((λ chunk, content chunk.2) <$> chunks_of_document (rag_db self) document_id)
  = Some embeddings →
  length embeddings = length (chunks_of_document (rag_db self) document_id) →
  Persistent.rag_assign_document_to_class self files document_id class_id
  = ({| rag_db := rag_db self;
        rag_vector_db :=
          (Indexing.index_in_class embeddings
             (chunks_of_document (rag_db self) document_id).*1
             (rag_vector_db self, files) class_id).1 |},
     (Indexing.index_in_class embeddings
        (chunks_of_document (rag_db self) document_id).*1
        (rag_vector_db self, files) class_id).2,
     true).
Proof.
  intros Hwf Hchunks Hgen Hlen. unfold Persistent.rag_assign_document_to_class.
  assert (embeddings ≠ []) as Hne.
  { intros ->. destruct (chunks_of_document _ _); [done|discriminate Hlen]. }
  destruct (chunks_of_document (rag_db self) document_id) as [|chunk chunks] eqn:Hch;
    [done|].
  rewrite Hgen. unfold Indexing.index_in_class. cbn [fst snd].
  by rewrite add_embeddings_ok by done.
Qed.
End RagAssignProperties.

(** X27.  [RAGService.assign_document_to_class] adds the chunks of a
    document to a class index each time it is called, and does not look
    at the assignments.  For a document with chunks, a model that
    returns one vector per chunk, and a vector database in which every
    index has a mapping no longer than it: the call succeeds, leaves
    the relational store as it is, extends the mapping a search reads
    for the class by the ids of the chunks, whether or not they are in
    it already, saves that mapping, and raises both counts of
    [get_class_index_stats] by the number of chunks.  For a document
    without chunks it fails and changes nothing. *)
Theorem rag_assignment_appends_each_time `{Backend}
    (self : RAGService) (files : Persistent.DataDir) (document_id class_id : string)
    (embeddings : list Vec) :
  (chunks_of_document (rag_db self) document_id = [] →
   Persistent.rag_assign_document_to_class self files document_id class_id
   = (self, files, false))
  ∧ (well_formed (rag_vector_db self) →
     chunks_of_document (rag_db self) document_id ≠ [] →
     generate_embeddings
       ((λ chunk, content chunk.2) <$> chunks_of_document (rag_db self) document_id)
     = Some embeddings →
     length embeddings = length (chunks_of_document (rag_db self) document_id) →
     let r := Persistent.rag_assign_document_to_class self files document_id class_id in
     let chunk_ids := (chunks_of_document (rag_db self) document_id).*1 in
     r.2 = true
     ∧ rag_db r.1.1 = rag_db self
     ∧ visible_mapping (rag_vector_db r.1.1) class_id
       = visible_mapping (rag_vector_db self) class_id ++ chunk_ids
     ∧ saved_mapping r.1.2 class_id
       = Some (visible_mapping (rag_vector_db self) class_id ++ chunk_ids)
     ∧ chunk_count (Persistent.get_class_index_stats r.1.1 class_id)
       = chunk_count (Persistent.get_class_index_stats self class_id) + length chunk_ids
     ∧ total_vectors (Persistent.get_class_index_stats r.1.1 class_id)
       = total_vectors (Persistent.get_class_index_stats self class_id)
         + length chunk_ids).
Proof.
  split.
  - intros Hnone. unfold Persistent.rag_assign_document_to_class. by rewrite Hnone.
  - intros Hwf Hchunks Hgen Hlen. cbn zeta.
    rewrite (rag_assign_document_to_class_ok _ _ _ _ embeddings) by done.
    assert (embeddings ≠ []) as Hne.
    { intros ->. destruct (chunks_of_document _ _); [done|discriminate Hlen]. }
    destruct (index_in_class_turn embeddings
                (chunks_of_document (rag_db self) document_id).*1
                (rag_vector_db self, files) class_id)
      as (Hwf' & Hvisible & Hsaved); [done|done|by rewrite length_fmap|].
    cbn zeta in *. cbn [fst snd rag_db rag_vector_db] in *.
    unfold Persistent.get_class_index_stats. cbn [rag_vector_db].
    destruct (well_formed_stats _ class_id Hwf') as [-> ->].
    destruct (well_formed_stats _ class_id Hwf) as [-> ->].
    rewrite Hvisible, Hsaved, !decide_True by done.
    split; [done|]. split; [done|]. split; [done|]. split; [done|].
    split; [by rewrite length_app|].
    unfold Indexing.index_in_class. cbn [fst].
    rewrite add_embeddings_ok by done. cbn [fst indexes].
    rewrite lookup_insert_eq. unfold default at 1. cbn [from_option]. unfold id.
    by rewrite length_app, !length_fmap, Hlen.
Qed.

(** X28.  Removing after assigning restores the mapping, not the
    index.  After a successful [RAGService.assign_document_to_class]
    of a document none of whose chunk ids the class's mapping held,
    [RAGService.remove_document_from_class] succeeds, the mapping a
    search reads for the class and the saved mapping are the ones
    before the assignment, and the index still holds the vectors that
    were added: [total_vectors] exceeds [chunk_count] by their number
    more than before. *)
Theorem rag_removal_after_assignment `{Backend}
    (self : RAGService) (files : Persistent.DataDir) (document_id class_id : string)
    (embeddings : list Vec) :
  well_formed (rag_vector_db self) →
  chunks_of_document (rag_db self) document_id ≠ [] →
  generate_embeddings
    ((λ chunk, content chunk.2) <$> chunks_of_document (rag_db self) document_id)
  = Some embeddings →
  length embeddings = length (chunks_of_document (rag_db self) document_id) →
  (∀ chunk_id,
     chunk_id ∈ (chunks_of_document (rag_db self) document_id).*1 →
     chunk_id ∉ visible_mapping (rag_vector_db self) class_id) →
  let assigned := Persistent.rag_assign_document_to_class self files document_id class_id in
  let removed :=
    Persistent.rag_remove_document_from_class assigned.1.1 assigned.1.2
      document_id class_id in
  removed.2 = true
  ∧ visible_mapping (rag_vector_db removed.1.1) class_id
    = visible_mapping (rag_vector_db self) class_id
  ∧ saved_mapping removed.1.2 class_id
    = Some (visible_mapping (rag_vector_db self) class_id)
  ∧ chunk_count (Persistent.get_class_index_stats removed.1.1 class_id)
    = chunk_count (Persistent.get_class_index_stats self class_id)
  ∧ total_vectors (Persistent.get_class_index_stats removed.1.1 class_id)
    = total_vectors (Persistent.get_class_index_stats self class_id)
      + length (chunks_of_document (rag_db self) document_id).
Proof.
  intros Hwf Hchunks Hgen Hlen Hnew. cbn zeta.
  rewrite (rag_assign_document_to_class_ok _ _ _ _ embeddings) by done.
  assert (embeddings ≠ []) as Hne.
  { intros ->. destruct (chunks_of_document _ _); [done|discriminate Hlen]. }
  unfold Indexing.index_in_class. cbn [fst snd].
  rewrite add_embeddings_ok by done. cbn [fst].
  set (chunk_ids := (chunks_of_document (rag_db self) document_id).*1) in *.
  set (index := default [] (indexes (rag_vector_db self) !! class_id)
                ++ (l2_normalize <$> embeddings)).
  set (mapping := visible_mapping (rag_vector_db self) class_id ++ chunk_ids).
  set (vdb := {| indexes := <[class_id := index]> (indexes (rag_vector_db self)) |}).
  assert (indexes vdb !! class_id = Some index
          ∧ chunk_mappings vdb !! class_id = Some mapping) as [Hi Hm].
  { unfold vdb. cbn [indexes chunk_mappings]. by rewrite !lookup_insert_eq. }
  unfold Persistent.rag_remove_document_from_class. cbn [rag_db rag_vector_db].
  fold chunk_ids.
  rewrite (remove_document_embeddings_spec vdb class_id document_id chunk_ids index mapping)
    by done.
  cbn [fst snd rag_db rag_vector_db].
  assert (filter (λ chunk_id, chunk_id ∉ chunk_ids) mapping
          = visible_mapping (rag_vector_db self) class_id) as Hfiltered.
  { unfold mapping. rewrite filter_app.
    rewrite (filter_all (λ chunk_id, chunk_id ∉ chunk_ids)
               (visible_mapping (rag_vector_db self) class_id)).
    - rewrite filter_none; [by rewrite app_nil_r|].
      apply Forall_forall. by intros chunk_id ? ?.
    - apply Forall_forall. intros chunk_id Hin Hid. by apply (Hnew chunk_id). }
  rewrite Hfiltered.
  set (vdb' := {| indexes := indexes vdb |}).
  assert (indexes vdb' !! class_id = Some index
          ∧ chunk_mappings vdb' !! class_id
            = Some (visible_mapping (rag_vector_db self) class_id)) as [Hi' Hm'].
  { unfold vdb'. cbn [indexes chunk_mappings]. by rewrite lookup_insert_eq. }
  assert (∀ files0, (Persistent.save_index vdb' files0 class_id).2 = true) as Hsaved.
  { intros files0. unfold Persistent.save_index. by rewrite Hi', Hm'. }
  split; [done|]. split; [unfold visible_mapping at 1; by rewrite Hi', Hm'|].
  split.
  { destruct (save_index_files vdb' (Persistent.save_index vdb files class_id).1
                class_id class_id (Hsaved _)) as [_ ->].
    by rewrite decide_True. }
  unfold Persistent.get_class_index_stats. cbn [rag_vector_db].
  destruct (well_formed_stats _ class_id Hwf) as [-> ->].
  unfold get_index_stats. rewrite Hi', Hm'. cbn [chunk_count total_vectors default].
  split; [done|]. unfold index, Faiss.ntotal.
  by rewrite length_app, length_fmap, Hlen.
Qed.

(** X28 at the sample data: [doc1] added to the index of [class1] by
    the query service, and removed again. *)
Lemma rag_removal_after_assignment_witness :
  well_formed (rag_vector_db Fixture.rag_empty)
  ∧ chunks_of_document (rag_db Fixture.rag_empty) "doc1" ≠ []
  ∧ generate_embeddings (H := Fixture.backend)
      ((λ chunk, content chunk.2) <$> chunks_of_document (rag_db Fixture.rag_empty) "doc1")
    = Some [Fixture.e1]
  ∧ length [Fixture.e1] = length (chunks_of_document (rag_db Fixture.rag_empty) "doc1")
  ∧ total_vectors
      (Persistent.get_class_index_stats
         (Persistent.rag_remove_document_from_class
            (Persistent.rag_assign_document_to_class Fixture.rag_empty Saved.empty_dir
               "doc1" "class1").1.1
            (Persistent.rag_assign_document_to_class Fixture.rag_empty Saved.empty_dir
               "doc1" "class1").1.2
            "doc1" "class1").1.1
         "class1")
    = 1
  ∧ chunk_count
      (Persistent.get_class_index_stats
         (Persistent.rag_remove_document_from_class
            (Persistent.rag_assign_document_to_class Fixture.rag_empty Saved.empty_dir
               "doc1" "class1").1.1
            (Persistent.rag_assign_document_to_class Fixture.rag_empty Saved.empty_dir
               "doc1" "class1").1.2
            "doc1" "class1").1.1
         "class1")
    = 0.
Proof.
  assert (chunks_of_document (rag_db Fixture.rag_empty) "doc1" ≠ []) as Hchunks
    by (vm_compute; discriminate).
  assert (generate_embeddings (H := Fixture.backend)
            ((λ chunk, content chunk.2)
               <$> chunks_of_document (rag_db Fixture.rag_empty) "doc1")
          = Some [Fixture.e1]) as Hgen by (vm_compute; reflexivity).
  assert (length [Fixture.e1]
          = length (chunks_of_document (rag_db Fixture.rag_empty) "doc1")) as Hlen
    by (vm_compute; reflexivity).
  assert (∀ chunk_id,
            chunk_id ∈ (chunks_of_document (rag_db Fixture.rag_empty) "doc1").*1 →
            chunk_id ∉ visible_mapping (rag_vector_db Fixture.rag_empty) "class1") as Hnew.
  { intros chunk_id _. cbn [Fixture.rag_empty rag_vector_db].
    rewrite visible_mapping_init. by intros ?%elem_of_nil. }
  destruct (rag_removal_after_assignment Fixture.rag_empty Saved.empty_dir "doc1" "class1"
              [Fixture.e1] well_formed_init Hchunks Hgen Hlen Hnew)
    as (_ & _ & _ & Hcount & Htotal).
  split; [exact well_formed_init|]. split; [exact Hchunks|]. split; [exact Hgen|].
  split; [exact Hlen|]. split.
  - rewrite Htotal. vm_compute. reflexivity.
  - rewrite Hcount. vm_compute. reflexivity.
Defined.

(** ** The characters of a chunk *)

Section ChunkCharacters.
Import DocumentProcessor.

Lemma re_split_from_elem (skip : nat) (s acc piece : list ascii) (c : ascii) :
  piece ∈ re_split_from skip s acc → c ∈ piece → c ∈ s ∨ c ∈ acc.
Proof.
  revert skip acc. induction s as [|c0 s IH]; intros skip acc; simpl.
  - intros ->%list_elem_of_singleton ?%elem_of_rev_1. by right.
  - destruct skip as [|n].
    + destruct (separator_length (c0 :: s)) as [n|].
      * intros [->|Hin]%elem_of_cons Hc.
        -- right. by apply elem_of_rev_1.
        -- destruct (IH _ _ Hin Hc) as [?|?%elem_of_nil]; [|done]. left. by right.
      * intros Hin Hc. destruct (IH _ _ Hin Hc) as [?|[->|?]%elem_of_cons].
        -- left. by right.
        -- left. by left.
        -- by right.
    + intros Hin Hc. destruct (IH _ _ Hin Hc) as [?|?]; [|by right]. left. by right.
Qed.

Lemma split_sentences_elem (text sentence : list ascii) (c : ascii) :
  sentence ∈ split_sentences text → c ∈ sentence → c ∈ text.
Proof.
  unfold split_sentences. intros (fragment & Hfragment & Hs)%list_elem_of_omap.
  case_decide; [|done]. injection Hs as <-. intros Hc%elem_of_strip.
  destruct (re_split_from_elem _ _ _ _ _ Hfragment Hc) as [?|?%elem_of_nil]; done.
Qed.

Lemma split_from_elem (text acc w : list ascii) (c : ascii) :
  w ∈ split_from text acc → c ∈ w → c ∈ text ∨ c ∈ acc.
Proof.
  revert acc. induction text as [|c0 text IH]; intros acc; simpl.
  - destruct acc as [|a acc]; [by intros ?%elem_of_nil|].
    intros ->%list_elem_of_singleton ?%elem_of_rev_1. by right.
  - destruct (isspace c0).
    + destruct acc as [|a acc].
      * intros Hin Hc. destruct (IH _ Hin Hc) as [?|?]; [|by right]. left. by right.
      * intros [->|Hin]%elem_of_cons Hc.
        -- right. by apply elem_of_rev_1.
        -- destruct (IH _ Hin Hc) as [?|?%elem_of_nil]; [|done]. left. by right.
    + intros Hin Hc. destruct (IH _ Hin Hc) as [?|[->|?]%elem_of_cons].
      * left. by right.
      * left. by left.
      * by right.
Qed.

Lemma join_elem (sep : list ascii) (parts : list (list ascii)) (c : ascii) :
  c ∈ join sep parts → c ∈ sep ∨ ∃ part, part ∈ parts ∧ c ∈ part.
Proof.
  induction parts as [|part parts IH]; [by intros ?%elem_of_nil|].
  destruct parts as [|part' parts].
  - simpl. intros Hc. right. exists part. split; [by left|done].
  - change (join sep (part :: part' :: parts))
      with (part ++ sep ++ join sep (part' :: parts)).
    rewrite !elem_of_app. intros [Hc|[Hc|Hc]].
    + right. exists part. split; [by left|done].
    + by left.
    + destruct (IH Hc) as [?|(p & Hp & ?)]; [by left|].
      right. exists p. split; [by right|done].
Qed.

Lemma get_overlap_text_elem (text : list ascii) (overlap_tokens : nat) (c : ascii) :
  c ∈ get_overlap_text text overlap_tokens → c ∈ text ∨ c = " "%char.
Proof.
  unfold get_overlap_text. case_decide; [|by left].
  intros [Hc%list_elem_of_singleton|(w & Hw & Hc)]%join_elem; [by right|].
  left.
  assert (w ∈ split text) as Hin.
  { unfold last_words in Hw. destruct (overlap_tokens `div` 4); [done|].
    by eapply subseteq_drop. }
  destruct (split_from_elem _ _ _ _ Hin Hc) as [?|?%elem_of_nil]; done.
Qed.

Section Loop.
Variables chunk_size chunk_overlap : nat.
Variable uuid4 : nat → string.
Variable drawn : nat.
Variable document_id : string.
Variable Q : ascii → Prop.
Hypothesis Q_space : Q " "%char.

Lemma add_sentence_chars state sentence :
  Forall Q sentence →
  Forall Q state.1.1.2 →
  Forall (λ chunk, Forall Q (chunk_text chunk)) state.1.1.1 →
  let state' :=
    add_sentence chunk_size chunk_overlap uuid4 drawn document_id state sentence in
  Forall Q state'.1.1.2
  ∧ Forall (λ chunk, Forall Q (chunk_text chunk)) state'.1.1.1.
Proof.
  destruct state as [[[chunks current_chunk] current_tokens] chunk_index].
  cbn [fst snd]. intros Hsentence Hcurrent Hchunks. unfold add_sentence.
  destruct (decide (chunk_size < current_tokens + estimate_tokens sentence
                    ∧ current_chunk ≠ [])) as [Hfull|Hfull]; cbn [fst snd].
  - split.
    + apply Forall_app. split; [|by constructor].
      apply Forall_forall. intros c [Hc| ->]%get_overlap_text_elem; [|done].
      rewrite Forall_forall in Hcurrent. by apply Hcurrent.
    + apply Forall_app. split; [done|]. constructor; [|constructor].
      unfold chunk_text, _create_chunk. cbn [new_chunk_row content].
      rewrite list_ascii_of_string_of_list_ascii.
      apply Forall_forall. intros c Hc%elem_of_strip.
      rewrite Forall_forall in Hcurrent. by apply Hcurrent.
  - split; [|done]. apply Forall_app. split; [done|by constructor].
Qed.

Lemma create_chunks_chars (text : list ascii) :
  (∀ c, c ∈ clean_text text → Q c) →
  Forall (λ chunk, Forall Q (chunk_text chunk))
         (create_chunks chunk_size chunk_overlap uuid4 drawn text document_id).
Proof.
  intros Hclean. unfold create_chunks.
  assert (Forall (Forall Q) (split_sentences (clean_text text))) as Hsentences.
  { apply Forall_forall. intros sentence Hin. apply Forall_forall. intros c Hc.
    apply Hclean. by eapply split_sentences_elem. }
  assert (∀ sentences state,
            Forall (Forall Q) sentences →
            Forall Q state.1.1.2 →
            Forall (λ chunk, Forall Q (chunk_text chunk)) state.1.1.1 →
            let state' :=
              foldl (add_sentence chunk_size chunk_overlap uuid4 drawn document_id)
                    state sentences in
            Forall Q state'.1.1.2
            ∧ Forall (λ chunk, Forall Q (chunk_text chunk)) state'.1.1.1) as Hloop.
  { induction sentences as [|sentence sentences IH]; intros state Hs Hcur Hch;
      [done|].
    apply Forall_cons in Hs as [Hsentence Hs]. cbn [foldl].
    destruct (add_sentence_chars state sentence Hsentence Hcur Hch) as [Hcur' Hch'].
    by apply IH. }
  destruct (Hloop (split_sentences (clean_text text)) ([], [], 0, 0))
    as [Hcurrent Hchunks]; [done|constructor|constructor|].
  cbn zeta in Hcurrent, Hchunks.
  destruct (foldl _ _ _) as [[[chunks current_chunk] current_tokens] chunk_index].
  cbn [fst snd] in *.
  destruct (strip current_chunk) as [|c rest] eqn:Hstrip; [done|].
  apply Forall_app. split; [done|]. constructor; [|constructor].
  unfold chunk_text, _create_chunk. cbn [new_chunk_row content].
  rewrite list_ascii_of_string_of_list_ascii, <- Hstrip.
  apply Forall_forall. intros c' Hc'%elem_of_strip.
  rewrite Forall_forall in Hcurrent. by apply Hcurrent.
Qed.
End Loop.

(** Without a line feed, a pattern anchored at the start of a line is
    tried at the start of the text only. *)
Lemma search_lines_one_line {A} (match_at : list ascii → option A) (s : list ascii) :
  LF ∉ s → search_lines match_at true s = match_at s.
Proof.
  assert (∀ s, LF ∉ s → search_lines match_at false s = None) as Hrest.
  { clear s. induction s as [|c s IH]; [done|]. intros Hnot.
    apply not_elem_of_cons in Hnot as [Hc Hnot]. simpl.
    rewrite bool_decide_eq_false_2 by done. by apply IH. }
  intros Hnot. destruct s as [|c s]; simpl.
  - by destruct (match_at []).
  - destruct (match_at (c :: s)); [done|].
    apply not_elem_of_cons in Hnot as [Hc Hnot].
    rewrite bool_decide_eq_false_2 by done. by apply Hrest.
Qed.
End ChunkCharacters.

(** X29.  The text of a chunk made by [_create_chunks] holds only
    characters [_clean_text] keeps, and no whitespace but the space; in
    particular it is one line.  So the heading patterns of
    [_extract_section], anchored at the start of a line, are tried at
    the start of the chunk only: the section of a chunk is that of its
    first slide marker, if it has one, and else the first of the four
    headings, in their order, that the chunk text begins with. *)
Theorem chunk_heading_only_at_start
    (chunk_size chunk_overlap : nat) (uuid4 : nat → string) (drawn : nat)
    (text : list ascii) (document_id : string) (chunk : DocumentProcessor.NewChunk) :
  chunk ∈ DocumentProcessor.create_chunks chunk_size chunk_overlap uuid4 drawn
            text document_id →
  (∀ c, c ∈ chunk_text chunk →
        DocumentProcessor.is_kept c = true ∧ (whitespace c → c = " "%char))
  ∧ (DocumentProcessor.LF ∉ chunk_text chunk)
  ∧ section (DocumentProcessor.new_chunk_row chunk)
    = string_of_list_ascii
      <$> (match DocumentProcessor.search_from
                  (DocumentProcessor.match_marker (list_ascii_of_string "[SLIDE "))
                  (chunk_text chunk) with
          | Some digits => Some (list_ascii_of_string "Slide " ++ digits)
          | None =>
              DocumentProcessor.strip
              <$> head (omap (λ pattern, pattern (chunk_text chunk))
                             [ DocumentProcessor.match_heading
                                 (list_ascii_of_string "Chapter ");
                               DocumentProcessor.match_heading
                                 (list_ascii_of_string "Section ");
                               DocumentProcessor.match_title;
                               DocumentProcessor.match_numbered_title ])
          end).
Proof.
  intros Hin.
  pose proof (create_chunks_chars chunk_size chunk_overlap uuid4 drawn document_id
                (λ c, DocumentProcessor.is_kept c = true
                      ∧ (whitespace c → c = " "%char))
                ltac:(by split) text) as Hchars.
  rewrite Forall_forall in Hchars.
  specialize (Hchars (clean_text_chars text) chunk Hin).
  rewrite Forall_forall in Hchars.
  assert (DocumentProcessor.LF ∉ chunk_text chunk) as Hline.
  { intros Hlf. by destruct (Hchars _ Hlf) as [_ Hspace]; specialize (Hspace eq_refl). }
  split; [done|]. split; [done|].
  apply list_elem_of_lookup_1 in Hin as [k Hk].
  destruct (create_chunks_spec chunk_size chunk_overlap uuid4 drawn document_id text)
    as (Hmade & _).
  destruct (Hmade k chunk Hk) as (_ & _ & _ & _ & _ & _ & _ & ->).
  unfold DocumentProcessor.extract_section.
  destruct (DocumentProcessor.search_from _ (chunk_text chunk)); [done|].
  cbn [omap list_omap]. csimpl. by rewrite !search_lines_one_line by done.
Qed.

(** X29 at a text of two sentences. *)
Lemma chunk_heading_only_at_start_witness :
  ∃ chunk,
    chunk ∈ DocumentProcessor.create_chunks 700 100 Saved.uuid4 0
              Saved.two_sentences "doc1"
    ∧ DocumentProcessor.LF ∉ chunk_text chunk.
Proof.
  destruct (DocumentProcessor.create_chunks 700 100 Saved.uuid4 0
              Saved.two_sentences "doc1") as [|chunk rest] eqn:Hchunks;
    [vm_compute in Hchunks; discriminate|].
  assert (chunk ∈ DocumentProcessor.create_chunks 700 100 Saved.uuid4 0
                    Saved.two_sentences "doc1") as Hin
    by (rewrite Hchunks; left).
  exists chunk. rewrite <- Hchunks. split; [exact Hin|].
  exact (proj1 (proj2 (chunk_heading_only_at_start 700 100 Saved.uuid4 0
                         Saved.two_sentences "doc1" chunk Hin))).
Defined.

(** ** [_generate_answer_from_context] *)

Lemma NoDup_two_distinct {A} (l : list A) :
  NoDup l → 2 ≤ length l → ∃ x y, x ≠ y ∧ x ∈ l ∧ y ∈ l.
Proof.
  destruct l as [|x [|y l]]; simpl; [lia..|]. intros Hnodup _.
  exists x, y. split; [|split; [by left|by right; left]].
  apply NoDup_cons in Hnodup as [Hx _]. intros ->. apply Hx. by left.
Qed.

(** X30.  [_generate_answer_from_context] answers only a question that
    shares two words with the context.  Its result is the fixed
    sentence that nothing was found, or the words [Based on the course
    materials:] followed by a text that ends with a full stop.  In the
    second case two different words of the question, lower-cased, are
    words of the lower-cased context, so that a question of one word
    is never answered; and the text is made of at least one and at most
    three pieces of the context between full stops, each stripped and
    each holding, lower-cased, a word of the question, joined by a full
    stop and a space. *)
Theorem answer_needs_two_shared_words (query context : list ascii) :
  Answer.generate_answer_from_context query context = Answer.not_found
  ∨ ((∃ word1 word2,
        word1 ≠ word2
        ∧ word1 ∈ DocumentProcessor.split (Answer.lower <$> query)
        ∧ word2 ∈ DocumentProcessor.split (Answer.lower <$> query)
        ∧ word1 ∈ DocumentProcessor.split (Answer.lower <$> context)
        ∧ word2 ∈ DocumentProcessor.split (Answer.lower <$> context))
     ∧ ∃ sentences body,
         sentences ≠ [] ∧ length sentences ≤ 3
         ∧ (∀ sentence, sentence ∈ sentences →
              ∃ piece word,
                piece ∈ Answer.split_on "."%char context []
                ∧ sentence = DocumentProcessor.strip piece
                ∧ word ∈ DocumentProcessor.split (Answer.lower <$> query)
                ∧ Answer.contains (Answer.lower <$> piece) word = true)
         ∧ (body = DocumentProcessor.strip
                     (DocumentProcessor.join (list_ascii_of_string ". ") sentences)
            ∨ body = DocumentProcessor.strip
                       (DocumentProcessor.join (list_ascii_of_string ". ") sentences)
                     ++ ["."%char])
         ∧ last body = Some "."%char
         ∧ Answer.generate_answer_from_context query context
           = list_ascii_of_string "Based on the course materials: " ++ body).
Proof.
  unfold Answer.generate_answer_from_context.
  destruct (DocumentProcessor.strip context) as [|c0 stripped]; [by left|].
  set (query_words := remove_dups (DocumentProcessor.split (Answer.lower <$> query))).
  set (context_words := remove_dups (DocumentProcessor.split (Answer.lower <$> context))).
  destruct (decide (length (filter (λ word, word ∈ context_words) query_words) < 2))
    as [Hfew|Hshared]; [by left|].
  set (relevant := DocumentProcessor.strip <$> filter _ _).
  destruct relevant as [|sentence relevant'] eqn:Hrelevant; [by left|].
  right. split.
  - destruct (NoDup_two_distinct (filter (λ word, word ∈ context_words) query_words))
      as (w1 & w2 & Hne & [H1c H1q]%list_elem_of_filter & [H2c H2q]%list_elem_of_filter);
      [apply NoDup_filter, NoDup_remove_dups|lia|].
    exists w1, w2. unfold query_words, context_words in *.
    rewrite !elem_of_remove_dups in *. done.
  - exists (take 3 (sentence :: relevant')).
    set (answer := DocumentProcessor.strip _).
    exists (if decide (last answer = Some "."%char) then answer
            else answer ++ ["."%char]).
    split; [done|]. split; [rewrite length_take; lia|]. split; [|split; [|split]].
    + intros s Hs%subseteq_take. rewrite <- Hrelevant in Hs. unfold relevant in Hs.
      apply list_elem_of_fmap in Hs as (piece & -> & [Hword Hpiece]%list_elem_of_filter).
      apply Exists_exists in Hword as (word & Hin & Hcontains).
      exists piece, word. split; [done|]. split; [done|]. split; [|done].
      unfold query_words in Hin. by rewrite elem_of_remove_dups in Hin.
    + case_decide; [by left|by right].
    + case_decide; [done|]. by rewrite last_snoc.
    + done.
Qed.
